(** * inline-compare: a shallow embedding of [inline-compare.go]

    The Go program compares two directories: it computes an MD5 digest per
    top-level file ([generateChecksums], optionally from a cached CSV),
    writes the names whose digests differ to [diff.csv]
    ([generateCombinedCSV]), and resolves every row of that file into an
    artifact under [diffs/] ([compareFilesInCSV], [generateDiff],
    [copyFile]).

    Go strings are [string]; byte slices and file contents are [list ascii];
    Go maps are [gmap]; the file system, standard output and the source of
    temporary-file names are threaded through a state-and-error monad. *)

From Stdlib Require Import ZArith Lia Ascii String List Bool DecimalString.
From stdpp Require Import base option list gmap sets strings sorting fin_maps.
From Equations Require Import Equations.

Local Open Scope list_scope.

(** ** Bytes *)

Definition bytes := list ascii.

Definition LF : ascii := "010"%char.
Definition CR : ascii := "013"%char.
Definition DQUOTE : ascii := "034"%char.
Definition COMMA : ascii := ","%char.
Definition SLASH : ascii := "/"%char.

Definition b (s : string) : bytes := list_ascii_of_string s.
Definition str (l : bytes) : string := string_of_list_ascii l.

(** The newline that ends a printed line. *)
Definition nl : string := String LF "".

(** ** encoding/csv

    The program uses [csv.NewWriter] and [csv.NewReader] with their default
    settings: the delimiter is a comma, [UseCRLF], [LazyQuotes],
    [TrimLeadingSpace] and [Comment] are off and [FieldsPerRecord] is 0
    (every record must have as many fields as the first one). *)

Module csv.

(** [Writer.fieldNeedsQuotes]: a field is quoted when it is [\.], contains
    the delimiter, a quote, CR or LF, or begins with a rune for which
    [unicode.IsSpace] holds. *)
Definition isSpecial (c : ascii) : bool :=
  bool_decide (c = LF) || bool_decide (c = CR) ||
  bool_decide (c = DQUOTE) || bool_decide (c = COMMA).

(** [unicode.IsSpace] of the first UTF-8 encoded rune: TAB, VT, FF, space
    (LF and CR are special already), U+0085, U+00A0, U+1680, U+2000..U+200A,
    U+2028, U+2029, U+202F, U+205F and U+3000. *)
Definition firstRuneIsSpace (field : bytes) : bool :=
  match N_of_ascii <$> field with
  | 9%N :: _ | 11%N :: _ | 12%N :: _ | 32%N :: _ => true
  | 194%N :: 133%N :: _ | 194%N :: 160%N :: _ => true
  | 225%N :: 154%N :: 128%N :: _ => true
  | 226%N :: 128%N :: c :: _ =>
      ((128 <=? c)%N && (c <=? 138)%N) ||
      (c =? 168)%N || (c =? 169)%N || (c =? 175)%N
  | 226%N :: 129%N :: 159%N :: _ => true
  | 227%N :: 128%N :: 128%N :: _ => true
  | _ => false
  end.

Definition fieldNeedsQuotes (field : string) : bool :=
  if decide (field = "") then false
  else if decide (field = "\.") then true
  else existsb isSpecial (b field) || firstRuneIsSpace (b field).

(** The body of a quoted field: a quote is doubled; CR and LF are written
    as they are ([UseCRLF] is off). *)
Fixpoint quoteBody (field : bytes) : bytes :=
  match field with
  | [] => []
  | c :: rest =>
      if decide (c = DQUOTE) then DQUOTE :: DQUOTE :: quoteBody rest
      else c :: quoteBody rest
  end.

Definition writeField (field : string) : bytes :=
  if fieldNeedsQuotes field then DQUOTE :: quoteBody (b field) ++ [DQUOTE]
  else b field.

(** The loop of [Writer.Write]: a comma before every field but the first. *)
Fixpoint writeFields (n : nat) (record : list string) : bytes :=
  match record with
  | [] => []
  | field :: rest =>
      (if n is O then [] else [COMMA]) ++ writeField field ++
      writeFields (S n) rest
  end.

(** [Writer.Write]: the fields, then a newline. *)
Definition Write (record : list string) : bytes :=
  writeFields 0 record ++ [LF].

Definition WriteAll (records : list (list string)) : bytes :=
  concat (Write <$> records).

(** [Reader.readLine] replaces CR LF at the end of a line by LF and drops a
    CR that ends the input. Every CR LF of the input ends a line, so the
    effect on the whole input is this pass. *)
Fixpoint normalizeNewlines (s : bytes) : bytes :=
  match s with
  | [] => []
  | c :: rest =>
      if decide (c = CR) then
        match rest with
        | [] => []
        | d :: _ => if decide (d = LF) then normalizeNewlines rest
                    else c :: normalizeNewlines rest
        end
      else c :: normalizeNewlines rest
  end.

(** Whether a CR is directly followed by a LF somewhere in the text: the
    one thing the reader does not give back as it was written. *)
Fixpoint hasCRLF (s : bytes) : bool :=
  match s with
  | [] => false
  | c :: rest =>
      (bool_decide (c = CR) &&
       match rest with d :: _ => bool_decide (d = LF) | [] => false end)
      || hasCRLF rest
  end.

Definition safe (field : string) : Prop := hasCRLF (b field) = false.

(** The reader's position inside [Reader.readRecord]. *)
Inductive position :=
  | RecordStart      (* before a record: empty lines are skipped *)
  | FieldStart       (* after a comma *)
  | Unquoted         (* inside a non-quoted field *)
  | Quoted           (* inside a quoted field *)
  | QuoteInQuoted.   (* just after a quote inside a quoted field *)

Record reader := Reader {
  field : bytes;                    (* the current field, reversed *)
  record : list string;             (* the current record, reversed *)
  records : list (list string);     (* the records read, reversed *)
  FieldsPerRecord : option nat      (* set by the first record *)
}.

Definition newReader : reader := Reader [] [] [] None.

Definition push (c : ascii) (r : reader) : reader :=
  Reader (c :: field r) (record r) (records r) (FieldsPerRecord r).

Definition endField (r : reader) : reader :=
  Reader [] (str (rev (field r)) :: record r) (records r) (FieldsPerRecord r).

(** The end of [readRecord]: the record is kept if its number of fields is
    the expected one ([ErrFieldCount] otherwise). *)
Definition endRecord (r : reader) : option reader :=
  let rec := rev (record r) in
  match FieldsPerRecord r with
  | None => Some (Reader [] [] (rec :: records r) (Some (length rec)))
  | Some n =>
      if decide (length rec = n)
      then Some (Reader [] [] (rec :: records r) (Some n))
      else None
  end.

Definition stepUnquoted (r : reader) (c : ascii) : option (position * reader) :=
  if decide (c = COMMA) then Some (FieldStart, endField r)
  else if decide (c = LF) then r' ← endRecord (endField r); Some (RecordStart, r')
  else if decide (c = DQUOTE) then None      (* ErrBareQuote *)
  else Some (Unquoted, push c r).

Definition stepFieldStart (r : reader) (c : ascii) : option (position * reader) :=
  if decide (c = DQUOTE) then Some (Quoted, r) else stepUnquoted r c.

Definition step (p : position) (r : reader) (c : ascii)
  : option (position * reader) :=
  match p with
  | RecordStart =>
      if decide (c = LF) then Some (RecordStart, r) else stepFieldStart r c
  | FieldStart => stepFieldStart r c
  | Unquoted => stepUnquoted r c
  | Quoted =>
      if decide (c = DQUOTE) then Some (QuoteInQuoted, r)
      else Some (Quoted, push c r)
  | QuoteInQuoted =>
      if decide (c = DQUOTE) then Some (Quoted, push DQUOTE r)
      else if decide (c = COMMA) then Some (FieldStart, endField r)
      else if decide (c = LF) then
        r' ← endRecord (endField r); Some (RecordStart, r')
      else None                              (* ErrQuote *)
  end.

(** The end of the input: a quoted field that is still open is [ErrQuote];
    a record in progress ends. *)
Definition finish (p : position) (r : reader) : option (list (list string)) :=
  match p with
  | RecordStart => Some (rev (records r))
  | Quoted => None
  | FieldStart | Unquoted | QuoteInQuoted =>
      r' ← endRecord (endField r); Some (rev (records r'))
  end.

Fixpoint readRecords (p : position) (r : reader) (s : bytes)
  : option (list (list string)) :=
  match s with
  | [] => finish p r
  | c :: rest =>
      match step p r c with
      | None => None
      | Some (p', r') => readRecords p' r' rest
      end
  end.

(** [Reader.ReadAll] over the whole content of a file: the records, or
    [None] for a parse error. *)
Definition ReadAll (content : bytes) : option (list (list string)) :=
  readRecords RecordStart newReader (normalizeNewlines content).

End csv.

(** ** The Reconciler: [generateCombinedCSV] *)

(** A Go map read at a key it does not hold gives the zero value. *)
Definition index (m : gmap string string) (key : string) : string :=
  default "" (m !! key).

(** [fileNames]: the keys of both maps. *)
Definition fileNames (checksums1 checksums2 : gmap string string) : gset string :=
  dom checksums1 ∪ dom checksums2.

(** [sort.Strings] orders by Go's [<] on strings: byte-wise lexicographic. *)
Definition sort_Strings (l : list string) : list string :=
  merge_sort String.le l.

(** [sortedFileNames]: the keys in the order [sort.Strings] leaves them.
    Go ranges over [fileNames] in an unspecified order; [elements] is one
    such order ([sortedFileNames_any_order] below covers the others). *)
Definition sortedFileNames (checksums1 checksums2 : gmap string string)
  : list string :=
  sort_Strings (elements (fileNames checksums1 checksums2)).

(** One pass of the loop "Write data". *)
Definition dataRow (checksums1 checksums2 : gmap string string)
    (fileName : string) : option (list string) :=
  let checksum1 := index checksums1 fileName in
  let checksum2 := index checksums2 fileName in
  if decide (checksum1 ≠ checksum2)
  then Some [fileName; checksum1; checksum2]
  else None.

Definition dataRows (checksums1 checksums2 : gmap string string)
  : list (list string) :=
  omap (dataRow checksums1 checksums2) (sortedFileNames checksums1 checksums2).

Definition headerRow (dir1 dir2 : string) : list string :=
  ["File Name"; "Checksum " +:+ dir1; "Checksum " +:+ dir2].

(** ** Results, errors and the world *)

(** The errors of the system calls the model distinguishes. *)
Inductive errno := ENOENT | EISDIR | ENOTDIR | ENOTEMPTY | EACCES | EEXIST.

Inductive error :=
  | PathError (op path : string) (e : errno)     (* *fs.PathError *)
  | ExecError (name msg : string)                (* the error of exec.Cmd: exit status, or the command did not start *)
  | ParseError                                   (* *csv.ParseError *)
  | Errorf (msg : string) (cause : error).       (* fmt.Errorf(msg + ": %v", cause) *)

Inductive result (A : Type) :=
  | Ok (a : A)
  | Err (e : error)
  | Panic (msg : string).
Arguments Ok {A} a.
Arguments Err {A} e.
Arguments Panic {A} msg.

Global Instance errno_eq_dec : EqDecision errno.
Proof. solve_decision. Defined.
Global Instance error_eq_dec : EqDecision error.
Proof. solve_decision. Defined.

(** [os.IsNotExist]. *)
Definition os_IsNotExist (e : error) : bool :=
  match e with PathError _ _ ENOENT => true | _ => false end.

(** A regular file (with whether it may be opened for reading, and its
    content) or a directory. *)
Inductive node :=
  | File (readable : bool) (data : bytes)
  | Dir.

Global Instance node_eq_dec : EqDecision node.
Proof. solve_decision. Defined.

(** The file system maps a path, as the program spells it, to its node. *)
Abbreviation fsys := (gmap string node).

Record world := World {
  fs : fsys;
  stdout : list string;       (* one entry per fmt.Printf / fmt.Println *)
  TempDir : string;           (* os.TempDir() *)
  random : nat -> string;     (* the strings nextRandom() returns, in order *)
  nrandom : nat;              (* how many of them were used *)
  debug : bool                (* the package variable [debug] *)
}.

Definition set_fs (f : fsys -> fsys) (w : world) : world :=
  World (f (fs w)) (stdout w) (TempDir w) (random w) (nrandom w) (debug w).
Definition set_debug (d : bool) (w : world) : world :=
  World (fs w) (stdout w) (TempDir w) (random w) (nrandom w) d.

(** The state-and-error monad of the program. *)
Definition M (A : Type) : Type := world -> result A * world.

Definition ret {A} (a : A) : M A := fun w => (Ok a, w).
Definition fail {A} (e : error) : M A := fun w => (Err e, w).
Definition panic {A} (msg : string) : M A := fun w => (Panic msg, w).

Definition bind {A B} (m : M A) (k : A -> M B) : M B :=
  fun w =>
    match m w with
    | (Ok a, w') => k a w'
    | (Err e, w') => (Err e, w')
    | (Panic msg, w') => (Panic msg, w')
    end.

Notation "'let*' x ':=' m 'in' k" := (bind m (fun x => k))
  (at level 10, x binder, m at level 100, k at level 200,
   format "'[v' 'let*'  x  ':='  m  'in' '/' k ']'").
Notation "m ';;' k" := (bind m (fun _ => k))
  (at level 100, k at level 200, right associativity).

(** [defer cleanup; body]: the cleanup runs when the body is left, whatever
    the body returned; what the cleanup itself returns is dropped. *)
Definition defer {A} (cleanup : M unit) (body : M A) : M A :=
  fun w => let '(r, w1) := body w in (r, snd (cleanup w1)).

(** An error taken as a value: [_, err := f()]. *)
Definition try {A} (m : M A) : M (option error) :=
  fun w =>
    match m w with
    | (Ok _, w') => (Ok None, w')
    | (Err e, w') => (Ok (Some e), w')
    | (Panic msg, w') => (Panic msg, w')
    end.

(** A result and its error taken as values: [x, err := f()]. *)
Definition attempt {A} (m : M A) : M (error + A) :=
  fun w =>
    match m w with
    | (Ok a, w') => (Ok (inr a), w')
    | (Err e, w') => (Ok (inl e), w')
    | (Panic msg, w') => (Panic msg, w')
    end.

Definition liftResult {A} (r : result A) : M A := fun w => (r, w).

Definition get_fs : M fsys := fun w => (Ok (fs w), w).
Definition get_debug : M bool := fun w => (Ok (debug w), w).
Definition modify_fs (f : fsys -> fsys) : M unit := fun w => (Ok tt, set_fs f w).
Definition lift {A} (r : error + A) : M A :=
  match r with inl e => fail e | inr a => ret a end.

(** [fmt.Printf] and [fmt.Println]. *)
Definition Printf (s : string) : M unit :=
  fun w => (Ok tt, World (fs w) (stdout w ++ [s]) (TempDir w) (random w)
                         (nrandom w) (debug w)).

Definition when (c : bool) (m : M unit) : M unit := if c then m else ret tt.

(** ** Go's [int]: 64 bits on the targets the README builds for *)

Definition wrap (z : Z) : Z := ((z + 2 ^ 63) mod 2 ^ 64 - 2 ^ 63)%Z.
Definition int_mul (x y : Z) : Z := wrap (x * y).
Definition int_add (x y : Z) : Z := wrap (x + y).

(** [%d]. *)
Definition fmt_d (z : Z) : string := NilZero.string_of_int (Z.to_int z).

(** ** path/filepath

    Paths are kept as the program spells them. [filepath.Join] also cleans
    its result; the model joins with a slash, which is the cleaned result
    for a clean directory (other than [.] and [/]) and a name that is one
    path element. *)

Definition filepath_Join (dir name : string) : string :=
  if decide (name = "") then dir
  else if decide (dir = "") then name
  else dir +:+ "/" +:+ name.

(** The text before and after the last slash. *)
Fixpoint splitLast (s : bytes) : option (bytes * bytes) :=
  match s with
  | [] => None
  | c :: rest =>
      match splitLast rest with
      | Some (d, base) => Some (c :: d, base)
      | None => if decide (c = SLASH) then Some ([], rest) else None
      end
  end.

(** [filepath.Base] of a clean path. *)
Definition filepath_Base (path : string) : string :=
  if decide (path = "") then "."
  else match splitLast (b path) with
       | Some (_, base) => if decide (base = []) then "/" else str base
       | None => path
       end.

(** ** The system calls *)

Fixpoint stripPrefix (p s : bytes) : option bytes :=
  match p, s with
  | [], _ => Some s
  | c :: p', d :: s' => if decide (c = d) then stripPrefix p' s' else None
  | _ :: _, [] => None
  end.

(** The name of [key] inside [dir], when [key] is an entry of [dir]. *)
Definition childName (dir key : string) : option string :=
  rest ← stripPrefix (b dir ++ [SLASH]) (b key);
  if decide (rest ≠ [] ∧ SLASH ∉ rest) then Some (str rest) else None.

Definition under (dir key : string) : bool :=
  bool_decide (is_Some (stripPrefix (b dir ++ [SLASH]) (b key))).

(** Whether the directory a new file goes into exists; a path with no
    slash is relative to the working directory, which exists. *)
Definition parentError (f : fsys) (name : string) : option errno :=
  match splitLast (b name) with
  | None | Some ([], _) => None
  | Some (d, _) =>
      match f !! str d with
      | Some Dir => None
      | Some (File _ _) => Some ENOTDIR
      | None => Some ENOENT
      end
  end.

(** The proper prefixes of a path that end just before a slash, shortest
    first: the directories [os.MkdirAll] makes sure of. *)
Fixpoint dirPrefixes (s : bytes) : list bytes :=
  match s with
  | [] => []
  | c :: rest =>
      (if decide (c = SLASH) then [[]] else []) ++ (cons c <$> dirPrefixes rest)
  end.

(** The error of a system call on a path that is not there: [ENOTDIR] when
    the first component that is no directory is a regular file, [ENOENT]
    when it is missing, or when every component before the last is a
    directory. *)
Fixpoint firstNonDir (f : fsys) (prefixes : list string) : errno :=
  match prefixes with
  | [] => ENOENT
  | p :: rest =>
      if decide (p = "") then firstNonDir f rest
      else match f !! p with
           | Some Dir => firstNonDir f rest
           | Some (File _ _) => ENOTDIR
           | None => ENOENT
           end
  end.

Definition absentErrno (f : fsys) (name : string) : errno :=
  firstNonDir f (str <$> dirPrefixes (b name)).

Record FileInfo := mkFileInfo { Name : string; IsDir : bool; Size : Z }.

(** The size [Stat] reports for a directory depends on the file system;
    the program's outcome does not (reading a directory fails). *)
Definition dirSize : Z := 4096.

Definition fileInfo (name : string) (n : node) : FileInfo :=
  match n with
  | File _ data => mkFileInfo name false (Z.of_nat (length data))
  | Dir => mkFileInfo name true dirSize
  end.

Definition stat (f : fsys) (name : string) : error + FileInfo :=
  match f !! name with
  | Some n => inr (fileInfo (filepath_Base name) n)
  | None => inl (PathError "stat" name (absentErrno f name))
  end.

Definition os_Stat (name : string) : M FileInfo :=
  let* f := get_fs in lift (stat f name).

(** An open file is named by its path; reads and writes go to the node
    the path has at that time. *)
Abbreviation handle := string.

(** [os.Open]: opening a directory succeeds (reading from it fails). *)
Definition os_Open (name : string) : M handle :=
  let* f := get_fs in
  match f !! name with
  | Some (File true _) | Some Dir => ret name
  | Some (File false _) => fail (PathError "open" name EACCES)
  | None => fail (PathError "open" name (absentErrno f name))
  end.

(** Reading an open file to its end ([io.Copy], [Reader.ReadAll]'s reads). *)
Definition readAll (file : handle) : M bytes :=
  let* f := get_fs in
  match f !! file with
  | Some (File _ data) => ret data
  | Some Dir => fail (PathError "read" file EISDIR)
  | None => fail (PathError "read" file ENOENT)
  end.

(** Opening for writing only: [os.WriteFile] truncates
    ([O_WRONLY|O_CREATE|O_TRUNC]), [updateCSV] appends
    ([O_APPEND|O_WRONLY|O_CREATE]). *)
Definition openForWriting (truncate : bool) (name : string) : M handle :=
  let* f := get_fs in
  match f !! name with
  | Some Dir => fail (PathError "open" name EISDIR)
  | Some (File r data) =>
      (if truncate then modify_fs <[name := File r []]> else ret tt);;
      ret name
  | None =>
      if decide (name = "") then fail (PathError "open" name ENOENT)
      else match parentError f name with
           | Some _ => fail (PathError "open" name (absentErrno f name))
           | None => modify_fs <[name := File true []]>;; ret name
           end
  end.

(** [os.Create] opens with [O_RDWR|O_CREATE|O_TRUNC]: a file that may not
    be read cannot be opened this way, and is not truncated. *)
Definition os_Create (name : string) : M handle :=
  let* f := get_fs in
  match f !! name with
  | Some (File false _) => fail (PathError "open" name EACCES)
  | _ => openForWriting true name
  end.

(** [File.Write] on a file opened with [O_APPEND], or at the end of a file
    that was just truncated or created. *)
Definition file_Write (file : handle) (data : bytes) : M unit :=
  let* f := get_fs in
  match f !! file with
  | Some (File r old) => modify_fs <[file := File r (old ++ data)]>
  | _ => fail (PathError "write" file ENOENT)
  end.

Definition os_WriteFile (name : string) (data : bytes) : M unit :=
  let* file := openForWriting true name in file_Write file data.

(** [os.Remove]: a file, or a directory with no entry. *)
Definition os_Remove (name : string) : M unit :=
  let* f := get_fs in
  match f !! name with
  | None => fail (PathError "remove" name (absentErrno f name))
  | Some (File _ _) => modify_fs (delete name)
  | Some Dir =>
      if existsb (under name) (elements (dom f))
      then fail (PathError "remove" name ENOTEMPTY)
      else modify_fs (delete name)
  end.

Definition mkdirStep (acc : error + fsys) (p : string) : error + fsys :=
  match acc with
  | inl e => inl e
  | inr f =>
      if decide (p = "") then inr f
      else match f !! p with
           | Some Dir => inr f
           | Some (File _ _) => inl (PathError "mkdir" p ENOTDIR)
           | None => inr (<[p := Dir]> f)
           end
  end.

Definition os_MkdirAll (path : string) : M unit :=
  if decide (path = "") then fail (PathError "mkdir" path ENOENT)
  else
    let* f := get_fs in
    match foldl mkdirStep (inr f) ((str <$> dirPrefixes (b path)) ++ [path]) with
    | inl e => fail e
    | inr f' => modify_fs (fun _ => f')
    end.

(** [ioutil.ReadDir]: the entries of a directory, sorted by name. *)
Definition dirEntry (dir : string) (kv : string * node) : option FileInfo :=
  name ← childName dir kv.1; Some (fileInfo name kv.2).

Definition byName (x y : FileInfo) : Prop := String.le (Name x) (Name y).
Global Instance byName_dec : RelDecision byName.
Proof. intros x y. unfold byName. apply _. Defined.

Definition ioutil_ReadDir (dirname : string) : M (list FileInfo) :=
  let* f := get_fs in
  if decide (dirname = "") then fail (PathError "open" dirname ENOENT)
  else
    match f !! dirname with
    | None => fail (PathError "open" dirname (absentErrno f dirname))
    | Some (File _ _) => fail (PathError "readdirent" dirname ENOTDIR)
    | Some Dir => ret (merge_sort byName (omap (dirEntry dirname) (map_to_list f)))
    end.

(** [os.CreateTemp("", prefix + "*" + suffix)]: a new file in [TempDir]
    whose name holds the next random string; a name that is taken is
    retried, 10000 times at most. *)
Fixpoint createTemp (tries : nat) (pfx sfx : string) : M handle :=
  fun w =>
    let name := TempDir w +:+ "/" +:+ pfx +:+ random w (nrandom w) +:+ sfx in
    let w1 := World (fs w) (stdout w) (TempDir w) (random w) (S (nrandom w))
                    (debug w) in
    match fs w !! name with
    | Some _ =>
        match tries with
        | O => (Err (PathError "createtemp" (TempDir w +:+ "/" +:+ pfx +:+ "*" +:+ sfx) EEXIST), w1)
        | S tries' => createTemp tries' pfx sfx w1
        end
    | None =>
        match parentError (fs w) name with
        | Some e => (Err (PathError "open" name e), w1)
        | None => (Ok name, set_fs <[name := File true []]> w1)
        end
    end.

Definition retries : nat := Z.to_nat 9999.

Definition os_CreateTemp (pfx sfx : string) : M handle :=
  createTemp retries pfx sfx.

(** The name [os.CreateTemp] tries after [k] earlier tries. *)
Definition tempName (w : world) (pfx sfx : string) (k : nat) : string :=
  TempDir w +:+ "/" +:+ pfx +:+ random w (nrandom w + k) +:+ sfx.

(** ** Reading a file in chunks

    The loop of [readFileInChunks]: [file.Read(buf)] delivers what is left
    of the file, [size] bytes at most; the loop ends when it delivers
    nothing. *)

Definition inspect {A} (a : A) : {x : A | a = x} := exist _ a eq_refl.

Equations readChunks (size : nat) (unread content : bytes) : bytes
  by wf (length unread) lt :=
  readChunks size unread content with inspect (take size unread) := {
    | exist _ [] _ => content
    | exist _ (c :: buf) _ =>
        readChunks size (drop size unread) (content ++ c :: buf) }.
Next Obligation.
  intros. rewrite length_drop.
  destruct size; [done|]. destruct unread; [done|]. simpl. lia.
Qed.

Definition bufSize : nat := Z.to_nat (1024 * 1024).

(** ** What the program takes from outside

    MD5, the [tail] and [diff] utilities, [filepath.Clean] and the
    floating-point formatting of [humanReadableSize] are not part of the
    program text; the program is stated over any of them. *)

(** What [exec.Cmd.Output] / [CombinedOutput] return: the bytes, and the
    error when the command did not start or exited with a non-zero status. *)
Record cmdResult := CmdResult { cmd_err : option string; cmd_out : bytes }.

Class Externals := {
  (** [hex.EncodeToString(md5.Sum(content))] *)
  md5hex : bytes -> string;
  (** [tail -n N file] on a readable regular file with this content *)
  tail : Z -> bytes -> cmdResult;
  (** [diff -u name1 name2] on two readable regular files *)
  diff : string -> bytes -> string -> bytes -> cmdResult;
  (** [filepath.Clean] *)
  filepath_Clean : string -> string;
  (** [humanReadableSize]: [fmt.Sprintf("%.1f %cB", ...)] on floats *)
  humanReadableSize : Z -> string
}.

(** Go prints an error with [%v] through its [Error] method. *)
Definition errnoText (e : errno) : string :=
  match e with
  | ENOENT => "no such file or directory"
  | EISDIR => "is a directory"
  | ENOTDIR => "not a directory"
  | ENOTEMPTY => "directory not empty"
  | EACCES => "permission denied"
  | EEXIST => "file exists"
  end.

Fixpoint fmt_v (e : error) : string :=
  match e with
  | PathError op path en => op +:+ " " +:+ path +:+ ": " +:+ errnoText en
  | ExecError _ msg => msg
  | ParseError => "parse error"
  | Errorf msg cause => msg +:+ ": " +:+ fmt_v cause
  end.

Section Program.
Context `{Externals}.

(** *** Running the utilities *)

(** [exec.Command("tail", "-n", N, filePath).Output()]: on anything but a
    readable regular file [tail] reports the error and exits with 1. *)
Definition exec_tail (n : Z) (filePath : string) : M cmdResult :=
  let* f := get_fs in
  match f !! filePath with
  | Some (File true data) => ret (tail n data)
  | _ => ret (CmdResult (Some "exit status 1") [])
  end.

(** [exec.Command("diff", "-u", name1, name2).CombinedOutput()]: on
    anything but two readable regular files [diff] writes a message to the
    standard error, which is part of the combined output, and exits with 2. *)
Definition exec_diff (name1 name2 : string) : M cmdResult :=
  let* f := get_fs in
  match f !! name1, f !! name2 with
  | Some (File true data1), Some (File true data2) =>
      ret (diff name1 data1 name2 data2)
  | _, _ => ret (CmdResult (Some "exit status 2") (b "diff: cannot read the files"))
  end.

(** *** The Checksum Store *)

(** [fileChecksum] *)
Definition fileChecksum (filePath : string) : M string :=
  let* file := os_Open filePath in
  let* content := readAll file in          (* io.Copy(hash, file) *)
  ret (md5hex content).

(** [updateCSV]: the record is written when the deferred [Flush] runs. *)
Definition updateCSV (csvFile fileName checksum : string) : M unit :=
  let* file := openForWriting false csvFile in
  file_Write file (csv.Write [fileName; checksum]).

(** [for _, record := range records { checksums[record[0]] = record[1] }]:
    a record with fewer than two fields is an index out of range. *)
Fixpoint loadRecords (records : list (list string))
    (checksums : gmap string string) : result (gmap string string) :=
  match records with
  | [] => Ok checksums
  | record :: rest =>
      match record with
      | record0 :: record1 :: _ => loadRecords rest (<[record0 := record1]> checksums)
      | _ => Panic "index out of range"
      end
  end.

(** The loop [for _, file := range files] of [generateChecksums]. *)
Fixpoint checksumFiles (dir csvFile : string) (files : list FileInfo)
    (checksums : gmap string string) : M (gmap string string) :=
  match files with
  | [] => ret checksums
  | file :: rest =>
      if IsDir file then checksumFiles dir csvFile rest checksums
      else
        let filePath := filepath_Join dir (Name file) in
        let* checksum := fileChecksum filePath in
        updateCSV csvFile (Name file) checksum;;
        Printf (" - " +:+ filePath +:+ ": " +:+ checksum +:+ nl);;
        checksumFiles dir csvFile rest (<[Name file := checksum]> checksums)
  end.

Definition csvFileOf (dir outputDir : string) : string :=
  filepath_Join outputDir (filepath_Base dir +:+ "-checksums.csv").

(** The part of [generateChecksums] from [ioutil.ReadDir] on. *)
Definition regenerate (dir csvFile : string) : M (gmap string string) :=
  let* files := ioutil_ReadDir dir in
  let* checksums := checksumFiles dir csvFile files ∅ in
  Printf ("# Checksums for " +:+ dir +:+ " generated (" +:+ csvFile +:+ ")"
          +:+ nl);;
  ret checksums.

(** [csv.NewReader(file).ReadAll()] *)
Definition csv_ReadAll (file : handle) : M (list (list string)) :=
  let* content := readAll file in
  match csv.ReadAll content with
  | Some records => ret records
  | None => fail ParseError
  end.

(** [generateChecksums] *)
Definition generateChecksums (dir : string) (useCache : bool)
    (outputDir : string) : M (gmap string string) :=
  let csvFile := csvFileOf dir outputDir in
  if useCache then
    let* file := attempt (os_Open csvFile) in
    match file with
    | inr file =>
        let* records := attempt (csv_ReadAll file) in
        match records with
        | inr records => liftResult (loadRecords records ∅)
        | inl _ => regenerate dir csvFile
        end
    | inl _ => regenerate dir csvFile
    end
  else
    (* Delete existing checksum file if it exists *)
    let* err := try (os_Remove csvFile) in
    match err with
    | Some e => if negb (os_IsNotExist e) then fail e else regenerate dir csvFile
    | None => regenerate dir csvFile
    end.

(** *** The Reconciler *)

(** [generateCombinedCSV]: the header and the rows reach the file when the
    deferred [Flush] runs. *)
Definition generateCombinedCSV (checksums1 checksums2 : gmap string string)
    (dir1 dir2 outputDir : string) : M unit :=
  let* outputFile := os_Create (filepath_Join outputDir "diff.csv") in
  file_Write outputFile
    (csv.WriteAll (headerRow dir1 dir2 :: dataRows checksums1 checksums2)).

(** *** The Diff Engine *)

(** [readLastLines] *)
Definition readLastLines (filePath : string) (n : Z) : M bytes :=
  let* r := exec_tail n filePath in
  match cmd_err r with
  | Some msg => fail (ExecError "tail" msg)
  | None => ret (cmd_out r)
  end.

(** [readFileInChunks]: [buf := make([]byte, 1024*1024)]. *)
Definition readFileInChunks (filePath : string) : M bytes :=
  let* file := os_Open filePath in
  let* f := get_fs in
  match f !! file with
  | Some (File _ data) => ret (readChunks bufSize data [])
  | _ => fail (PathError "read" file EISDIR)
  end.

(** [copyFile] *)
Definition copyFile (src dst : string) : M unit :=
  let* sourceFile := os_Open (filepath_Clean src) in
  let* destinationFile := os_Create (filepath_Clean dst) in
  let* data := readAll sourceFile in       (* io.Copy *)
  file_Write destinationFile data;;
  Printf ("# File copied from " +:+ src +:+ " to " +:+ dst +:+ nl).

(** The size test of [generateDiff] and what it selects: the blocks that
    are handed to [diff]. *)
Definition comparableContent (file1 file2 : string) (info1 info2 : FileInfo)
    (sizeLimit lineLimit : Z) : M (bytes * bytes) :=
  let* dbg := get_debug in
  if ((Size info1 >? sizeLimit) || (Size info2 >? sizeLimit))%Z then
    when dbg (Printf ("// large files detected: " +:+ file1 +:+ " - " +:+ file2
                      +:+ ", comparing last " +:+ fmt_d lineLimit +:+ " lines" +:+ nl));;
    let* content1 := readLastLines file1 lineLimit in
    let* content2 := readLastLines file2 lineLimit in
    ret (content1, content2)
  else
    when dbg (Printf ("// comparing entire files " +:+ file1 +:+ " - " +:+ file2
                      +:+ " " +:+ nl));;
    let* content1 := readFileInChunks file1 in
    let* content2 := readFileInChunks file2 in
    ret (content1, content2).

(** [generateDiff] from [tmpFile1.Write] on: the blocks go to the two
    temporary files, [diff -u] runs on them, and its output is the artifact
    unless it failed without any output. *)
Definition diffAndWrite (file1 file2 diffFile : string) (info1 info2 : FileInfo)
    (tmpFile1 tmpFile2 : handle) (content1 content2 : bytes) : M unit :=
  file_Write tmpFile1 content1;;
  file_Write tmpFile2 content2;;
  let* r := exec_diff tmpFile1 tmpFile2 in
  match cmd_err r with
  | Some msg =>
      if decide (length (cmd_out r) = 0)
      then fail (ExecError "diff" msg)
      else os_WriteFile diffFile (cmd_out r)
  | None => os_WriteFile diffFile (cmd_out r)
  end;;
  Printf (" - diff generated for " +:+ file1 +:+ " ("
          +:+ humanReadableSize (Size info1) +:+ ") and " +:+ file2 +:+ " ("
          +:+ humanReadableSize (Size info2) +:+ ")" +:+ nl);;
  let* dbg := get_debug in
  when dbg (Printf (" __________________________________________________________" +:+ nl)).

(** [generateDiff] from [os.CreateTemp] on: each temporary file is removed
    by a deferred [os.Remove]. *)
Definition diffContents (file1 file2 diffFile : string) (info1 info2 : FileInfo)
    (content1 content2 : bytes) : M unit :=
  let* tmpFile1 := os_CreateTemp "file1-" ".tmp" in
  defer (os_Remove tmpFile1) (
    let* tmpFile2 := os_CreateTemp "file2-" ".tmp" in
    defer (os_Remove tmpFile2) (
      diffAndWrite file1 file2 diffFile info1 info2 tmpFile1 tmpFile2
                   content1 content2)).

(** [generateDiff] *)
Definition generateDiff (file1 file2 diffFile : string)
    (sizeLimit lineLimit : Z) : M unit :=
  (* Check if the diff file already exists and remove it *)
  let* missing := try (os_Stat diffFile) in
  match missing with
  | None =>
      let* err := try (os_Remove diffFile) in
      match err with
      | Some e => fail (Errorf "failed to remove existing diff file" e)
      | None => ret tt
      end
  | Some _ => ret tt
  end;;
  let* info1 := os_Stat file1 in
  let* info2 := os_Stat file2 in
  let* dbg := get_debug in
  when dbg (Printf ("// Size limit: " +:+ fmt_d sizeLimit +:+ nl);;
            Printf ("// File Size 1: " +:+ fmt_d (Size info1) +:+ nl);;
            Printf ("// File Size 2: " +:+ fmt_d (Size info2) +:+ nl));;
  let* '(content1, content2) :=
    comparableContent file1 file2 info1 info2 sizeLimit lineLimit in
  diffContents file1 file2 diffFile info1 info2 content1 content2.

(** One pass of the loop of [compareFilesInCSV]: the record is resolved
    and counted. *)
Definition compareRecord (dir1 dir2 : string) (sizeLimit lineLimit : Z)
    (diffDir : string) (record : list string) (diffCount : Z) : M Z :=
  match record with
  | [] => panic "index out of range"
  | record0 :: _ =>
      let file1 := filepath_Join dir1 record0 in
      let file2 := filepath_Join dir2 record0 in
      let* err1 := try (os_Stat file1) in
      let* err2 := try (os_Stat file2) in
      (if from_option os_IsNotExist false err1 then
         (* file1 does not exist, copy file2 to diffs directory *)
         copyFile file2 (filepath_Join diffDir record0)
       else if from_option os_IsNotExist false err2 then
         (* file2 does not exist, copy file1 to diffs directory *)
         copyFile file1 (filepath_Join diffDir record0)
       else
         (* Both files exist, compare them *)
         let sizeLimitInBytes := int_mul (int_mul sizeLimit 1024) 1024 in
         let diffFile := filepath_Join diffDir (record0 +:+ ".diff") in
         generateDiff file1 file2 diffFile sizeLimitInBytes lineLimit);;
      ret (int_add diffCount 1)
  end.

Fixpoint compareRecords (dir1 dir2 : string) (sizeLimit lineLimit : Z)
    (diffDir : string) (records : list (list string)) (diffCount : Z) : M Z :=
  match records with
  | [] => ret diffCount
  | record :: rest =>
      let* diffCount' :=
        compareRecord dir1 dir2 sizeLimit lineLimit diffDir record diffCount in
      compareRecords dir1 dir2 sizeLimit lineLimit diffDir rest diffCount'
  end.

(** [compareFilesInCSV] *)
Definition compareFilesInCSV (dir1 dir2 : string) (sizeLimit lineLimit : Z)
    (outputDir : string) : M Z :=
  let* file := os_Open (filepath_Join outputDir "diff.csv") in
  let* records := csv_ReadAll file in
  let diffDir := filepath_Join outputDir "diffs" in
  os_MkdirAll diffDir;;
  Printf ("# Start comparing files" +:+ nl);;
  match records with
  | [] => panic "slice bounds out of range"
  | _ :: rows =>                                       (* Skip header *)
      let* diffCount :=
        compareRecords dir1 dir2 sizeLimit lineLimit diffDir rows 0 in
      Printf ("# Files compared and differences stored in " +:+ diffDir +:+ nl);;
      ret diffCount
  end.

(** *** The Orchestrator *)

(** The four stages of [main], from [generateChecksums] on: an error of a
    stage is printed and [main] returns. *)
Definition stages (dir1 dir2 outputDir : string) (lineLimit sizeLimit : Z)
    (useCache : bool) : M unit :=
  let* checksums1 := attempt (generateChecksums dir1 useCache outputDir) in
  match checksums1 with
  | inl err =>
      Printf ("Error generating checksums for " +:+ dir1 +:+ ": " +:+ fmt_v err +:+ nl)
  | inr checksums1 =>
  let* checksums2 := attempt (generateChecksums dir2 useCache outputDir) in
  match checksums2 with
  | inl err =>
      Printf ("Error generating checksums for " +:+ dir2 +:+ ": " +:+ fmt_v err +:+ nl)
  | inr checksums2 =>
  let* err := try (generateCombinedCSV checksums1 checksums2 dir1 dir2 outputDir) in
  match err with
  | Some err => Printf ("Error generating combined CSV: " +:+ fmt_v err +:+ nl)
  | None =>
  Printf ("# Combined CSV generated at " +:+ filepath_Join outputDir "diff.csv" +:+ nl);;
  let* diffCount :=
    attempt (compareFilesInCSV dir1 dir2 sizeLimit lineLimit outputDir) in
  match diffCount with
  | inl err => Printf ("Error comparing files: " +:+ fmt_v err +:+ nl)
  | inr diffCount =>
      Printf ("# Total differences found: " +:+ fmt_d diffCount +:+ " ("
              +:+ filepath_Join outputDir "diffs" +:+ ")" +:+ nl)
  end end end end.

(** [main], after [flag.Parse]: the values of [-lines], [-size],
    [-use-cache] and [-debug], and the remaining arguments. *)
Definition main (lineLimit sizeLimit : Z) (useCache debugFlag : bool)
    (args : list string) : M unit :=
  (fun w => (Ok tt, set_debug debugFlag w));;
  match args with
  | [arg0; arg1] =>
      let dir1 := filepath_Clean arg0 in
      let dir2 := filepath_Clean arg1 in
      let outputDir := filepath_Clean (dir1 +:+ "-" +:+ dir2) in
      (* Create the output directory *)
      let* err := try (os_MkdirAll outputDir) in
      match err with
      | Some err => Printf ("Error creating output directory: " +:+ fmt_v err +:+ nl)
      | None =>
          Printf ("# Compare " +:+ dir1 +:+ " and " +:+ dir2 +:+ nl);;
          stages dir1 dir2 outputDir lineLimit sizeLimit useCache
      end
  | _ => Printf ("Usage: compare [options] <dir1> <dir2>" +:+ nl)
  end.

End Program.

(** What [generateDiff] needs around it: the two temporary names it will
    try are free, the directory for temporary files exists, and the
    artifact is neither of the two and has a directory to go into. *)
Definition roomFor (w : world) (diffFile : string) : Prop :=
  fs w !! tempName w "file1-" ".tmp" 0 = None ∧
  parentError (fs w) (tempName w "file1-" ".tmp" 0) = None ∧
  fs w !! tempName w "file2-" ".tmp" 1 = None ∧
  parentError (fs w) (tempName w "file2-" ".tmp" 1) = None ∧
  diffFile ≠ tempName w "file1-" ".tmp" 0 ∧
  diffFile ≠ tempName w "file2-" ".tmp" 1 ∧
  diffFile ≠ "" ∧
  parentError (fs w) diffFile = None.

(** The exit status of the process: [main] returned (0), or the Go runtime
    ended it after a panic (2). The program never calls [os.Exit]. *)
Definition exitStatus (r : result unit) : Z :=
  match r with
  | Ok _ | Err _ => 0
  | Panic _ => 2
  end.

(** ** Stand-ins for the utilities

    Concrete utilities with the interface of [Externals], used to run the
    program on examples. [tail_n] follows POSIX [tail -n]; [diff_u] has the
    shape of [diff -u]: no output and status 0 on equal inputs, status 1 and
    a unified diff that names both files otherwise (its one hunk replaces
    every line, and the header carries no time stamps); [digest] is not MD5
    but gives 32 hexadecimal digits. *)

Module reference.

(** The lines of a text, each with the newline that ends it. *)
Fixpoint splitLines (s : bytes) : list bytes :=
  match s with
  | [] => []
  | c :: rest =>
      if decide (c = LF) then [c] :: splitLines rest
      else match splitLines rest with
           | [] => [[c]]
           | line :: lines => (c :: line) :: lines
           end
  end.

(** The last [n] lines. *)
Definition lastLines (n : nat) (s : bytes) : bytes :=
  let lines := splitLines s in
  concat (drop (length lines - n) lines).

(** [tail -n N]: a sign before the number is accepted; [%d] never prints a
    plus sign, so the count is from the end. *)
Definition tail_n (n : Z) (data : bytes) : cmdResult :=
  CmdResult None (lastLines (Z.to_nat (Z.abs n)) data).

Definition marked (mark : ascii) (line : bytes) : bytes :=
  mark :: line ++ (if decide (last line = Some LF) then [] else [LF]).

Definition diff_u (name1 : string) (data1 : bytes) (name2 : string)
    (data2 : bytes) : cmdResult :=
  if decide (data1 = data2) then CmdResult None []
  else
    let lines1 := splitLines data1 in
    let lines2 := splitLines data2 in
    CmdResult (Some "exit status 1")
      (b ("--- " +:+ name1 +:+ nl +:+ "+++ " +:+ name2 +:+ nl +:+
          "@@ -1," +:+ fmt_d (Z.of_nat (length lines1)) +:+
          " +1," +:+ fmt_d (Z.of_nat (length lines2)) +:+ " @@" +:+ nl)
       ++ concat (marked "-" <$> lines1) ++ concat (marked "+" <$> lines2)).

Definition hexDigit (n : N) : ascii :=
  nth (N.to_nat n) (b "0123456789abcdef") "0"%char.

Fixpoint hex (digits : nat) (n : N) : string :=
  match digits with
  | O => ""
  | S d => hex d (n / 16) +:+ String (hexDigit (n mod 16)) ""
  end.

Definition digest (data : bytes) : string :=
  hex 32 (foldl (fun h c => (h * 257 + N_of_ascii c + 1) mod 2 ^ 128)%N 0%N data).

(** Without a trailing slash. *)
Definition clean (path : string) : string :=
  match rev (b path) with
  | c :: (_ :: _) as r => if decide (c = SLASH) then str (rev r) else path
  | _ => path
  end.

Definition sizeText (size : Z) : string := fmt_d size +:+ " B".

Global Instance externals : Externals := {
  md5hex := digest;
  tail := tail_n;
  diff := diff_u;
  filepath_Clean := clean;
  humanReadableSize := sizeText
}.

(** A [diff] that cannot be started. *)
Definition missing_diff (name1 : string) (data1 : bytes) (name2 : string)
    (data2 : bytes) : cmdResult :=
  CmdResult (Some "exec: diff: executable file not found in $PATH") [].

Definition without_diff : Externals := {|
  md5hex := digest;
  tail := tail_n;
  diff := missing_diff;
  filepath_Clean := clean;
  humanReadableSize := sizeText
|}.

(** A world with the given files, nothing printed yet, [/tmp] as the
    temporary directory and 0, 1, 2, ... as the random strings. *)
Definition worldOf (files : list (string * node)) : world :=
  World (list_to_map files) [] "/tmp" (fun n => fmt_d (Z.of_nat n)) 0 false.

(** The text of a file, one line per element. *)
Definition text (lines : list string) : bytes :=
  concat ((fun line => b line ++ [LF]) <$> lines).

End reference.

(** * The vocabulary of the statements

    Definitions the theorems below are stated with: what the csv reader
    takes unchanged, the worlds a run passes through, the rows of the
    cache file, and the blocks the diff engine compares. *)

(** A text that is its own normal form and does not end in CR. *)
Definition stable (s : bytes) : Prop :=
  csv.normalizeNewlines s = s ∧ last s ≠ Some CR.

Definition ends (c : ascii) : Prop := c = COMMA ∨ c = LF.

(** The file after [data] was appended to it, or created with it. *)
Definition appendTo (f : fsys) (name : string) (data : bytes) : fsys :=
  match f !! name with
  | Some (File r old) => <[name := File r (old ++ data)]> f
  | _ => <[name := File true data]> f
  end.

(** [checksums[record[0]] = record[1]] for each row. *)
Definition recorded (m : gmap string string) (rows : list (list string))
  : gmap string string :=
  foldl (fun m row => match row with
                      | name :: checksum :: _ => <[name := checksum]> m
                      | _ => m
                      end) m rows.

(** The lines the debug flag adds to the output. *)
Definition dbgLine (w : world) (s : string) : list string :=
  if debug w then [s] else [].

Definition printed (lines : list string) (w : world) : world :=
  World (fs w) (stdout w ++ lines) (TempDir w) (random w) (nrandom w) (debug w).

Definition rule : string :=
  " __________________________________________________________" +:+ nl.

(** What [diff] returned, as [generateDiff] takes it: its error when there
    is no output at all, the output as the artifact otherwise. *)
Definition failedDiff (r : cmdResult) : option string :=
  match cmd_err r, cmd_out r with
  | Some msg, [] => Some msg
  | _, _ => None
  end.

(** Two worlds that differ in the file system and in what was printed. *)
Definition sameProcess (w w' : world) : Prop :=
  TempDir w' = TempDir w ∧ random w' = random w ∧ nrandom w' = nrandom w ∧
  debug w' = debug w.

Section vocabulary.
Context `{Externals}.

(** The line [generateDiff] prints when it has written the artifact. *)
Definition generatedLine (file1 file2 : string) (info1 info2 : FileInfo) : string :=
  " - diff generated for " +:+ file1 +:+ " ("
  +:+ humanReadableSize (Size info1) +:+ ") and " +:+ file2 +:+ " ("
  +:+ humanReadableSize (Size info2) +:+ ")" +:+ nl.

(** The blocks [generateDiff] selects for two readable regular files: the
    outputs of [tail] when one of the sizes is above the limit, the whole
    contents otherwise. *)
Definition selected (sizeLimit lineLimit : Z) (data1 data2 : bytes)
  : result (bytes * bytes) :=
  if ((Z.of_nat (length data1) >? sizeLimit)
      || (Z.of_nat (length data2) >? sizeLimit))%Z then
    match cmd_err (tail lineLimit data1), cmd_err (tail lineLimit data2) with
    | Some msg, _ => Err (ExecError "tail" msg)
    | None, Some msg => Err (ExecError "tail" msg)
    | None, None =>
        Ok (cmd_out (tail lineLimit data1), cmd_out (tail lineLimit data2))
    end
  else Ok (data1, data2).

(** The rows of the files [files], read from [f]. *)
Definition rowsOf (f : fsys) (dir : string) (files : list FileInfo)
    (rows : list (list string)) : Prop :=
  Forall2 (fun file row =>
             ∃ data, f !! filepath_Join dir (Name file) = Some (File true data)
                     ∧ row = [Name file; md5hex data])
          (filter (fun file => IsDir file = false) files) rows.

(** What the cache file holds after rows were appended to it. *)
Definition withRows (f : fsys) (csvFile : string) (rows : list (list string))
  : fsys :=
  if decide (rows = []) then f else appendTo f csvFile (csv.WriteAll rows).

End vocabulary.

(** ** Worlds the program is run in below *)

Module examples.
Import reference.

(** Two files that differ in their first line only. *)
Definition twoFiles : world :=
  worldOf [("/tmp", Dir); ("A", Dir); ("B", Dir); ("D", Dir);
           ("A/f", File true (text ["old"; "same"]));
           ("B/f", File true (text ["new"; "same"]))].

(** A file on the second side only. *)
Definition oneSided : world :=
  worldOf [("A", Dir); ("B", Dir); ("D", Dir);
           ("B/b.txt", File true (text ["only b"]))].

(** A file whose name has a CR directly before a LF. *)
Definition oddName : world :=
  worldOf [("A", Dir); ("O", Dir);
           ("A/x" +:+ String CR (String LF "y"), File true (text ["data"]))].

Definition plainName : world :=
  worldOf [("A", Dir); ("O", Dir); ("A/a.txt", File true (text ["data"]))].

(** The first directory is not there. *)
Definition missingDir : world := worldOf [("B", Dir)].

(** A cache file whose one row has one field. *)
Definition shortRow : world :=
  worldOf [("A", Dir); ("O", Dir);
           ("O/A-checksums.csv", File true (text ["abc"]));
           ("A/a.txt", File true (text ["data"]))].

End examples.

(** ** [humanReadableSize]

    The function as the program has it (the theorems on [generateDiff]
    take its result from [Externals]). A [float64] is kept as the number
    it stands for. *)

Module format.

(** [for n := size / unit; n >= unit; n /= unit { div *= unit; exp++ }] *)
Equations unitLoop (n div exp : Z) : Z * Z by wf (Z.to_nat (Z.log2 n)) lt :=
  unitLoop n div exp with inspect (1024 <=? n)%Z := {
    | exist _ true _ =>
        unitLoop (Z.quot n 1024) (int_mul div 1024) (int_add exp 1)
    | exist _ false _ => (div, exp) }.
Next Obligation.
  intros. assert (1024 <= n)%Z by lia.
  rewrite Z.quot_div_nonneg by lia.
  assert (0 < n / 1024)%Z by (apply Z.div_str_pos; lia).
  pose proof (Z.log2_nonneg (n / 1024)).
  assert (Z.log2 (n / 1024) < Z.log2 n)%Z; [|lia].
  apply Z.log2_lt_pow2; [done|].
  pose proof (Z.log2_spec n ltac:(lia)) as [Hlo _].
  assert (n / 1024 <= n / 2)%Z by (apply Z.div_le_compat_l; lia).
  assert (n / 2 < 2 ^ Z.log2 n)%Z; [|lia].
  apply Z.div_lt_upper_bound; [lia|].
  pose proof (Z.log2_spec n ltac:(lia)) as [_ Hhi].
  replace (2 ^ Z.succ (Z.log2 n))%Z with (2 * 2 ^ Z.log2 n)%Z in Hhi; [lia|].
  rewrite Z.pow_succ_r; [done|]. apply Z.log2_nonneg.
Qed.

(** [s[i]] on a string: the byte, or a run-time panic. *)
Definition byteAt (s : string) (i : Z) : result ascii :=
  if (i <? 0)%Z then Panic "index out of range"
  else match b s !! Z.to_nat i with
       | Some c => Ok c
       | None => Panic "index out of range"
       end.

(** The integer nearest to [num / den] for a positive [den]; of two that
    are equally near, the even one. *)
Definition nearestEven (num den : Z) : Z :=
  let q := (num / den)%Z in
  let r := (num mod den)%Z in
  if (2 * r <? den)%Z then q
  else if (den <? 2 * r)%Z then (q + 1)%Z
  else if Z.even q then q else (q + 1)%Z.

(** [float64(z)] of an [int64]: [z] itself when it has 53 bits at most,
    the nearest number with a 53-bit significand otherwise. *)
Definition float64 (z : Z) : Z :=
  let e := (Z.log2 (Z.abs z) - 52)%Z in
  if (e <=? 0)%Z then z else (nearestEven z (2 ^ e) * 2 ^ e)%Z.

(** [fmt.Sprintf("%.1f", x / d)] for [x] not negative and [d] a power of
    two (the quotient of the two [float64] is then exact): the nearest
    number with one decimal, the even one of two that are equally near. *)
Definition fmt_1f (x d : Z) : string :=
  let tenths := nearestEven (10 * x) d in
  fmt_d (tenths / 10) +:+ "." +:+ fmt_d (tenths mod 10).

(** [humanReadableSize] *)
Definition humanReadableSize (size : Z) : result string :=
  if (size <? 1024)%Z then Ok (fmt_d size +:+ " B")
  else
    let '(div, exp) := unitLoop (Z.quot size 1024) 1024 0 in
    match byteAt "KMGTPE" exp with
    | Ok c => Ok (fmt_1f (float64 size) (float64 div) +:+ " " +:+ String c "B")
    | Err e => Err e
    | Panic msg => Panic msg
    end.

End format.

(** ** More vocabulary *)

(** The last record whose first field is [name]. *)
Fixpoint lastRow (name : string) (records : list (list string))
  : option (list string) :=
  match records with
  | [] => None
  | record :: rest =>
      match lastRow name rest with
      | Some r => Some r
      | None => if decide (head record = Some name) then Some record else None
      end
  end.

(** [w'] is [w] but for the file [name] and for lines added to the output. *)
Definition changedOnly (name : string) (w w' : world) : Prop :=
  delete name (fs w') = delete name (fs w) ∧ sameProcess w w' ∧
  stdout w `prefix_of` stdout w'.

(** A row with its two digests exchanged. *)
Definition swapped (row : list string) : list string :=
  match row with
  | [name; checksum1; checksum2] => [name; checksum2; checksum1]
  | _ => row
  end.

(** ** More worlds *)

Module scenarios.
Import reference.

(** A cache file with three fields in a row and a name that comes twice. *)
Definition repeatedName : world :=
  worldOf [("O", Dir);
           ("O/A-checksums.csv", File true (text ["a,1,x"; "b,2,y"; "a,3,z"]))].

(** A cache file that ends inside a quoted field. *)
Definition brokenCache : world :=
  worldOf [("A", Dir); ("O", Dir);
           ("O/A-checksums.csv", File true (DQUOTE :: b "oops"));
           ("A/a.txt", File true (text ["data"]))].

(** An output directory and nothing in it. *)
Definition emptyOutput : world := worldOf [("O", Dir)].

(** [diff.csv] with one data row, for a file of the second directory. *)
Definition oneRow : world :=
  worldOf [("A", Dir); ("B", Dir); ("D", Dir);
           ("B/b.txt", File true (text ["only b"]));
           ("D/diff.csv",
            File true (text ["File Name,Checksum A,Checksum B"; "b.txt,,77"]))].

(** [diff.csv] with nothing in it. *)
Definition emptyCsv : world :=
  worldOf [("D", Dir); ("D/diff.csv", File true [])].

(** The path of an artifact taken by a directory that has an entry. *)
Definition artifactTaken : world :=
  worldOf [("A", Dir); ("B", Dir); ("D", Dir); ("D/f.diff", Dir);
           ("D/f.diff/kept", File true []);
           ("A/f", File true (text ["old"])); ("B/f", File true (text ["new"]))].


(** The destination of the copy of [b.txt] is a file that cannot be read. *)
Definition destinationTaken : world :=
  worldOf [("A", Dir); ("B", Dir); ("D", Dir);
           ("B/b.txt", File true (text ["only b"]));
           ("D/b.txt", File false (text ["kept"]))].

(** The cache of the first directory, where [main] looks for it, has one
    row of one field. *)
Definition shortRowInOutput : world :=
  worldOf [("A", Dir); ("B", Dir); ("A-B", Dir);
           ("A-B/A-checksums.csv", File true (text ["abc"]))].

End scenarios.

(** * Proofs *)

(** ** encoding/csv: what is written is read back *)

Module csv_facts.
Import csv.

Lemma str_b (s : string) : str (b s) = s.
Proof. apply string_of_list_ascii_of_string. Qed.

Lemma b_str (l : bytes) : b (str l) = l.
Proof. apply list_ascii_of_string_of_list_ascii. Qed.

Lemma normalize_app (s t : bytes) :
  last s ≠ Some CR ->
  normalizeNewlines (s ++ t) = normalizeNewlines s ++ normalizeNewlines t.
Proof.
  induction s as [|c s IH]; intros Hlast; [done|].
  assert (last s ≠ Some CR -> normalizeNewlines (s ++ t)
            = normalizeNewlines s ++ normalizeNewlines t) as IH' by exact IH.
  destruct s as [|d s'].
  - simpl in *. destruct (decide (c = CR)) as [->|]; [done|done].
  - assert (last (d :: s') ≠ Some CR) as Hl by (by rewrite last_cons_cons in Hlast).
    specialize (IH' Hl).
    change ((c :: d :: s') ++ t) with (c :: (d :: s') ++ t).
    cbn [normalizeNewlines]. fold normalizeNewlines.
    change ((d :: s') ++ t) with (d :: (s' ++ t)) in *.
    cbn [normalizeNewlines] in *.
    destruct (decide (c = CR)); destruct (decide (d = LF)); simpl; by rewrite ?IH'.
Qed.

Lemma stable_nil : stable [].
Proof. done. Qed.

Lemma stable_app (s t : bytes) : stable s -> stable t -> stable (s ++ t).
Proof.
  intros [Hs Hl] [Ht Hl']. split.
  - by rewrite normalize_app, Hs, Ht.
  - destruct t as [|c t] using rev_ind; [by rewrite app_nil_r|].
    rewrite app_assoc, last_snoc. by rewrite last_snoc in Hl'.
Qed.

Lemma stable_single (c : ascii) : c ≠ CR -> stable [c].
Proof. intros Hc. split; simpl; [by destruct (decide (c = CR))|congruence]. Qed.

Lemma stable_plain (s : bytes) : Forall (fun c => isSpecial c = false) s -> stable s.
Proof.
  induction 1 as [|c s Hc _ IH]; [done|].
  change (c :: s) with ([c] ++ s). apply stable_app; [|done].
  apply stable_single. intros ->. by vm_compute in Hc.
Qed.

Lemma normalize_quoteBody (s : bytes) :
  hasCRLF s = false ->
  normalizeNewlines (quoteBody s ++ [DQUOTE]) = quoteBody s ++ [DQUOTE].
Proof.
  induction s as [|c s IH]; intros Hs; [done|].
  simpl in Hs. apply orb_false_iff in Hs as [Hc Hs]. specialize (IH Hs).
  simpl. destruct (decide (c = DQUOTE)) as [->|Hq].
  - simpl. by rewrite IH.
  - change ((c :: quoteBody s) ++ [DQUOTE]) with (c :: (quoteBody s ++ [DQUOTE])).
    cbn [normalizeNewlines]. fold normalizeNewlines.
    destruct (decide (c = CR)) as [->|]; [|by rewrite IH].
    destruct s as [|d s']; [done|].
    simpl in Hc. apply bool_decide_eq_false in Hc.
    simpl in *. destruct (decide (d = DQUOTE)) as [->|].
    + simpl in *. by rewrite IH.
    + simpl in *. destruct (decide (d = LF)); [done|]. by rewrite IH.
Qed.

Lemma fieldNeedsQuotes_false (f : string) :
  fieldNeedsQuotes f = false -> Forall (fun c => isSpecial c = false) (b f).
Proof.
  unfold fieldNeedsQuotes. destruct (decide (f = "")) as [->|]; [by constructor|].
  destruct (decide _); [done|]. intros [H _]%orb_false_iff.
  apply Forall_forall. intros c Hc.
  destruct (isSpecial c) eqn:E; [|done].
  assert (existsb isSpecial (b f) = true); [|congruence].
  apply existsb_exists. exists c. split; [by apply list_elem_of_In|done].
Qed.

Lemma stable_writeField (f : string) : safe f -> stable (writeField f).
Proof.
  intros Hf. unfold writeField. destruct (fieldNeedsQuotes f) eqn:E.
  - split.
    + change (DQUOTE :: quoteBody (b f) ++ [DQUOTE])
        with ([DQUOTE] ++ (quoteBody (b f) ++ [DQUOTE])).
      rewrite normalize_app by done. by rewrite normalize_quoteBody.
    + change (DQUOTE :: quoteBody (b f) ++ [DQUOTE])
        with ((DQUOTE :: quoteBody (b f)) ++ [DQUOTE]).
      by rewrite last_snoc.
  - by apply stable_plain, fieldNeedsQuotes_false.
Qed.

Lemma stable_writeFields (n : nat) (record : list string) :
  Forall safe record -> stable (writeFields n record).
Proof.
  intros Hr. revert n. induction Hr as [|f record Hf _ IH]; intros n; [done|].
  simpl. apply stable_app; [|apply stable_app; [by apply stable_writeField|apply IH]].
  destruct n; [done|by apply stable_single].
Qed.

Lemma stable_WriteAll (rs : list (list string)) :
  Forall (Forall safe) rs -> stable (WriteAll rs).
Proof.
  induction 1 as [|r rs Hr _ IH]; [done|].
  unfold WriteAll. simpl. apply stable_app; [|exact IH].
  apply stable_app; [by apply stable_writeFields|by apply stable_single].
Qed.

(** *** The reader on what the writer wrote *)

Lemma readRecords_plain (s more : bytes) fld rec recs fpr :
  Forall (fun c => isSpecial c = false) s ->
  readRecords Unquoted (Reader fld rec recs fpr) (s ++ more)
  = readRecords Unquoted (Reader (rev s ++ fld) rec recs fpr) more.
Proof.
  intros Hs. revert fld. induction Hs as [|c s Hc _ IH]; intros fld; [done|].
  assert (c ≠ COMMA ∧ c ≠ LF ∧ c ≠ DQUOTE) as (?&?&?).
  { repeat split; intros ->; by vm_compute in Hc. }
  simpl. unfold stepUnquoted. rewrite !decide_False by done.
  unfold push. simpl. rewrite IH. by rewrite <- app_assoc.
Qed.

Lemma readRecords_quoted (s more : bytes) fld rec recs fpr :
  readRecords Quoted (Reader fld rec recs fpr) (quoteBody s ++ DQUOTE :: more)
  = readRecords QuoteInQuoted (Reader (rev s ++ fld) rec recs fpr) more.
Proof.
  revert fld. induction s as [|c s IH]; intros fld; [done|].
  simpl. destruct (decide (c = DQUOTE)) as [->|].
  - simpl. unfold push. simpl. rewrite IH. by rewrite <- app_assoc.
  - simpl. rewrite decide_False by done. unfold push. simpl.
    rewrite IH. by rewrite <- app_assoc.
Qed.

(** A field and the character that ends it. *)
Lemma readRecords_field (f : string) (c : ascii) (more : bytes) rec recs fpr :
  ends c ->
  readRecords FieldStart (Reader [] rec recs fpr) (writeField f ++ c :: more)
  = match stepUnquoted (Reader (rev (b f)) rec recs fpr) c with
    | Some (p', r') => readRecords p' r' more
    | None => None
    end.
Proof.
  intros Hc.
  assert (c ≠ DQUOTE) as Hq by (destruct Hc as [-> | ->]; done).
  unfold writeField. destruct (fieldNeedsQuotes f) eqn:E.
  - change ((DQUOTE :: quoteBody (b f) ++ [DQUOTE]) ++ c :: more)
      with (DQUOTE :: ((quoteBody (b f) ++ [DQUOTE]) ++ c :: more)).
    rewrite <- app_assoc. simpl.
    rewrite readRecords_quoted. rewrite app_nil_r. simpl.
    rewrite (decide_False (P := c = DQUOTE)) by done.
    unfold stepUnquoted.
    destruct Hc as [-> | ->]; simpl; [done|]. by destruct (endRecord _).
  - apply fieldNeedsQuotes_false in E.
    destruct (b f) as [|c0 s] eqn:Ef.
    + simpl. unfold stepFieldStart. by rewrite decide_False by done.
    + apply Forall_cons in E as [Hc0 Hs].
      assert (c0 ≠ COMMA ∧ c0 ≠ LF ∧ c0 ≠ DQUOTE) as (?&?&?).
      { repeat split; intros ->; by vm_compute in Hc0. }
      simpl. unfold stepFieldStart, stepUnquoted at 1.
      rewrite !decide_False by done. unfold push. simpl.
      by rewrite readRecords_plain by done.
Qed.

(** The fields after the first one, and the newline. *)
Lemma readRecords_fields (f : string) (rest : list string) (n : nat)
    (more : bytes) rec recs fpr :
  readRecords FieldStart (Reader [] rec recs fpr)
    (writeField f ++ writeFields (S n) rest ++ LF :: more)
  = match endRecord (Reader [] (rev rest ++ f :: rec) recs fpr) with
    | Some r' => readRecords RecordStart r' more
    | None => None
    end.
Proof.
  revert f rec n. induction rest as [|g rest IH]; intros f rec n.
  - simpl. rewrite readRecords_field by (by right).
    unfold stepUnquoted. rewrite decide_False by done. rewrite decide_True by done.
    unfold endField. simpl. rewrite rev_involutive, str_b.
    by destruct (endRecord _).
  - simpl. rewrite <- !app_assoc. simpl.
    rewrite readRecords_field by (by left).
    unfold stepUnquoted. rewrite decide_True by done.
    unfold endField. simpl. rewrite rev_involutive, str_b.
    by rewrite IH.
Qed.

(** A record of at least two fields. *)
Lemma readRecords_record (record : list string) (more : bytes) recs fpr :
  2 <= length record ->
  readRecords RecordStart (Reader [] [] recs fpr) (Write record ++ more)
  = match endRecord (Reader [] (rev record) recs fpr) with
    | Some r' => readRecords RecordStart r' more
    | None => None
    end.
Proof.
  intros Hlen. destruct record as [|f [|g rest]]; simpl in Hlen; [lia..|].
  unfold Write.
  assert (forall s, readRecords RecordStart (Reader [] [] recs fpr)
                      (writeField f ++ COMMA :: s)
                    = readRecords FieldStart (Reader [] [] recs fpr)
                      (writeField f ++ COMMA :: s)) as Hstart.
  { intros s. destruct (writeField f ++ COMMA :: s) as [|c t] eqn:E;
      [by destruct (writeField f)|].
    simpl. destruct (decide (c = LF)) as [->|]; [|done].
    exfalso. unfold writeField in E. destruct (fieldNeedsQuotes f) eqn:En.
    - by simplify_eq/=.
    - apply fieldNeedsQuotes_false in En.
      destruct (b f); simplify_eq/=. apply Forall_cons in En as [En _].
      by vm_compute in En. }
  cbn [writeFields]. rewrite app_nil_l. rewrite <- !app_assoc.
  cbn [app]. rewrite Hstart.
  pose proof (readRecords_fields f (g :: rest) 0 more [] recs fpr) as R.
  cbn [writeFields] in R. rewrite <- !app_assoc in R. cbn [app] in R.
  by rewrite R.
Qed.

Lemma readRecords_WriteAll (n : nat) (rs : list (list string)) recs fpr :
  2 <= n -> Forall (fun r => length r = n) rs ->
  (fpr = None ∧ recs = [] ∨ fpr = Some n) ->
  readRecords RecordStart (Reader [] [] recs fpr) (WriteAll rs)
  = Some (rev recs ++ rs).
Proof.
  intros Hn Hrs. revert recs fpr. induction Hrs as [|r rs Hr _ IH]; intros recs fpr Hf.
  - simpl. by rewrite app_nil_r.
  - unfold WriteAll. simpl. fold (WriteAll rs).
    rewrite readRecords_record by lia.
    unfold endRecord. simpl. rewrite rev_involutive.
    destruct Hf as [[-> ->] | ->].
    + rewrite Hr. rewrite IH by (by right). done.
    + rewrite decide_True by done. rewrite IH by (by right).
      simpl. by rewrite <- app_assoc.
Qed.

(** What [Writer.Write] wrote, [Reader.ReadAll] reads back: records of the
    same length, two fields at least, no field with a CR before a LF. *)
Lemma ReadAll_WriteAll (n : nat) (rs : list (list string)) :
  2 <= n -> Forall (fun r => length r = n) rs -> Forall (Forall safe) rs ->
  ReadAll (WriteAll rs) = Some rs.
Proof.
  intros Hn Hlen Hsafe. unfold ReadAll.
  destruct (stable_WriteAll rs Hsafe) as [-> _].
  unfold newReader. rewrite (readRecords_WriteAll n) by auto. done.
Qed.

End csv_facts.

(** ** The monad *)

Lemma bind_Ok {A B} (m : M A) (k : A -> M B) w a w' :
  m w = (Ok a, w') -> bind m k w = k a w'.
Proof. unfold bind. by intros ->. Qed.

Lemma bind_Err {A B} (m : M A) (k : A -> M B) w e w' :
  m w = (Err e, w') -> bind m k w = (Err e, w').
Proof. unfold bind. by intros ->. Qed.

Lemma bind_Panic {A B} (m : M A) (k : A -> M B) w msg w' :
  m w = (Panic msg, w') -> bind m k w = (Panic msg, w').
Proof. unfold bind. by intros ->. Qed.

(** ** The Reconciler *)

Section reconciler.
Context (checksums1 checksums2 : gmap string string).

Lemma sortedFileNames_Permutation :
  sortedFileNames checksums1 checksums2
  ≡ₚ elements (fileNames checksums1 checksums2).
Proof. apply merge_sort_Permutation. Qed.

Lemma elem_of_sortedFileNames (name : string) :
  name ∈ sortedFileNames checksums1 checksums2
  ↔ is_Some (checksums1 !! name) ∨ is_Some (checksums2 !! name).
Proof.
  rewrite sortedFileNames_Permutation, elem_of_elements.
  unfold fileNames. by rewrite elem_of_union, !elem_of_dom.
Qed.

Lemma NoDup_sortedFileNames : NoDup (sortedFileNames checksums1 checksums2).
Proof. rewrite sortedFileNames_Permutation. apply NoDup_elements. Qed.

Lemma sortedFileNames_sorted :
  StronglySorted String.le (sortedFileNames checksums1 checksums2).
Proof. apply StronglySorted_merge_sort; apply _. Qed.

Lemma sorted_strict (l : list string) :
  StronglySorted String.le l -> NoDup l -> StronglySorted (strict String.le) l.
Proof.
  induction 1 as [|x l _ IH Hx]; intros Hnd; [constructor|].
  apply NoDup_cons in Hnd as [Hx' Hnd]. constructor; [by apply IH|].
  apply Forall_forall. intros y Hy. split.
  - by eapply Forall_forall in Hx.
  - intros Hyx. eapply Forall_forall in Hx; [|done].
    assert (x = y) as -> by (by apply (anti_symm String.le)). done.
Qed.

(** Go ranges over a map in an order that is not specified: the sorted
    names do not depend on it. *)
Lemma sortedFileNames_any_order (l : list string) :
  l ≡ₚ elements (fileNames checksums1 checksums2) ->
  sort_Strings l = sortedFileNames checksums1 checksums2.
Proof.
  intros Hl. apply (StronglySorted_unique String.le).
  - apply StronglySorted_merge_sort; apply _.
  - apply sortedFileNames_sorted.
  - unfold sort_Strings. by rewrite merge_sort_Permutation, Hl, sortedFileNames_Permutation.
Qed.

Lemma dataRows_filter :
  dataRows checksums1 checksums2
  = (fun name => [name; index checksums1 name; index checksums2 name]) <$>
      filter (fun name => index checksums1 name ≠ index checksums2 name)
             (sortedFileNames checksums1 checksums2).
Proof.
  unfold dataRows. induction (sortedFileNames checksums1 checksums2) as [|n l IH];
    [done|].
  rewrite filter_cons. cbn [omap list_omap]. unfold dataRow at 1.
  destruct (decide (index checksums1 n ≠ index checksums2 n)); cbn [fmap list_fmap];
    by rewrite <- IH.
Qed.

Lemma elem_of_dataRows (row : list string) :
  row ∈ dataRows checksums1 checksums2
  ↔ ∃ name, (is_Some (checksums1 !! name) ∨ is_Some (checksums2 !! name))
            ∧ index checksums1 name ≠ index checksums2 name
            ∧ row = [name; index checksums1 name; index checksums2 name].
Proof.
  rewrite dataRows_filter, list_elem_of_fmap. split.
  - intros (name & -> & [Hne Hin]%list_elem_of_filter).
    exists name. by rewrite <- elem_of_sortedFileNames.
  - intros (name & Hin & Hne & ->). exists name. split; [done|].
    apply list_elem_of_filter. by rewrite elem_of_sortedFileNames.
Qed.

End reconciler.

Lemma generateCombinedCSV_Ok checksums1 checksums2 dir1 dir2 outputDir w w' :
  generateCombinedCSV checksums1 checksums2 dir1 dir2 outputDir w = (Ok tt, w') ->
  ∃ r, fs w' !! filepath_Join outputDir "diff.csv"
       = Some (File r (csv.WriteAll (headerRow dir1 dir2
                                       :: dataRows checksums1 checksums2))).
Proof.
  unfold generateCombinedCSV, os_Create, openForWriting, file_Write, bind, get_fs,
    modify_fs, ret, fail.
  set (p := filepath_Join outputDir "diff.csv").
  destruct (fs w !! p) as [[[] data|]|] eqn:E; simpl; rewrite ?E; simpl.
  - rewrite lookup_insert_eq. simpl. intros [= <-]. simpl.
    rewrite lookup_insert_eq. eauto.
  - done.
  - done.
  - destruct (decide (p = "")); [done|].
    destruct (parentError (fs w) p); [done|]. simpl.
    rewrite lookup_insert_eq. simpl. intros [= <-]. simpl.
    rewrite lookup_insert_eq. eauto.
Qed.

(** C1 (as amended): the data rows of [diff.csv] are one row per name of
    the union of the two stores whose digests differ, a name that a store
    does not hold counting with the empty digest; the names are in strictly
    ascending byte-wise order, whatever order Go ranges over the maps in; no
    row has two equal digests; and a name that only one store holds has a
    row whenever its digest is not the empty string. *)
Theorem dataRows_reconciliation (checksums1 checksums2 : gmap string string) :
  (forall name, name ∈ sortedFileNames checksums1 checksums2
     ↔ is_Some (checksums1 !! name) ∨ is_Some (checksums2 !! name)) ∧
  StronglySorted (strict String.le) (sortedFileNames checksums1 checksums2) ∧
  (forall l, l ≡ₚ elements (fileNames checksums1 checksums2) ->
     sort_Strings l = sortedFileNames checksums1 checksums2) ∧
  dataRows checksums1 checksums2
  = (fun name => [name; index checksums1 name; index checksums2 name]) <$>
      filter (fun name => index checksums1 name ≠ index checksums2 name)
             (sortedFileNames checksums1 checksums2) ∧
  (forall name d1 d2, [name; d1; d2] ∈ dataRows checksums1 checksums2 -> d1 ≠ d2) ∧
  (forall name d, d ≠ "" ->
     (checksums1 !! name = Some d -> checksums2 !! name = None ->
      [name; d; ""] ∈ dataRows checksums1 checksums2) ∧
     (checksums1 !! name = None -> checksums2 !! name = Some d ->
      [name; ""; d] ∈ dataRows checksums1 checksums2)) ∧
  (forall dir1 dir2 outputDir w w',
     generateCombinedCSV checksums1 checksums2 dir1 dir2 outputDir w = (Ok tt, w') ->
     ∃ r, fs w' !! filepath_Join outputDir "diff.csv"
          = Some (File r (csv.WriteAll (headerRow dir1 dir2
                                          :: dataRows checksums1 checksums2)))).
Proof.
  split_and!.
  - apply elem_of_sortedFileNames.
  - apply sorted_strict; [apply sortedFileNames_sorted|apply NoDup_sortedFileNames].
  - apply sortedFileNames_any_order.
  - apply dataRows_filter.
  - intros name d1 d2 (name' & _ & Hne & [= -> -> ->])%elem_of_dataRows. done.
  - intros name d Hd. split; intros H1 H2; apply elem_of_dataRows; exists name;
      unfold index; rewrite H1, H2; simpl; eauto.
  - apply generateCombinedCSV_Ok.
Qed.

(** C1 as stated fails: a name that only one store holds, with the empty
    string as its digest (a cached row [a,]), has no row. *)
Lemma dataRows_empty_digest_not_emitted :
  ¬ (forall (checksums1 checksums2 : gmap string string) (name : string),
       is_Some (checksums1 !! name) -> checksums2 !! name = None ->
       ∃ d1 d2, [name; d1; d2] ∈ dataRows checksums1 checksums2).
Proof.
  intros H. destruct (H {["a" := ""]} ∅ "a") as (d1 & d2 & Hin).
  - by rewrite lookup_singleton_eq.
  - done.
  - vm_compute in Hin. by apply elem_of_nil in Hin.
Qed.

(** ** The system calls *)

Lemma try_Ok {A} (m : M A) w a w' : m w = (Ok a, w') -> try m w = (Ok None, w').
Proof. unfold try. by intros ->. Qed.

Lemma try_Err {A} (m : M A) w e w' :
  m w = (Err e, w') -> try m w = (Ok (Some e), w').
Proof. unfold try. by intros ->. Qed.

Lemma attempt_Ok {A} (m : M A) w a w' :
  m w = (Ok a, w') -> attempt m w = (Ok (inr a), w').
Proof. unfold attempt. by intros ->. Qed.

Lemma attempt_Err {A} (m : M A) w e w' :
  m w = (Err e, w') -> attempt m w = (Ok (inl e), w').
Proof. unfold attempt. by intros ->. Qed.

Lemma attempt_Panic {A} (m : M A) w msg w' :
  m w = (Panic msg, w') -> attempt m w = (Panic msg, w').
Proof. unfold attempt. by intros ->. Qed.

Lemma os_Stat_Some w name n :
  fs w !! name = Some n ->
  os_Stat name w = (Ok (fileInfo (filepath_Base name) n), w).
Proof. unfold os_Stat, bind, get_fs, stat. by intros ->. Qed.

Lemma os_Stat_None w name :
  fs w !! name = None ->
  os_Stat name w = (Err (PathError "stat" name (absentErrno (fs w) name)), w).
Proof. unfold os_Stat, bind, get_fs, stat. by intros ->. Qed.

Lemma os_Open_File w name data :
  fs w !! name = Some (File true data) -> os_Open name w = (Ok name, w).
Proof. unfold os_Open, bind, get_fs. by intros ->. Qed.

Lemma os_Open_None w name :
  fs w !! name = None ->
  os_Open name w = (Err (PathError "open" name (absentErrno (fs w) name)), w).
Proof. unfold os_Open, bind, get_fs. by intros ->. Qed.

Lemma readAll_File w name r data :
  fs w !! name = Some (File r data) -> readAll name w = (Ok data, w).
Proof. unfold readAll, bind, get_fs. by intros ->. Qed.

Lemma openForWriting_new w truncate name :
  fs w !! name = None -> name ≠ "" -> parentError (fs w) name = None ->
  openForWriting truncate name w = (Ok name, set_fs <[name := File true []]> w).
Proof.
  unfold openForWriting, bind, get_fs. intros -> Hn ->.
  by rewrite decide_False by done.
Qed.

Lemma openForWriting_truncate w name r data :
  fs w !! name = Some (File r data) ->
  openForWriting true name w = (Ok name, set_fs <[name := File r []]> w).
Proof. unfold openForWriting, bind, get_fs. by intros ->. Qed.

Lemma openForWriting_append w name r data :
  fs w !! name = Some (File r data) -> openForWriting false name w = (Ok name, w).
Proof. unfold openForWriting, bind, get_fs. by intros ->. Qed.

Lemma openForWriting_Dir w truncate name :
  fs w !! name = Some Dir ->
  openForWriting truncate name w = (Err (PathError "open" name EISDIR), w).
Proof. unfold openForWriting, bind, get_fs. by intros ->. Qed.

Lemma os_Create_new w name :
  fs w !! name = None -> name ≠ "" -> parentError (fs w) name = None ->
  os_Create name w = (Ok name, set_fs <[name := File true []]> w).
Proof.
  intros Hf Hn Hp. unfold os_Create, bind at 1, get_fs. rewrite Hf.
  by apply openForWriting_new.
Qed.

Lemma os_Create_truncate w name data :
  fs w !! name = Some (File true data) ->
  os_Create name w = (Ok name, set_fs <[name := File true []]> w).
Proof.
  intros Hf. unfold os_Create, bind at 1, get_fs. rewrite Hf.
  by eapply openForWriting_truncate.
Qed.

Lemma os_Create_Dir w name :
  fs w !! name = Some Dir ->
  os_Create name w = (Err (PathError "open" name EISDIR), w).
Proof.
  intros Hf. unfold os_Create, bind at 1, get_fs. rewrite Hf.
  by apply openForWriting_Dir.
Qed.

Lemma os_Create_unreadable w name data :
  fs w !! name = Some (File false data) ->
  os_Create name w = (Err (PathError "open" name EACCES), w).
Proof. intros Hf. unfold os_Create, bind, get_fs. by rewrite Hf. Qed.

Lemma file_Write_File w name r old data :
  fs w !! name = Some (File r old) ->
  file_Write name data w = (Ok tt, set_fs <[name := File r (old ++ data)]> w).
Proof. unfold file_Write, bind, get_fs. by intros ->. Qed.

Lemma set_fs_set_fs f g w : set_fs f (set_fs g w) = set_fs (f ∘ g) w.
Proof. done. Qed.

Lemma os_WriteFile_new w name data :
  fs w !! name = None -> name ≠ "" -> parentError (fs w) name = None ->
  os_WriteFile name data w = (Ok tt, set_fs <[name := File true data]> w).
Proof.
  intros. unfold os_WriteFile.
  erewrite bind_Ok by by apply openForWriting_new.
  erewrite file_Write_File by (simpl; apply lookup_insert_eq).
  destruct w. unfold set_fs. simpl. by rewrite insert_insert_eq.
Qed.

Lemma os_WriteFile_Dir w name data :
  fs w !! name = Some Dir ->
  os_WriteFile name data w = (Err (PathError "open" name EISDIR), w).
Proof.
  intros. unfold os_WriteFile. by erewrite bind_Err by by apply openForWriting_Dir.
Qed.

Lemma os_Remove_File w name r data :
  fs w !! name = Some (File r data) ->
  os_Remove name w = (Ok tt, set_fs (delete name) w).
Proof. unfold os_Remove, bind, get_fs. by intros ->. Qed.

Lemma os_Remove_None w name :
  fs w !! name = None ->
  os_Remove name w = (Err (PathError "remove" name (absentErrno (fs w) name)), w).
Proof. unfold os_Remove, bind, get_fs. by intros ->. Qed.

(** [os.Remove] either fails and changes nothing, or removes the path. *)
Lemma os_Remove_cases w name :
  (∃ e, os_Remove name w = (Err e, w)) ∨
  (is_Some (fs w !! name) ∧ os_Remove name w = (Ok tt, set_fs (delete name) w)).
Proof.
  unfold os_Remove, bind, get_fs. destruct (fs w !! name) as [[r d|]|] eqn:E.
  - right. eauto.
  - destruct (existsb _ _); [left|right]; eauto.
  - left. eauto.
Qed.

Lemma os_CreateTemp_fresh w pfx sfx :
  fs w !! tempName w pfx sfx 0 = None ->
  parentError (fs w) (tempName w pfx sfx 0) = None ->
  os_CreateTemp pfx sfx w
  = (Ok (tempName w pfx sfx 0),
     World (<[tempName w pfx sfx 0 := File true []]> (fs w)) (stdout w)
           (TempDir w) (random w) (S (nrandom w)) (debug w)).
Proof.
  unfold os_CreateTemp, tempName. rewrite Nat.add_0_r. intros Hf Hp.
  destruct retries; simpl; by rewrite Hf, Hp.
Qed.

Global Opaque os_CreateTemp.

Lemma Printf_run w s :
  Printf s w = (Ok tt, World (fs w) (stdout w ++ [s]) (TempDir w) (random w)
                             (nrandom w) (debug w)).
Proof. done. Qed.

(** A file that is not a directory is never the directory of a path. *)
Lemma parentError_insert f name t n :
  parentError f name = None -> f !! t ≠ Some Dir ->
  parentError (<[t := n]> f) name = None.
Proof.
  unfold parentError. destruct (splitLast (b name)) as [[[|c d] base]|]; [done| |done].
  destruct (f !! str (c :: d)) as [[]|] eqn:E; [done| |done].
  intros _ Ht. rewrite lookup_insert_ne; [by rewrite E|]. intros ->. by rewrite E in Ht.
Qed.

Lemma parentError_delete f name t :
  parentError f name = None -> f !! t ≠ Some Dir ->
  parentError (delete t f) name = None.
Proof.
  unfold parentError. destruct (splitLast (b name)) as [[[|c d] base]|]; [done| |done].
  destruct (f !! str (c :: d)) as [[]|] eqn:E; [done| |done].
  intros _ Ht. rewrite lookup_delete_ne; [by rewrite E|]. intros ->. by rewrite E in Ht.
Qed.

(** Temporary files of the two patterns never share a name. *)
Lemma tempName_differ w j k :
  tempName w "file1-" ".tmp" j ≠ tempName w "file2-" ".tmp" k.
Proof.
  unfold tempName. intros E. apply (inj (String.append _)) in E.
  set (x := random w (nrandom w + j) +:+ ".tmp") in *.
  set (y := random w (nrandom w + k) +:+ ".tmp") in *.
  change ("/" +:+ "file1-" +:+ x) with (String "/" (String "f" (String "i" (String "l" (String "e" (String "1" (String "-" x))))))) in E.
  change ("/" +:+ "file2-" +:+ y) with (String "/" (String "f" (String "i" (String "l" (String "e" (String "2" (String "-" y))))))) in E.
  discriminate E.
Qed.

(** ** The Diff Engine *)

Section diff_engine.
Context `{Externals}.

Lemma readChunks_all (n : nat) (unread content : bytes) :
  0 < n -> readChunks n unread content = content ++ unread.
Proof.
  intros Hn. funelim (readChunks n unread content).
  - destruct size; [lia|]. destruct unread; [|done]. by rewrite app_nil_r.
  - rewrite H0 by done. rewrite <- app_assoc.
    match goal with E : take _ _ = _ |- _ => rewrite <- E end.
    by rewrite take_drop.
Qed.

Lemma bufSize_pos : 0 < bufSize.
Proof. unfold bufSize. lia. Qed.

(** [readFileInChunks] returns the whole content of a readable file. *)
Lemma readFileInChunks_File w name data :
  fs w !! name = Some (File true data) ->
  readFileInChunks name w = (Ok data, w).
Proof.
  intros Hf. unfold readFileInChunks.
  erewrite bind_Ok by by eapply os_Open_File.
  unfold bind, get_fs. simpl. rewrite Hf. unfold ret.
  by rewrite readChunks_all by apply bufSize_pos.
Qed.

Lemma readLastLines_File w name data n :
  fs w !! name = Some (File true data) ->
  readLastLines name n w
  = (match cmd_err (tail n data) with
     | Some msg => Err (ExecError "tail" msg)
     | None => Ok (cmd_out (tail n data))
     end, w).
Proof.
  intros Hf. unfold readLastLines, exec_tail, bind, get_fs. simpl. rewrite Hf.
  unfold ret. by destruct (cmd_err _).
Qed.

Lemma when_debug_Printf w s :
  when (debug w) (Printf s) w = (Ok tt, printed (dbgLine w s) w).
Proof.
  unfold dbgLine, printed, when. destruct w as [f o t r n []]; simpl; [done|].
  unfold ret. by rewrite app_nil_r.
Qed.

Lemma final_fs (f : fsys) (tmp1 tmp2 diffFile : string) (n1 n1' n2 n2' n : node) :
  f !! tmp1 = None -> f !! tmp2 = None ->
  diffFile ≠ tmp1 -> diffFile ≠ tmp2 ->
  delete tmp1 (delete tmp2 (<[diffFile := n]>
    (<[tmp2 := n2']> (<[tmp1 := n1']> (<[tmp2 := n2]> (<[tmp1 := n1]> f))))))
  = <[diffFile := n]> f.
Proof.
  intros H1 H2 Hd1 Hd2. apply map_eq. intros k.
  destruct (decide (k = tmp1)) as [->|]; [by rewrite lookup_delete_eq, lookup_insert_ne|].
  rewrite lookup_delete_ne by done.
  destruct (decide (k = tmp2)) as [->|]; [by rewrite lookup_delete_eq, lookup_insert_ne|].
  rewrite lookup_delete_ne by done.
  destruct (decide (k = diffFile)) as [->|]; [by rewrite !lookup_insert_eq|].
  by rewrite !lookup_insert_ne by done.
Qed.

Lemma final_fs_failed (f : fsys) (tmp1 tmp2 : string) (n1 n1' n2 n2' : node) :
  f !! tmp1 = None -> f !! tmp2 = None ->
  delete tmp1 (delete tmp2
    (<[tmp2 := n2']> (<[tmp1 := n1']> (<[tmp2 := n2]> (<[tmp1 := n1]> f)))))
  = f.
Proof.
  intros H1 H2. apply map_eq. intros k.
  destruct (decide (k = tmp1)) as [->|]; [by rewrite lookup_delete_eq|].
  rewrite lookup_delete_ne by done.
  destruct (decide (k = tmp2)) as [->|]; [by rewrite lookup_delete_eq|].
  rewrite lookup_delete_ne by done.
  by rewrite !lookup_insert_ne by done.
Qed.

Lemma defer_Remove {A} (body : M A) (t : string) w res w' r d :
  body w = (res, w') -> fs w' !! t = Some (File r d) ->
  defer (os_Remove t) body w = (res, set_fs (delete t) w').
Proof.
  intros Hb Ht. unfold defer. rewrite Hb. by erewrite os_Remove_File.
Qed.

Lemma diffAndWrite_run w file1 file2 diffFile info1 info2 tmp1 tmp2
    content1 content2 :
  fs w !! tmp1 = Some (File true []) -> fs w !! tmp2 = Some (File true []) ->
  tmp1 ≠ tmp2 -> diffFile ≠ tmp1 -> diffFile ≠ tmp2 -> diffFile ≠ "" ->
  fs w !! diffFile = None -> parentError (fs w) diffFile = None ->
  let r := diff tmp1 content1 tmp2 content2 in
  let f' := <[tmp2 := File true content2]> (<[tmp1 := File true content1]> (fs w)) in
  diffAndWrite file1 file2 diffFile info1 info2 tmp1 tmp2 content1 content2 w
  = match failedDiff r with
    | Some msg =>
        (Err (ExecError "diff" msg),
         World f' (stdout w) (TempDir w) (random w) (nrandom w) (debug w))
    | None =>
        (Ok tt,
         World (<[diffFile := File true (cmd_out r)]> f')
               (stdout w ++ generatedLine file1 file2 info1 info2
                  :: (if debug w then [rule] else []))
               (TempDir w) (random w) (nrandom w) (debug w))
    end.
Proof.
  intros E1 E2 Hdiff Hd1 Hd2 Hne Hdf Hpd r f'.
  unfold diffAndWrite.
  erewrite bind_Ok by (eapply file_Write_File; apply E1).
  erewrite bind_Ok; cycle 1.
  { eapply file_Write_File. simpl. rewrite lookup_insert_ne by done. apply E2. }
  unfold set_fs. simpl. fold f'.
  assert (f' !! tmp1 = Some (File true content1)) as F1.
  { unfold f'. rewrite lookup_insert_ne by done. apply lookup_insert_eq. }
  assert (f' !! tmp2 = Some (File true content2)) as F2.
  { unfold f'. apply lookup_insert_eq. }
  assert (f' !! diffFile = None) as Fd.
  { unfold f'. by rewrite !lookup_insert_ne by done. }
  assert (parentError f' diffFile = None) as Fpd.
  { unfold f'. apply parentError_insert.
    2:{ rewrite lookup_insert_ne by done. by rewrite E2. }
    apply parentError_insert; [done|by rewrite E1]. }
  unfold bind at 1. unfold exec_diff at 1. unfold bind at 1, get_fs at 1.
  cbn [fs]. rewrite F1, F2. unfold ret at 1. fold r. unfold failedDiff.
  assert (forall k : unit -> M unit,
    bind (os_WriteFile diffFile (cmd_out r)) k
      (World f' (stdout w) (TempDir w) (random w) (nrandom w) (debug w))
    = k tt (World (<[diffFile := File true (cmd_out r)]> f') (stdout w)
                  (TempDir w) (random w) (nrandom w) (debug w))) as Hw.
  { intros k. erewrite bind_Ok; [done|]. by apply os_WriteFile_new. }
  assert (forall f o,
    bind (Printf (generatedLine file1 file2 info1 info2))
      (fun _ => bind get_debug (fun dbg => when dbg (Printf rule)))
      (World f o (TempDir w) (random w) (nrandom w) (debug w))
    = (Ok tt, World f (o ++ generatedLine file1 file2 info1 info2
                         :: (if debug w then [rule] else []))
                    (TempDir w) (random w) (nrandom w) (debug w))) as Hp.
  { intros f o. unfold bind, Printf, get_debug, when. simpl.
    destruct (debug w); simpl; unfold ret; by rewrite <- ?app_assoc. }
  destruct (cmd_err r) as [msg|] eqn:Eerr; [destruct (cmd_out r) as [|c out] eqn:Eout|].
  - by unfold bind, fail.
  - destruct (decide _) as [|_]; [done|].
    rewrite Hw. apply Hp.
  - rewrite Hw. apply Hp.
Qed.

(** The run of [generateDiff] from [os.CreateTemp] on, when nothing is in
    the way: the two blocks reach [diff] under the two temporary names;
    its error with no output is returned; any other output is the
    artifact; the temporary files are gone afterwards. *)
Lemma diffContents_run w file1 file2 diffFile info1 info2 content1 content2 :
  roomFor w diffFile -> fs w !! diffFile = None ->
  let r := diff (tempName w "file1-" ".tmp" 0) content1
                (tempName w "file2-" ".tmp" 1) content2 in
  diffContents file1 file2 diffFile info1 info2 content1 content2 w
  = match failedDiff r with
    | Some msg =>
        (Err (ExecError "diff" msg),
         World (fs w) (stdout w) (TempDir w) (random w) (S (S (nrandom w))) (debug w))
    | None =>
        (Ok tt,
         World (<[diffFile := File true (cmd_out r)]> (fs w))
               (stdout w ++ generatedLine file1 file2 info1 info2
                  :: (if debug w then [rule] else []))
               (TempDir w) (random w) (S (S (nrandom w))) (debug w))
    end.
Proof.
  intros (Ht1 & Hp1 & Ht2 & Hp2 & Hd1 & Hd2 & Hne & Hpd) Hdf r.
  pose proof (tempName_differ w 0 1) as Hdiff.
  set (tmp1 := tempName w "file1-" ".tmp" 0) in *.
  set (tmp2 := tempName w "file2-" ".tmp" 1) in *.
  unfold diffContents.
  erewrite bind_Ok by by apply os_CreateTemp_fresh.
  fold tmp1.
  set (w1 := World (<[tmp1 := File true []]> (fs w)) (stdout w) (TempDir w)
                   (random w) (S (nrandom w)) (debug w)).
  assert (tempName w1 "file2-" ".tmp" 0 = tmp2) as Hn2.
  { unfold tmp2, tempName, w1. simpl. do 5 f_equal. lia. }
  set (w2 := World (<[tmp2 := File true []]> (<[tmp1 := File true []]> (fs w)))
                   (stdout w) (TempDir w) (random w) (S (S (nrandom w))) (debug w)).
  assert (os_CreateTemp "file2-" ".tmp" w1 = (Ok tmp2, w2)) as Hc2.
  { rewrite <- Hn2. unfold w2. rewrite <- Hn2.
    apply os_CreateTemp_fresh; rewrite Hn2; simpl.
    - by rewrite lookup_insert_ne.
    - apply parentError_insert; [done|]. by rewrite Ht1. }
  pose proof (diffAndWrite_run w2 file1 file2 diffFile info1 info2 tmp1 tmp2
                content1 content2) as Hrun.
  simpl in Hrun. fold r in Hrun.
  assert (fs w !! tmp1 ≠ Some Dir) as Hnd1 by (by rewrite Ht1).
  assert (<[tmp1:=File true []]> (fs w) !! tmp2 ≠ Some Dir) as Hnd2
    by (by rewrite lookup_insert_ne, Ht2).
  specialize (Hrun ltac:(by rewrite lookup_insert_ne, lookup_insert_eq)
                   ltac:(by rewrite lookup_insert_eq) Hdiff Hd1 Hd2 Hne
                   ltac:(by rewrite !lookup_insert_ne)
                   ltac:(by apply parentError_insert; [apply parentError_insert|])).
  destruct (failedDiff r) as [msg|] eqn:Ef.
  - erewrite defer_Remove; cycle 1.
    { erewrite bind_Ok by apply Hc2. eapply defer_Remove; [apply Hrun|].
      simpl. apply lookup_insert_eq. }
    { simpl. rewrite lookup_delete_ne, lookup_insert_ne by done.
      apply lookup_insert_eq. }
    unfold set_fs. simpl. f_equal. f_equal. by apply final_fs_failed.
  - erewrite defer_Remove; cycle 1.
    { erewrite bind_Ok by apply Hc2. eapply defer_Remove; [apply Hrun|].
      simpl. rewrite lookup_insert_ne by done. apply lookup_insert_eq. }
    { simpl. rewrite lookup_delete_ne, !lookup_insert_ne by done.
      apply lookup_insert_eq. }
    unfold set_fs. simpl. f_equal. f_equal. by apply final_fs.
Qed.

Lemma sameProcess_printed w lines : sameProcess w (printed lines w).
Proof. done. Qed.

Lemma roomFor_after_removal w w1 diffFile :
  roomFor w diffFile -> sameProcess w w1 -> fs w !! diffFile ≠ Some Dir ->
  fs w1 = delete diffFile (fs w) ->
  roomFor w1 diffFile ∧ fs w1 !! diffFile = None.
Proof.
  intros (Ht1 & Hp1 & Ht2 & Hp2 & Hd1 & Hd2 & Hne & Hpd) (ET & ER & EN & ED) Hnd Hfs.
  assert (forall p s k, tempName w1 p s k = tempName w p s k) as Hn.
  { intros. unfold tempName. by rewrite ET, ER, EN. }
  unfold roomFor. rewrite !Hn, Hfs. split_and!; try done.
  - by rewrite lookup_delete_ne.
  - by apply parentError_delete.
  - by rewrite lookup_delete_ne.
  - by apply parentError_delete.
  - by apply parentError_delete.
  - apply lookup_delete_eq.
Qed.

Lemma comparableContent_run w file1 file2 info1 info2 sizeLimit lineLimit
    data1 data2 :
  fs w !! file1 = Some (File true data1) ->
  fs w !! file2 = Some (File true data2) ->
  Size info1 = Z.of_nat (length data1) -> Size info2 = Z.of_nat (length data2) ->
  ∃ lines,
    comparableContent file1 file2 info1 info2 sizeLimit lineLimit w
    = (selected sizeLimit lineLimit data1 data2, printed lines w).
Proof.
  intros H1 H2 E1 E2. unfold comparableContent, selected.
  unfold bind at 1, get_debug at 1. rewrite E1, E2.
  destruct (_ || _)%bool.
  - erewrite bind_Ok by apply when_debug_Printf.
    eexists. unfold bind at 1. erewrite readLastLines_File by apply H1.
    destruct (cmd_err (tail lineLimit data1)) as [msg|]; [done|].
    unfold bind at 1. erewrite readLastLines_File by apply H2.
    destruct (cmd_err (tail lineLimit data2)) as [msg|]; done.
  - erewrite bind_Ok by apply when_debug_Printf.
    eexists. erewrite bind_Ok by (by apply readFileInChunks_File).
    erewrite bind_Ok by (by apply readFileInChunks_File). done.
Qed.

(** [generateDiff] up to [os.CreateTemp]: an artifact that is in the way is
    removed, and the selected blocks go on to [diffContents]. *)
Lemma generateDiff_blocks w file1 file2 diffFile sizeLimit lineLimit data1 data2 :
  fs w !! file1 = Some (File true data1) ->
  fs w !! file2 = Some (File true data2) ->
  diffFile ≠ file1 -> diffFile ≠ file2 -> fs w !! diffFile ≠ Some Dir ->
  ∃ w1, sameProcess w w1 ∧ fs w1 = delete diffFile (fs w) ∧
    generateDiff file1 file2 diffFile sizeLimit lineLimit w
    = match selected sizeLimit lineLimit data1 data2 with
      | Ok (content1, content2) =>
          diffContents file1 file2 diffFile
            (fileInfo (filepath_Base file1) (File true data1))
            (fileInfo (filepath_Base file2) (File true data2))
            content1 content2 w1
      | Err e => (Err e, w1)
      | Panic msg => (Panic msg, w1)
      end.
Proof.
  intros H1 H2 Hd1 Hd2 Hnd. unfold generateDiff.
  set (w0 := World (delete diffFile (fs w)) (stdout w) (TempDir w) (random w)
                   (nrandom w) (debug w)).
  assert (forall K : unit -> M unit,
          bind (try (os_Stat diffFile))
            (fun missing =>
               bind (match missing with
                     | None =>
                         bind (try (os_Remove diffFile))
                           (fun err => match err with
                                       | Some e => fail (Errorf "failed to remove existing diff file" e)
                                       | None => ret tt
                                       end)
                     | Some _ => ret tt
                     end) K) w = K tt w0) as Hpre.
  { intros K. destruct (fs w !! diffFile) as [[r d|]|] eqn:E; [|done|].
    - erewrite bind_Ok by (eapply try_Ok; by apply os_Stat_Some).
      cbv beta iota.
      erewrite bind_Ok; [done|].
      erewrite bind_Ok by (eapply try_Ok; by eapply os_Remove_File). done.
    - erewrite bind_Ok by (eapply try_Err; by apply os_Stat_None).
      cbv beta iota. unfold bind at 1, ret at 1. f_equal.
      unfold w0. rewrite delete_id by done. by destruct w. }
  rewrite Hpre.
  assert (fs w0 !! file1 = Some (File true data1)) as H1'
    by (simpl; by rewrite lookup_delete_ne).
  assert (fs w0 !! file2 = Some (File true data2)) as H2'
    by (simpl; by rewrite lookup_delete_ne).
  erewrite bind_Ok by (by apply os_Stat_Some).
  erewrite bind_Ok by (by apply os_Stat_Some).
  unfold bind at 1, get_debug at 1.
  set (i1 := fileInfo (filepath_Base file1) (File true data1)).
  set (i2 := fileInfo (filepath_Base file2) (File true data2)).
  assert (∃ lines, when (debug w0)
            (Printf ("// Size limit: " +:+ fmt_d sizeLimit +:+ nl);;
             Printf ("// File Size 1: " +:+ fmt_d (Size i1) +:+ nl);;
             Printf ("// File Size 2: " +:+ fmt_d (Size i2) +:+ nl)) w0
          = (Ok tt, printed lines w0)) as [lines Hdbg].
  { destruct (debug w0) eqn:Ed; simpl.
    - eexists [_; _; _]. unfold bind, Printf, printed. simpl.
      by rewrite <- !app_assoc.
    - exists []. unfold ret, printed. by rewrite app_nil_r; destruct w0. }
  erewrite bind_Ok by apply Hdbg.
  destruct (comparableContent_run (printed lines w0) file1 file2 i1 i2 sizeLimit
              lineLimit data1 data2) as [lines' Hcc]; [done..|].
  exists (printed lines' (printed lines w0)). split_and!; [done..|].
  unfold bind at 1. rewrite Hcc.
  by destruct (selected _ _ _ _) as [[c1 c2]| |].
Qed.

End diff_engine.

Section diff_claims.
Context `{Externals}.

Lemma wrap_small (z : Z) : (- 2 ^ 63 <= z < 2 ^ 63)%Z -> wrap z = z.
Proof. intros Hz. unfold wrap. rewrite Z.mod_small; lia. Qed.

Lemma sizeLimitInBytes_exact (sizeLimit : Z) :
  (- 2 ^ 43 <= sizeLimit < 2 ^ 43)%Z ->
  int_mul (int_mul sizeLimit 1024) 1024 = (sizeLimit * 1024 * 1024)%Z.
Proof.
  intros Hs. unfold int_mul. rewrite (wrap_small (sizeLimit * 1024)) by lia.
  apply wrap_small. lia.
Qed.

(** C2 (as amended): for a record whose two files exist, when
    [size * 1024 * 1024] fits Go's 64-bit [int], the blocks handed to the
    diff stage are the whole contents of both files when both sizes are at
    most that threshold, and the outputs of [tail -n lineLimit] on each file
    when one size is above it: with POSIX [tail], the last [lineLimit]
    lines. *)
Theorem generateDiff_strategy w file1 file2 diffFile sizeLimit lineLimit
    data1 data2 :
  (- 2 ^ 43 <= sizeLimit < 2 ^ 43)%Z ->
  fs w !! file1 = Some (File true data1) ->
  fs w !! file2 = Some (File true data2) ->
  diffFile ≠ file1 -> diffFile ≠ file2 -> fs w !! diffFile ≠ Some Dir ->
  let threshold := (sizeLimit * 1024 * 1024)%Z in
  let sizeLimitInBytes := int_mul (int_mul sizeLimit 1024) 1024 in
  let info1 := fileInfo (filepath_Base file1) (File true data1) in
  let info2 := fileInfo (filepath_Base file2) (File true data2) in
  let size1 := Z.of_nat (length data1) in
  let size2 := Z.of_nat (length data2) in
  ∃ w1, sameProcess w w1 ∧ fs w1 = delete diffFile (fs w) ∧
    ((size1 <= threshold)%Z ∧ (size2 <= threshold)%Z ->
       generateDiff file1 file2 diffFile sizeLimitInBytes lineLimit w
       = diffContents file1 file2 diffFile info1 info2 data1 data2 w1) ∧
    ((threshold < size1)%Z ∨ (threshold < size2)%Z ->
       generateDiff file1 file2 diffFile sizeLimitInBytes lineLimit w
       = match cmd_err (tail lineLimit data1), cmd_err (tail lineLimit data2) with
         | Some msg, _ => (Err (ExecError "tail" msg), w1)
         | None, Some msg => (Err (ExecError "tail" msg), w1)
         | None, None =>
             diffContents file1 file2 diffFile info1 info2
               (cmd_out (tail lineLimit data1)) (cmd_out (tail lineLimit data2)) w1
         end) ∧
    ((threshold < size1)%Z ∨ (threshold < size2)%Z ->
       (0 <= lineLimit)%Z -> tail = reference.tail_n ->
       generateDiff file1 file2 diffFile sizeLimitInBytes lineLimit w
       = diffContents file1 file2 diffFile info1 info2
           (reference.lastLines (Z.to_nat lineLimit) data1)
           (reference.lastLines (Z.to_nat lineLimit) data2) w1).
Proof.
  intros Hs H1 H2 Hd1 Hd2 Hnd threshold sizeLimitInBytes info1 info2 size1 size2.
  destruct (generateDiff_blocks w file1 file2 diffFile sizeLimitInBytes lineLimit
              data1 data2) as (w1 & Hsame & Hfs & Hrun); [done..|].
  exists w1. split; [done|]. split; [done|].
  assert (sizeLimitInBytes = threshold) as Hlim by (by apply sizeLimitInBytes_exact).
  rewrite Hrun. unfold selected. rewrite Hlim. fold size1 size2. split_and!.
  - intros [Hle1 Hle2].
    assert ((size1 >? threshold)%Z = false) as -> by lia.
    by assert ((size2 >? threshold)%Z = false) as -> by lia.
  - intros Hgt.
    assert (((size1 >? threshold) || (size2 >? threshold))%Z = true) as ->.
    { apply orb_true_iff. lia. }
    by destruct (cmd_err (tail lineLimit data1)), (cmd_err (tail lineLimit data2)).
  - intros Hgt Hn Htail.
    assert (((size1 >? threshold) || (size2 >? threshold))%Z = true) as ->.
    { apply orb_true_iff. lia. }
    rewrite Htail. simpl. by rewrite Z.abs_eq by done.
Qed.

Lemma insert_delete_same (f : fsys) name n : <[name := n]> (delete name f) = <[name := n]> f.
Proof. apply insert_delete_eq. Qed.

(** [generateDiff] on two readable files when nothing is in the way. *)
Lemma generateDiff_run w file1 file2 diffFile sizeLimit lineLimit data1 data2
    content1 content2 :
  fs w !! file1 = Some (File true data1) ->
  fs w !! file2 = Some (File true data2) ->
  diffFile ≠ file1 -> diffFile ≠ file2 -> fs w !! diffFile ≠ Some Dir ->
  roomFor w diffFile ->
  selected sizeLimit lineLimit data1 data2 = Ok (content1, content2) ->
  let r := diff (tempName w "file1-" ".tmp" 0) content1
                (tempName w "file2-" ".tmp" 1) content2 in
  ∃ w',
    generateDiff file1 file2 diffFile sizeLimit lineLimit w
    = (match failedDiff r with
       | Some msg => Err (ExecError "diff" msg)
       | None => Ok tt
       end, w') ∧
    fs w' = match failedDiff r with
            | Some _ => delete diffFile (fs w)
            | None => <[diffFile := File true (cmd_out r)]> (fs w)
            end.
Proof.
  intros H1 H2 Hd1 Hd2 Hnd Hroom Hsel r.
  destruct (generateDiff_blocks w file1 file2 diffFile sizeLimit lineLimit
              data1 data2) as (w1 & Hsame & Hfs & Hrun); [done..|].
  rewrite Hrun, Hsel.
  destruct (roomFor_after_removal w w1 diffFile) as [Hroom1 Hnone]; [done..|].
  rewrite diffContents_run by done.
  destruct Hsame as (ET & ER & EN & ED).
  assert (forall p s k, tempName w1 p s k = tempName w p s k) as Hn.
  { intros. unfold tempName. by rewrite ET, ER, EN. }
  rewrite !Hn. fold r.
  destruct (failedDiff r); eexists; (split; [done|]); simpl; [done|].
  by rewrite Hfs, insert_delete_eq.
Qed.

(** C9: with the blocks selected and nothing in the way, [generateDiff]
    fails exactly when [diff] returns an error and no output, and with that
    error; when [diff] gives any output, error or not, the output is written
    as the artifact. *)
Theorem generateDiff_fails_iff_diff_failed_silently w file1 file2 diffFile
    sizeLimit lineLimit data1 data2 content1 content2 :
  fs w !! file1 = Some (File true data1) ->
  fs w !! file2 = Some (File true data2) ->
  diffFile ≠ file1 -> diffFile ≠ file2 -> fs w !! diffFile ≠ Some Dir ->
  roomFor w diffFile ->
  selected sizeLimit lineLimit data1 data2 = Ok (content1, content2) ->
  let r := diff (tempName w "file1-" ".tmp" 0) content1
                (tempName w "file2-" ".tmp" 1) content2 in
  let run := generateDiff file1 file2 diffFile sizeLimit lineLimit w in
  (forall e, fst run = Err e
     ↔ ∃ msg, e = ExecError "diff" msg ∧ cmd_err r = Some msg ∧ cmd_out r = []) ∧
  (forall msg, fst run ≠ Panic msg) ∧
  (cmd_out r ≠ [] ->
     fst run = Ok tt ∧
     fs (snd run) = <[diffFile := File true (cmd_out r)]> (fs w)) ∧
  (forall e, fst run = Err e -> fs (snd run) !! diffFile = None).
Proof.
  intros H1 H2 Hd1 Hd2 Hnd Hroom Hsel r run.
  destruct (generateDiff_run w file1 file2 diffFile sizeLimit lineLimit data1 data2
              content1 content2) as (w' & Hrun & Hfs); [done..|].
  fold r in Hrun, Hfs. unfold run. rewrite Hrun. simpl. rewrite Hfs.
  unfold failedDiff.
  destruct (cmd_err r) as [msg|]; [destruct (cmd_out r) as [|c out]|]; split_and!.
  - intros e. split.
    + intros [= <-]. eauto.
    + by intros (msg' & -> & [= <-] & _).
  - done.
  - done.
  - intros. apply lookup_delete_eq.
  - intros e. split; [done|]. by intros (msg' & _ & _ & ?).
  - done.
  - done.
  - done.
  - intros e. split; [done|]. by intros (msg' & _ & ? & _).
  - done.
  - done.
  - done.
Qed.

(** C3: a record resolved by the tail-window strategy whose two blocks are
    the same (and [diff] finds no difference between a block and itself)
    is resolved with success: it is counted, and its artifact is written
    and empty. *)
Theorem identical_tail_blocks_give_empty_artifact w dir1 dir2 diffDir name rest
    sizeLimit lineLimit diffCount data1 data2 block :
  let file1 := filepath_Join dir1 name in
  let file2 := filepath_Join dir2 name in
  let diffFile := filepath_Join diffDir (name +:+ ".diff") in
  let sizeLimitInBytes := int_mul (int_mul sizeLimit 1024) 1024 in
  fs w !! file1 = Some (File true data1) ->
  fs w !! file2 = Some (File true data2) ->
  (sizeLimitInBytes < Z.of_nat (length data1)
   ∨ sizeLimitInBytes < Z.of_nat (length data2))%Z ->
  tail lineLimit data1 = CmdResult None block ->
  tail lineLimit data2 = CmdResult None block ->
  (forall name1 name2, diff name1 block name2 block = CmdResult None []) ->
  diffFile ≠ file1 -> diffFile ≠ file2 -> fs w !! diffFile ≠ Some Dir ->
  roomFor w diffFile ->
  ∃ w', compareRecord dir1 dir2 sizeLimit lineLimit diffDir (name :: rest)
          diffCount w = (Ok (int_add diffCount 1), w') ∧
        fs w' = <[diffFile := File true []]> (fs w).
Proof.
  intros file1 file2 diffFile sizeLimitInBytes H1 H2 Hbig Ht1 Ht2 Hdiff Hd1 Hd2
    Hnd Hroom.
  unfold compareRecord. fold file1 file2 diffFile sizeLimitInBytes.
  erewrite bind_Ok by (eapply try_Ok; by apply os_Stat_Some).
  erewrite bind_Ok by (eapply try_Ok; by apply os_Stat_Some).
  cbn [from_option].
  destruct (generateDiff_run w file1 file2 diffFile sizeLimitInBytes lineLimit
              data1 data2 block block) as (w' & Hrun & Hfs); [done..| |].
  { unfold selected.
    assert (((Z.of_nat (length data1) >? sizeLimitInBytes)
             || (Z.of_nat (length data2) >? sizeLimitInBytes))%Z = true) as ->.
    { apply orb_true_iff. lia. }
    by rewrite Ht1, Ht2. }
  rewrite Hdiff in Hrun, Hfs. simpl in Hrun, Hfs.
  erewrite bind_Ok by apply Hrun. eauto.
Qed.



End diff_claims.

Import csv_facts.

(** ** The Checksum Store *)

Lemma bind_Ok_inv {A B} (m : M A) (k : A -> M B) w v w' :
  bind m k w = (Ok v, w') -> ∃ a w1, m w = (Ok a, w1) ∧ k a w1 = (Ok v, w').
Proof. unfold bind. destruct (m w) as [[a|e|msg] w1]; [eauto|done..]. Qed.

Lemma str_app (x y : bytes) : str (x ++ y) = str x +:+ str y.
Proof. induction x as [|c x IH]; [done|]. simpl. by rewrite IH. Qed.

Lemma stripPrefix_Some (p s rest : bytes) :
  stripPrefix p s = Some rest -> s = p ++ rest.
Proof.
  revert s. induction p as [|c p IH]; intros [|d s]; simpl; try done.
  - by intros [= ->].
  - by intros [= ->].
  - destruct (decide (c = d)) as [->|]; [|done]. intros ?%IH. by subst.
Qed.

Lemma childName_Join (dir key name : string) :
  dir ≠ "" -> childName dir key = Some name ->
  name ≠ "" ∧ key = filepath_Join dir name.
Proof.
  intros Hdir. unfold childName. destruct (stripPrefix _ _) as [rest|] eqn:E; [|done].
  simpl. destruct (decide _) as [[Hne _]|]; [|done]. intros [= <-].
  apply stripPrefix_Some in E.
  assert (str rest ≠ "") as Hn by (by destruct rest).
  split; [done|]. unfold filepath_Join. rewrite !decide_False by done.
  rewrite <- (str_b key), E, <- app_assoc, !str_app. by rewrite str_b.
Qed.

(** What [ioutil.ReadDir] lists is there. *)
Lemma ReadDir_sound w dir files e :
  ioutil_ReadDir dir w = (Ok files, w) -> e ∈ files ->
  Name e ≠ "" ∧ ∃ n, fs w !! filepath_Join dir (Name e) = Some n
                     ∧ e = fileInfo (Name e) n.
Proof.
  unfold ioutil_ReadDir, bind, get_fs. destruct (decide (dir = "")) as [|Hd]; [done|].
  destruct (fs w !! dir) as [[]|]; [done| |done]. intros [= <-].
  rewrite merge_sort_Permutation. intros ((key & nd) & Hin & He)%list_elem_of_omap.
  apply elem_of_map_to_list in Hin.
  unfold dirEntry in He. simpl in He.
  destruct (childName dir key) as [name|] eqn:Ec; [|done]. simpl in He.
  injection He as <-. apply childName_Join in Ec as [Hne ->]; [|done].
  assert (Name (fileInfo name nd) = name) as -> by (by destruct nd).
  eauto.
Qed.

Lemma ReadDir_state w dir files w' :
  ioutil_ReadDir dir w = (Ok files, w') -> w' = w.
Proof.
  unfold ioutil_ReadDir, bind, get_fs. destruct (decide _); [done|].
  destruct (fs w !! dir) as [[]|]; [done| |done]. by intros [= _ <-].
Qed.

Lemma lookup_appendTo_ne (f : fsys) name data path :
  path ≠ name -> appendTo f name data !! path = f !! path.
Proof.
  intros Hp. unfold appendTo. destruct (f !! name) as [[]|]; by rewrite lookup_insert_ne.
Qed.

Lemma appendTo_appendTo (f : fsys) name x y :
  appendTo (appendTo f name x) name y = appendTo f name (x ++ y).
Proof.
  unfold appendTo. destruct (f !! name) as [[r old|]|] eqn:E;
    rewrite lookup_insert_eq, insert_insert_eq; by rewrite <- ?app_assoc.
Qed.

Lemma Forall2_impl_elem {A B} (P Q : A -> B -> Prop) (l : list A) (k : list B) :
  Forall2 P l k -> (forall x y, x ∈ l -> P x y -> Q x y) -> Forall2 Q l k.
Proof.
  induction 1 as [|x y l k Hxy _ IH]; intros HPQ; constructor.
  - apply HPQ; [by left|done].
  - apply IH. intros x' y' Hin. apply HPQ. by right.
Qed.

Section checksum_store.
Context `{Externals}.

Lemma fileChecksum_cases w filePath :
  match fs w !! filePath with
  | Some (File true data) => fileChecksum filePath w = (Ok (md5hex data), w)
  | _ => ∃ e, fileChecksum filePath w = (Err e, w)
  end.
Proof.
  unfold fileChecksum, os_Open, readAll, bind, get_fs, ret, fail.
  destruct (fs w !! filePath) as [[[] data|]|] eqn:E; simpl; rewrite ?E; eauto.
Qed.

Lemma updateCSV_cases w csvFile fileName checksum :
  updateCSV csvFile fileName checksum w
  = (Ok tt, set_fs (fun f => appendTo f csvFile (csv.Write [fileName; checksum])) w)
  ∨ ∃ e, updateCSV csvFile fileName checksum w = (Err e, w).
Proof.
  unfold updateCSV. destruct (fs w !! csvFile) as [[r old|]|] eqn:E.
  - left. erewrite bind_Ok by (by eapply openForWriting_append).
    erewrite file_Write_File by done. unfold set_fs, appendTo. by rewrite E.
  - right. erewrite bind_Err by (by eapply openForWriting_Dir). eauto.
  - destruct (decide (csvFile = "")) as [->|Hne].
    { right. unfold bind, openForWriting, bind, get_fs. rewrite E. simpl. eauto. }
    destruct (parentError (fs w) csvFile) as [e|] eqn:Ep.
    { right. unfold bind, openForWriting, bind, get_fs. rewrite E.
      rewrite decide_False by done. rewrite Ep. simpl. eauto. }
    left. erewrite bind_Ok by (by eapply openForWriting_new).
    erewrite file_Write_File by (simpl; apply lookup_insert_eq).
    unfold set_fs, appendTo. simpl. rewrite E. by rewrite insert_insert_eq.
Qed.

Lemma withRows_cons (f : fsys) csvFile row rows :
  withRows (appendTo f csvFile (csv.Write row)) csvFile rows
  = withRows f csvFile (row :: rows).
Proof.
  unfold withRows. rewrite (decide_False (P := row :: rows = [])) by done.
  destruct (decide (rows = [])) as [->|].
  - unfold csv.WriteAll. simpl. by rewrite app_nil_r.
  - by rewrite appendTo_appendTo.
Qed.

Lemma checksumFiles_Ok dir csvFile files m w m' w' :
  (forall file, file ∈ files -> IsDir file = false ->
     filepath_Join dir (Name file) ≠ csvFile) ->
  checksumFiles dir csvFile files m w = (Ok m', w') ->
  ∃ rows, rowsOf (fs w) dir files rows ∧ m' = recorded m rows ∧
          sameProcess w w' ∧ fs w' = withRows (fs w) csvFile rows.
Proof.
  revert m w. induction files as [|file files IH]; intros m w Hne.
  - intros [= <- <-]. exists []. split_and!; try done. constructor.
  - simpl. destruct (IsDir file) eqn:Ed.
    + intros Hrun. apply IH in Hrun as (rows & Hrows & -> & Hs & Hfs).
      2:{ intros f' Hf'. apply Hne. by right. }
      exists rows. split_and!; try done.
      unfold rowsOf. rewrite filter_cons_False by (by rewrite Ed). done.
    + intros (checksum & w1 & Hsum & Hrest)%bind_Ok_inv.
      pose proof (fileChecksum_cases w (filepath_Join dir (Name file))) as Hc.
      assert (∃ data, fs w !! filepath_Join dir (Name file) = Some (File true data)
                      ∧ fileChecksum (filepath_Join dir (Name file)) w
                        = (Ok (md5hex data), w)) as (data & Ef & Hc').
      { destruct (fs w !! filepath_Join dir (Name file)) as [[[] data|]|];
          [by eauto|destruct Hc; congruence..]. }
      clear Hc. rename Hc' into Hc.
      rewrite Hc in Hsum. injection Hsum as <- <-.
      apply bind_Ok_inv in Hrest as ([] & w2 & Hupd & Hrest).
      destruct (updateCSV_cases w csvFile (Name file) (md5hex data))
        as [Hu | [e Hu]]; [|congruence].
      rewrite Hu in Hupd. injection Hupd as <-.
      apply bind_Ok_inv in Hrest as ([] & w3 & Hpr & Hrest).
      rewrite Printf_run in Hpr. injection Hpr as <-.
      apply IH in Hrest as (rows & Hrows & -> & Hs & Hfs).
      2:{ intros f' Hf'. apply Hne. by right. }
      simpl in Hrows, Hfs.
      exists ([Name file; md5hex data] :: rows). split_and!.
      * unfold rowsOf. rewrite filter_cons_True by done. constructor; [eauto|].
        unfold rowsOf in Hrows.
        eapply Forall2_impl_elem; [apply Hrows|].
        intros f' row Hin (d & Hd & ->).
        apply list_elem_of_filter in Hin as [Hnd Hin].
        rewrite lookup_appendTo_ne in Hd; [eauto|].
        apply Hne; [by right|done].
      * done.
      * done.
      * by rewrite Hfs, withRows_cons.
Qed.




(** *** [generateChecksums] without the cache *)

Lemma generateChecksums_fresh dir outputDir w :
  let csvFile := csvFileOf dir outputDir in
  match os_Remove csvFile w with
  | (Ok _, w0) =>
      generateChecksums dir false outputDir w = regenerate dir csvFile w0
  | (Err e, _) =>
      generateChecksums dir false outputDir w
      = if os_IsNotExist e then regenerate dir csvFile w else (Err e, w)
  | (Panic _, _) => False
  end.
Proof.
  intros csvFile. unfold generateChecksums. fold csvFile.
  destruct (os_Remove_cases w csvFile) as [[e He] | [_ Hok]].
  - rewrite He. erewrite bind_Ok by (by eapply try_Err).
    cbv beta iota. by destruct (os_IsNotExist e).
  - rewrite Hok. by erewrite bind_Ok by (by eapply try_Ok).
Qed.

(** The build without the cache: the removal fails for another reason than
    the file not being there, or the build goes on without the cache
    file. *)
Lemma generateChecksums_fresh_cases dir outputDir w :
  let csvFile := csvFileOf dir outputDir in
  let w0 := set_fs (delete csvFile) w in
  (∃ e, os_Remove csvFile w = (Err e, w) ∧ os_IsNotExist e = false ∧
        generateChecksums dir false outputDir w = (Err e, w)) ∨
  ((os_Remove csvFile w = (Ok tt, w0)
    ∨ ∃ e, os_Remove csvFile w = (Err e, w0) ∧ os_IsNotExist e = true) ∧
   fs w0 !! csvFile = None ∧
   generateChecksums dir false outputDir w = regenerate dir csvFile w0).
Proof.
  intros csvFile w0.
  pose proof (generateChecksums_fresh dir outputDir w) as Hg.
  cbv zeta in Hg. fold csvFile in Hg.
  assert (fs w0 !! csvFile = None) as Hnone by apply lookup_delete_eq.
  destruct (os_Remove_cases w csvFile) as [[e He] | [_ Hok]].
  - rewrite He in Hg. destruct (os_IsNotExist e) eqn:Ee.
    + right. assert (w0 = w) as Hw.
      { unfold os_Remove, bind, get_fs in He.
        destruct (fs w !! csvFile) as [[]|] eqn:E; [done| |].
        - destruct (existsb _ _); [|done]. injection He as <-. done.
        - unfold w0, set_fs. rewrite delete_id by done. by destruct w. }
      rewrite Hw in *. split_and!; [right; eauto|done|done].
    + left. eauto.
  - rewrite Hok in Hg. right. split_and!; [by left|done|done].
Qed.

Lemma regenerate_Ok_inv dir csvFile w m w1 :
  regenerate dir csvFile w = (Ok m, w1) ->
  ∃ files w', ioutil_ReadDir dir w = (Ok files, w) ∧
              checksumFiles dir csvFile files ∅ w = (Ok m, w') ∧
              fs w1 = fs w'.
Proof.
  unfold regenerate. intros (files & w0 & Hrd & Hrest)%bind_Ok_inv.
  pose proof (ReadDir_state _ _ _ _ Hrd) as ->.
  apply bind_Ok_inv in Hrest as (m' & w' & Hloop & Hrest).
  apply bind_Ok_inv in Hrest as ([] & w'' & Hpr & Hret).
  rewrite Printf_run in Hpr. injection Hpr as <-. injection Hret as <- <-.
  eauto.
Qed.

Lemma listed_not_csvFile dir csvFile w files file :
  fs w !! csvFile = None -> ioutil_ReadDir dir w = (Ok files, w) ->
  file ∈ files -> filepath_Join dir (Name file) ≠ csvFile.
Proof.
  intros Hnone Hrd Hin Heq.
  destruct (ReadDir_sound _ _ _ _ Hrd Hin) as (_ & n & Hn & _). congruence.
Qed.

Lemma rows_two_fields f dir files rows :
  rowsOf f dir files rows -> Forall (fun r => length r = 2) rows.
Proof.
  unfold rowsOf. induction 1 as [|file row ? ? (d & _ & ->)]; by constructor.
Qed.

Lemma loadRecords_recorded rows m :
  Forall (fun r : list string => length r = 2) rows ->
  loadRecords rows m = Ok (recorded m rows).
Proof.
  intros Hrows. revert m. induction Hrows as [|row rows Hrow _ IH]; intros m; [done|].
  destruct row as [|name [|checksum [|]]]; try done. simpl. apply IH.
Qed.

Lemma dom_recorded m rows name fields :
  (name :: fields) ∈ rows -> Forall (fun r : list string => length r = 2) rows ->
  name ∈ dom (recorded m rows).
Proof.
  intros Hin Hrows. revert m.
  induction Hrows as [|row rows Hrow _ IH]; intros m; [by apply elem_of_nil in Hin|].
  assert (forall m', name ∈ dom m' -> name ∈ dom (recorded m' rows)) as Hmono.
  { clear. induction rows as [|r rows IH]; intros m' Hm; [done|].
    simpl. apply IH. destruct r as [|n [|c ?]]; [done..|].
    rewrite dom_insert. set_solver. }
  apply elem_of_cons in Hin as [<- | Hin].
  - destruct fields as [|checksum [|]]; try done. simpl. apply Hmono.
    rewrite dom_insert. set_solver.
  - simpl. by apply IH.
Qed.



(** C4 (as amended): when a build without the cache recorded at least one
    file, and no file name has a CR directly before a LF (the digest is
    hexadecimal text), a build with the cache in a world where the cache
    file is as the first build left it returns the same mapping, whatever
    the directory holds by then, and leaves the world as it was: nothing is
    listed, computed, written or printed. *)
Theorem cached_rebuild_returns_same_mapping dir outputDir w m w1 :
  generateChecksums dir false outputDir w = (Ok m, w1) ->
  m ≠ ∅ ->
  (forall name, name ∈ dom m -> csv.safe name) ->
  (forall data, csv.safe (md5hex data)) ->
  forall w2, fs w2 !! csvFileOf dir outputDir = fs w1 !! csvFileOf dir outputDir ->
    generateChecksums dir true outputDir w2 = (Ok m, w2).
Proof.
  intros Hbuild Hm Hnames Hdigest w2 Hsame.
  set (csvFile := csvFileOf dir outputDir) in *.
  assert (∃ w0, fs w0 !! csvFile = None ∧ regenerate dir csvFile w0 = (Ok m, w1))
    as (w0 & Hnone & Hregen).
  { destruct (generateChecksums_fresh_cases dir outputDir w)
      as [(e & _ & _ & Hg) | (_ & Hnone & Hg)]; [congruence|].
    exists (set_fs (delete csvFile) w). split; [exact Hnone|].
    unfold csvFile. by rewrite <- Hg. }
  apply regenerate_Ok_inv in Hregen as (files & w' & Hrd & Hloop & Hfs).
  apply checksumFiles_Ok in Hloop as (rows & Hrows & -> & _ & Hfs').
  2:{ intros file Hin _. by eapply listed_not_csvFile. }
  assert (rows ≠ []) as Hne by (by intros ->).
  pose proof (rows_two_fields _ _ _ _ Hrows) as Htwo.
  assert (fs w2 !! csvFile = Some (File true (csv.WriteAll rows))) as Hcache.
  { rewrite Hsame, Hfs, Hfs'. unfold withRows, appendTo.
    rewrite decide_False by done. rewrite Hnone. apply lookup_insert_eq. }
  assert (Forall (Forall csv.safe) rows) as Hsafe.
  { apply Forall_forall. intros row Hin.
    assert (∃ file data, row = [Name file; md5hex data]) as (file & data & ->).
    { unfold rowsOf in Hrows. clear -Hrows Hin.
      induction Hrows as [|file row' ? ? (d & _ & ->)].
      - by apply elem_of_nil in Hin.
      - apply elem_of_cons in Hin as [-> | Hin]; eauto. }
    repeat constructor; [|apply Hdigest].
    apply Hnames. by eapply dom_recorded. }
  unfold generateChecksums. fold csvFile.
  erewrite bind_Ok by (eapply attempt_Ok; by eapply os_Open_File).
  cbv beta iota.
  erewrite bind_Ok; cycle 1.
  { eapply attempt_Ok. unfold csv_ReadAll.
    erewrite bind_Ok by (by eapply readAll_File).
    rewrite (ReadAll_WriteAll 2) by (done || lia). done. }
  cbv beta iota. unfold liftResult. by rewrite loadRecords_recorded.
Qed.

(** A cache file that is not CSV: the build goes on as without a cache,
    but on top of the file as it is. *)
Lemma malformed_csv_regenerates dir outputDir w content :
  fs w !! csvFileOf dir outputDir = Some (File true content) ->
  csv.ReadAll content = None ->
  generateChecksums dir true outputDir w
  = regenerate dir (csvFileOf dir outputDir) w.
Proof.
  intros Hf Hparse. unfold generateChecksums.
  erewrite bind_Ok by (eapply attempt_Ok; by eapply os_Open_File).
  cbv beta iota.
  erewrite bind_Ok; cycle 1.
  { eapply attempt_Err. unfold csv_ReadAll.
    erewrite bind_Ok by (by eapply readAll_File). by rewrite Hparse. }
  done.
Qed.

(** A cache file with a row of one field: the build panics. *)
Lemma short_row_panics dir outputDir w content records msg :
  fs w !! csvFileOf dir outputDir = Some (File true content) ->
  csv.ReadAll content = Some records ->
  loadRecords records ∅ = Panic msg ->
  generateChecksums dir true outputDir w = (Panic msg, w).
Proof.
  intros Hf Hparse Hload. unfold generateChecksums.
  erewrite bind_Ok by (eapply attempt_Ok; by eapply os_Open_File).
  cbv beta iota.
  erewrite bind_Ok; cycle 1.
  { eapply attempt_Ok. unfold csv_ReadAll.
    erewrite bind_Ok by (by eapply readAll_File). by rewrite Hparse. }
  cbv beta iota. unfold liftResult. by rewrite Hload.
Qed.

End checksum_store.

(** ** The Orchestrator *)

Section orchestrator.
Context `{Externals}.

(** C6 (as amended): after the output directory is made, [main] runs the
    four stages in order; the first stage that returns an error has its
    error printed as the last line, no summary follows, and [main] returns;
    when all four succeed the last line is the summary with the count and
    the [diffs] directory. In every one of these cases the exit status is
    0: returning from [main] is the only way the program text has to end.
    A stage that panics ends the program on the spot: [main] prints nothing
    after it, no error line either, and the exit status is 2. *)
Theorem main_reports_and_returns lineLimit sizeLimit useCache debugFlag arg0 arg1
    w w1 :
  let dir1 := filepath_Clean arg0 in
  let dir2 := filepath_Clean arg1 in
  let outputDir := filepath_Clean (dir1 +:+ "-" +:+ dir2) in
  let run := main lineLimit sizeLimit useCache debugFlag [arg0; arg1] w in
  os_MkdirAll outputDir (set_debug debugFlag w) = (Ok tt, w1) ->
  let w2 := printed ["# Compare " +:+ dir1 +:+ " and " +:+ dir2 +:+ nl] w1 in
  (forall err w3,
     generateChecksums dir1 useCache outputDir w2 = (Err err, w3) ->
     run = (Ok tt, printed ["Error generating checksums for " +:+ dir1 +:+ ": "
                            +:+ fmt_v err +:+ nl] w3)
     ∧ exitStatus (fst run) = 0%Z) ∧
  (forall msg w3,
     generateChecksums dir1 useCache outputDir w2 = (Panic msg, w3) ->
     run = (Panic msg, w3) ∧ exitStatus (fst run) = 2%Z) ∧
  (forall checksums1 w3,
     generateChecksums dir1 useCache outputDir w2 = (Ok checksums1, w3) ->
     (forall err w4,
        generateChecksums dir2 useCache outputDir w3 = (Err err, w4) ->
        run = (Ok tt, printed ["Error generating checksums for " +:+ dir2 +:+ ": "
                               +:+ fmt_v err +:+ nl] w4)
        ∧ exitStatus (fst run) = 0%Z) ∧
     (forall msg w4,
        generateChecksums dir2 useCache outputDir w3 = (Panic msg, w4) ->
        run = (Panic msg, w4) ∧ exitStatus (fst run) = 2%Z) ∧
     (forall checksums2 w4,
        generateChecksums dir2 useCache outputDir w3 = (Ok checksums2, w4) ->
        (forall err w5,
           generateCombinedCSV checksums1 checksums2 dir1 dir2 outputDir w4
           = (Err err, w5) ->
           run = (Ok tt, printed ["Error generating combined CSV: "
                                  +:+ fmt_v err +:+ nl] w5)
           ∧ exitStatus (fst run) = 0%Z) ∧
        (forall msg w5,
           generateCombinedCSV checksums1 checksums2 dir1 dir2 outputDir w4
           = (Panic msg, w5) ->
           run = (Panic msg, w5) ∧ exitStatus (fst run) = 2%Z) ∧
        (forall w5,
           generateCombinedCSV checksums1 checksums2 dir1 dir2 outputDir w4
           = (Ok tt, w5) ->
           let w6 := printed ["# Combined CSV generated at "
                              +:+ filepath_Join outputDir "diff.csv" +:+ nl] w5 in
           (forall err w7,
              compareFilesInCSV dir1 dir2 sizeLimit lineLimit outputDir w6
              = (Err err, w7) ->
              run = (Ok tt, printed ["Error comparing files: "
                                     +:+ fmt_v err +:+ nl] w7)
              ∧ exitStatus (fst run) = 0%Z) ∧
           (forall msg w7,
              compareFilesInCSV dir1 dir2 sizeLimit lineLimit outputDir w6
              = (Panic msg, w7) ->
              run = (Panic msg, w7) ∧ exitStatus (fst run) = 2%Z) ∧
           (forall diffCount w7,
              compareFilesInCSV dir1 dir2 sizeLimit lineLimit outputDir w6
              = (Ok diffCount, w7) ->
              run = (Ok tt, printed ["# Total differences found: "
                                     +:+ fmt_d diffCount +:+ " ("
                                     +:+ filepath_Join outputDir "diffs" +:+ ")"
                                     +:+ nl] w7)
              ∧ exitStatus (fst run) = 0%Z)))).
Proof.
  intros dir1 dir2 outputDir run Hmk w2.
  assert (run = stages dir1 dir2 outputDir lineLimit sizeLimit useCache w2) as Hrun.
  { unfold run, main. fold dir1 dir2 outputDir. unfold bind at 1.
    erewrite bind_Ok by (eapply try_Ok; apply Hmk). cbv beta iota.
    by erewrite bind_Ok by apply Printf_run. }
  rewrite Hrun. unfold stages. split.
  { intros err w3 H1. erewrite bind_Ok by (by eapply attempt_Err). done. }
  split.
  { intros msg w3 H1. by erewrite bind_Panic by (by eapply attempt_Panic). }
  intros checksums1 w3 H1. erewrite bind_Ok by (by eapply attempt_Ok).
  cbv beta iota. split.
  { intros err w4 H2. erewrite bind_Ok by (by eapply attempt_Err). done. }
  split.
  { intros msg w4 H2. by erewrite bind_Panic by (by eapply attempt_Panic). }
  intros checksums2 w4 H2. erewrite bind_Ok by (by eapply attempt_Ok).
  cbv beta iota. split.
  { intros err w5 H3. erewrite bind_Ok by (by eapply try_Err). done. }
  split.
  { intros msg w5 H3. erewrite bind_Panic; [done|]. unfold try. by rewrite H3. }
  intros w5 H3. erewrite bind_Ok by (by eapply try_Ok).
  cbv beta iota. erewrite bind_Ok by apply Printf_run. fold (printed
    ["# Combined CSV generated at " +:+ filepath_Join outputDir "diff.csv" +:+ nl] w5).
  split.
  { intros err w7 H4. erewrite bind_Ok by (by eapply attempt_Err). done. }
  split.
  { intros msg w7 H4. by erewrite bind_Panic by (by eapply attempt_Panic). }
  intros diffCount w7 H4. erewrite bind_Ok by (by eapply attempt_Ok). done.
Qed.

End orchestrator.

(** ** The program on examples *)

Import reference examples.

Lemma roomFor_twoFiles : roomFor twoFiles "D/f.diff".
Proof. unfold roomFor. by split_and!; vm_compute. Qed.

(** C2 as stated fails: with [-size 8796093022208] the product wraps to
    [-2^63]; both files (9 bytes each) are below [size * 1024 * 1024], yet
    only their last line is compared. *)
Lemma size_overflow_selects_tail :
  ¬ (forall (H : Externals) w file1 file2 diffFile sizeLimit lineLimit data1 data2,
       fs w !! file1 = Some (File true data1) ->
       fs w !! file2 = Some (File true data2) ->
       diffFile ≠ file1 -> diffFile ≠ file2 -> fs w !! diffFile ≠ Some Dir ->
       (Z.of_nat (length data1) <= sizeLimit * 1024 * 1024)%Z ->
       (Z.of_nat (length data2) <= sizeLimit * 1024 * 1024)%Z ->
       ∃ w1, sameProcess w w1 ∧ fs w1 = delete diffFile (fs w) ∧
         generateDiff file1 file2 diffFile (int_mul (int_mul sizeLimit 1024) 1024)
           lineLimit w
         = diffContents file1 file2 diffFile
             (fileInfo (filepath_Base file1) (File true data1))
             (fileInfo (filepath_Base file2) (File true data2)) data1 data2 w1).
Proof.
  intros Hclaim.
  destruct (Hclaim reference.externals twoFiles "A/f" "B/f" "D/f.diff" (2 ^ 43)%Z 1%Z
              (reference.text ["old"; "same"]) (reference.text ["new"; "same"]))
    as (w1 & Hsame & Hfs & Hrun); [by vm_compute..|].
  destruct (roomFor_after_removal twoFiles w1 "D/f.diff") as [Hroom Hnone];
    [apply roomFor_twoFiles|done|by vm_compute|done|].
  rewrite diffContents_run in Hrun by done.
  destruct Hsame as (ET & ER & EN & ED).
  assert (forall p s k, tempName w1 p s k = tempName twoFiles p s k) as Hn.
  { intros. unfold tempName. by rewrite ET, ER, EN. }
  rewrite !Hn in Hrun.
  assert (fs (snd (generateDiff (H := reference.externals) "A/f" "B/f" "D/f.diff"
                     (int_mul (int_mul (2 ^ 43) 1024) 1024) 1 twoFiles))
          !! "D/f.diff" = Some (File true [])) as Hleft by (by vm_compute).
  assert (failedDiff (diff (Externals := reference.externals)
                        (tempName twoFiles "file1-" ".tmp" 0)
                        (reference.text ["old"; "same"])
                        (tempName twoFiles "file2-" ".tmp" 1)
                        (reference.text ["new"; "same"])) = None) as Hdiff
    by (by vm_compute).
  rewrite Hrun, Hdiff in Hleft. cbn [snd fs] in Hleft.
  rewrite lookup_insert_eq in Hleft. vm_compute in Hleft. discriminate Hleft.
Qed.

(** C2 on an example: 100 MB, two files of 9 bytes. *)
Lemma generateDiff_strategy_witness :
  ∃ w1, generateDiff (H := reference.externals) "A/f" "B/f" "D/f.diff"
          (int_mul (int_mul 100 1024) 1024) 1 twoFiles
        = diffContents "A/f" "B/f" "D/f.diff"
            (fileInfo (filepath_Base "A/f") (File true (reference.text ["old"; "same"])))
            (fileInfo (filepath_Base "B/f") (File true (reference.text ["new"; "same"])))
            (reference.text ["old"; "same"]) (reference.text ["new"; "same"]) w1.
Proof.
  destruct (generateDiff_strategy (H := reference.externals) twoFiles "A/f" "B/f"
              "D/f.diff" 100 1 (reference.text ["old"; "same"])
              (reference.text ["new"; "same"]))
    as (w1 & _ & _ & Hfull & _); [by vm_compute..|].
  exists w1. apply Hfull. by vm_compute.
Defined.

(** C3 on an example: [-size 0 -lines 1]; the last lines are the same. *)
Lemma identical_tail_blocks_witness :
  ∃ w', compareRecord (H := reference.externals) "A" "B" 0 1 "D" ["f"; "1"; "2"] 7
          twoFiles = (Ok (int_add 7 1), w') ∧
        fs w' = <[filepath_Join "D" ("f" +:+ ".diff") := File true []]> (fs twoFiles).
Proof.
  apply (identical_tail_blocks_give_empty_artifact (H := reference.externals)
           twoFiles "A" "B" "D" "f" ["1"; "2"] 0 1 7
           (reference.text ["old"; "same"]) (reference.text ["new"; "same"])
           (reference.text ["same"])); try by vm_compute.
  left. by vm_compute.
Defined.



(** A destination that is there and cannot be read is not overwritten:
    [os.Create] fails, and so does the record. *)
Example one_sided_record_unreadable_destination :
  compareRecord (H := reference.externals) "A" "B" 100 50 "D" ["b.txt"; ""; "1"] 0
    scenarios.destinationTaken
  = (Err (PathError "open" "D/b.txt" EACCES), scenarios.destinationTaken).
Proof. by vm_compute. Qed.

(** C9 on an example: [diff] exits with 1 and has output; the output is the
    artifact. *)
Lemma diff_output_witness :
  fst (generateDiff (H := reference.externals) "A/f" "B/f" "D/f.diff" 1000 1 twoFiles)
  = Ok tt ∧
  fs (snd (generateDiff (H := reference.externals) "A/f" "B/f" "D/f.diff" 1000 1
             twoFiles))
  = <[ "D/f.diff" :=
       File true (cmd_out (diff (Externals := reference.externals)
                             (tempName twoFiles "file1-" ".tmp" 0)
                             (reference.text ["old"; "same"])
                             (tempName twoFiles "file2-" ".tmp" 1)
                             (reference.text ["new"; "same"]))) ]> (fs twoFiles).
Proof.
  destruct (generateDiff_fails_iff_diff_failed_silently (H := reference.externals)
              twoFiles "A/f" "B/f" "D/f.diff" 1000 1
              (reference.text ["old"; "same"]) (reference.text ["new"; "same"])
              (reference.text ["old"; "same"]) (reference.text ["new"; "same"]))
    as (_ & _ & Hout & _); [by vm_compute..|].
  apply Hout. by vm_compute.
Defined.

(** When [diff] cannot be started there is an error and no output:
    [generateDiff] fails with that error and writes no artifact. *)
Example diff_not_installed :
  generateDiff (H := reference.without_diff) "A/f" "B/f" "D/f.diff" 1000 1 twoFiles
  = (Err (ExecError "diff" "exec: diff: executable file not found in $PATH"),
     World (fs twoFiles) [] "/tmp" (random twoFiles) 2 false).
Proof. by vm_compute. Qed.



(** The stand-in digest is hexadecimal text. *)
Lemma b_app (s t : string) : b (s +:+ t) = b s ++ b t.
Proof. induction s as [|c s IH]; [done|]. simpl. by rewrite <- IH. Qed.

Lemma hasCRLF_no_CR (s : bytes) : Forall (fun c => c ≠ CR) s -> csv.hasCRLF s = false.
Proof.
  induction 1 as [|c s Hc _ IH]; [done|].
  simpl. rewrite IH. by rewrite bool_decide_eq_false_2.
Qed.

Lemma hexDigit_not_CR (n : N) : reference.hexDigit n ≠ CR.
Proof.
  unfold reference.hexDigit.
  assert (Forall (fun c => c ≠ CR) ("0"%char :: b "0123456789abcdef")) as Hall
    by (repeat constructor; done).
  destruct (nth_in_or_default (N.to_nat n) (b "0123456789abcdef") "0"%char)
    as [Hin | ->]; [|done].
  eapply Forall_forall in Hall; [done|]. right. by apply list_elem_of_In.
Qed.

Lemma hex_no_CR (digits : nat) (n : N) :
  Forall (fun c => c ≠ CR) (b (reference.hex digits n)).
Proof.
  revert n. induction digits as [|d IH]; intros n; [constructor|].
  simpl. rewrite b_app. apply Forall_app. split; [apply IH|].
  repeat constructor. apply hexDigit_not_CR.
Qed.

Lemma digest_safe (data : bytes) : csv.safe (reference.digest data).
Proof. apply hasCRLF_no_CR, hex_no_CR. Qed.

(** C4 on an example: one file, [a.txt]. *)
Lemma cached_rebuild_witness :
  generateChecksums (H := reference.externals) "A" true "O"
    (snd (generateChecksums (H := reference.externals) "A" false "O" plainName))
  = (Ok {[ "a.txt" := reference.digest (reference.text ["data"]) ]},
     snd (generateChecksums (H := reference.externals) "A" false "O" plainName)).
Proof.
  apply (cached_rebuild_returns_same_mapping (H := reference.externals) "A" "O"
           plainName {[ "a.txt" := reference.digest (reference.text ["data"]) ]}
           (snd (generateChecksums (H := reference.externals) "A" false "O" plainName))).
  - by vm_compute.
  - intros E. apply (f_equal (fun m => m !! "a.txt")) in E.
    by rewrite lookup_singleton_eq in E.
  - intros name. rewrite dom_singleton, elem_of_singleton. by intros ->.
  - apply digest_safe.
  - done.
Defined.

(** C4 as stated fails: the name [x CR LF y] is written to the cache
    inside quotes, and read back as [x LF y]; the build from the cache
    returns another mapping although nothing changed in between. *)
Lemma cached_rebuild_changes_odd_name :
  ¬ (forall (H : Externals) dir outputDir w m w1,
       generateChecksums dir false outputDir w = (Ok m, w1) ->
       forall w2,
         fs w2 !! csvFileOf dir outputDir = fs w1 !! csvFileOf dir outputDir ->
         generateChecksums dir true outputDir w2 = (Ok m, w2)).
Proof.
  intros Hclaim.
  pose (first := generateChecksums (H := reference.externals) "A" false "O" oddName).
  pose (m := {[ "x" +:+ String CR (String LF "y")
                := reference.digest (reference.text ["data"]) ]} : gmap string string).
  specialize (Hclaim reference.externals "A" "O" oddName m (snd first)
                ltac:(by vm_compute) (snd first) eq_refl).
  apply (f_equal (fun r => match fst r with
                           | Ok m' => m' !! ("x" +:+ String CR (String LF "y"))
                           | _ => None
                           end)) in Hclaim.
  vm_compute in Hclaim. discriminate Hclaim.
Qed.

(** C5 fails on the code: with the cache file [abc], one row of one field,
    the build with the cache does not fall back to regeneration: it ends in
    a run-time panic at [record[1]]. *)
Example cached_build_panics_on_short_row :
  csv.ReadAll (reference.text ["abc"]) = Some [["abc"]] ∧
  generateChecksums (H := reference.externals) "A" true "O" shortRow
  = (Panic "index out of range", shortRow).
Proof.
  split; [by vm_compute|].
  by apply (short_row_panics (H := reference.externals) "A" "O" shortRow
              (reference.text ["abc"]) [["abc"]]).
Qed.

(** C6 on an example: the first directory is missing. *)
Lemma main_missing_directory_witness :
  main (H := reference.externals) 50 100 false false ["A"; "B"] missingDir
  = (Ok tt,
     printed ["Error generating checksums for A: "
              +:+ fmt_v (PathError "open" "A" ENOENT) +:+ nl]
       (printed ["# Compare A and B" +:+ nl]
          (snd (os_MkdirAll "A-B" (set_debug false missingDir))))).
Proof.
  destruct (main_reports_and_returns (H := reference.externals) 50 100 false false
              "A" "B" missingDir (snd (os_MkdirAll "A-B" (set_debug false missingDir))))
    as [Hfirst _]; [by vm_compute|].
  cbv zeta in Hfirst.
  destruct (Hfirst (PathError "open" "A" ENOENT)
              (printed ["# Compare A and B" +:+ nl]
                 (snd (os_MkdirAll "A-B" (set_debug false missingDir)))))
    as [Hrun _]; [by vm_compute|].
  exact Hrun.
Defined.

(** A stage that panics: with [-use-cache] and the cache [abc] the first
    stage panics; [main] has printed its first line and prints nothing
    more, and the exit status is 2. *)
Example main_panics_on_short_row :
  main (H := reference.externals) 50 100 true false ["A"; "B"]
    scenarios.shortRowInOutput
  = (Panic "index out of range",
     printed ["# Compare A and B" +:+ nl] scenarios.shortRowInOutput) ∧
  exitStatus (fst (main (H := reference.externals) 50 100 true false ["A"; "B"]
                     scenarios.shortRowInOutput)) = 2%Z.
Proof. split; by vm_compute. Qed.

(** C6 as stated fails: the first stage fails, the error is printed, and
    the exit status is 0. *)
Lemma stage_failure_exits_zero :
  ¬ (forall (H : Externals) lineLimit sizeLimit useCache debugFlag arg0 arg1 w w1
            err w3,
       os_MkdirAll (filepath_Clean (filepath_Clean arg0 +:+ "-" +:+ filepath_Clean arg1))
         (set_debug debugFlag w) = (Ok tt, w1) ->
       generateChecksums (filepath_Clean arg0) useCache
         (filepath_Clean (filepath_Clean arg0 +:+ "-" +:+ filepath_Clean arg1))
         (printed ["# Compare " +:+ filepath_Clean arg0 +:+ " and "
                   +:+ filepath_Clean arg1 +:+ nl] w1) = (Err err, w3) ->
       exitStatus (fst (main lineLimit sizeLimit useCache debugFlag [arg0; arg1] w))
       ≠ 0%Z).
Proof.
  intros Hclaim.
  apply (Hclaim reference.externals 50%Z 100%Z false false "A" "B" missingDir
           (snd (os_MkdirAll "A-B" (set_debug false missingDir)))
           (PathError "open" "A" ENOENT)
           (printed ["# Compare A and B" +:+ nl]
              (snd (os_MkdirAll "A-B" (set_debug false missingDir)))));
    by vm_compute.
Qed.

(** * Further properties of the program *)

(** ** [humanReadableSize] *)

Module format_facts.
Import format.
Local Open Scope Z_scope.

Lemma pow1024_bound (k : Z) : 0 <= k -> 1024 ^ k < 2 ^ 63 -> k <= 6.
Proof.
  intros Hk Hlt. destruct (decide (k <= 6)) as [|Hn]; [done|].
  assert (1024 ^ 7 <= 1024 ^ k) by (apply Z.pow_le_mono_r; lia).
  assert (1024 ^ 7 = 2 ^ 70) as E by reflexivity. lia.
Qed.

(** The loop keeps [div = 1024 ^ (exp + 1)] and [n = size / div], and
    leaves when [size < 1024 * div]. *)
Lemma unitLoop_spec (size n div exp : Z) :
  size < 2 ^ 63 -> 0 <= exp -> div = 1024 ^ (exp + 1) -> n = size / div -> 1 <= n ->
  ∃ k, exp <= k <= 5 ∧ unitLoop n div exp = (1024 ^ (k + 1), k)
       ∧ 1024 ^ (k + 1) <= size < 1024 ^ (k + 2).
Proof.
  intros Hsize. revert n div exp.
  assert (forall m : nat, forall n div exp, Z.to_nat (Z.log2 n) = m ->
            0 <= exp -> div = 1024 ^ (exp + 1) -> n = size / div -> 1 <= n ->
            ∃ k, exp <= k <= 5 ∧ unitLoop n div exp = (1024 ^ (k + 1), k)
                 ∧ 1024 ^ (k + 1) <= size < 1024 ^ (k + 2)) as Hall.
  2:{ intros n div exp. by apply (Hall (Z.to_nat (Z.log2 n))). }
  induction m as [m IH] using lt_wf_ind. intros n div exp Hm Hexp Hdiv Hn H1.
  assert (0 < div) as Hpos by (subst div; apply Z.pow_pos_nonneg; lia).
  assert (div <= size) as Hle.
  { subst n. destruct (decide (div <= size)) as [|Hgt]; [done|].
    assert (size / div < 1) by (apply Z.div_lt_upper_bound; lia). lia. }
  assert (exp + 1 <= 6) as Hexp6.
  { apply pow1024_bound; [lia|]. rewrite <- Hdiv. lia. }
  rewrite unitLoop_equation_1. unfold unitLoop_unfold_clause_1.
  destruct (1024 <=? n) eqn:Hc; simpl.
  - assert (1024 <= n) as Hge by lia.
    assert (1024 * div <= size) as Hbig.
    { subst n. pose proof (Z.mul_div_le size div Hpos). nia. }
    assert (int_mul div 1024 = div * 1024) as ->.
    { unfold int_mul, wrap. rewrite Z.mod_small; lia. }
    assert (int_add exp 1 = exp + 1) as ->.
    { unfold int_add, wrap. rewrite Z.mod_small; lia. }
    rewrite Z.quot_div_nonneg by lia.
    assert (0 < n / 1024) by (apply Z.div_str_pos; lia).
    destruct (IH (Z.to_nat (Z.log2 (n / 1024)))) with
      (n := n / 1024) (div := div * 1024) (exp := exp + 1)
      as (k & Hk & Hrun & Hbounds); try done; try lia.
    + rewrite <- Hm.
      pose proof (Z.log2_nonneg (n / 1024)).
      assert (Z.log2 (n / 1024) < Z.log2 n); [|lia].
      apply Z.log2_lt_pow2; [done|].
      pose proof (Z.log2_spec n ltac:(lia)) as [_ Hhi].
      rewrite Z.pow_succ_r in Hhi by apply Z.log2_nonneg.
      assert (n / 1024 <= n / 2) by (apply Z.div_le_compat_l; lia).
      assert (n / 2 < 2 ^ Z.log2 n); [|lia].
      apply Z.div_lt_upper_bound; lia.
    + subst div. replace (exp + 1 + 1) with (Z.succ (exp + 1)) by lia.
      rewrite Z.pow_succ_r by lia. lia.
    + subst n. rewrite Z.div_div by lia. done.
    + exists k. split; [lia|]. done.
  - exists exp. split; [lia|]. subst div. split; [done|]. split; [done|].
    replace (exp + 2) with (Z.succ (exp + 1)) by lia.
    rewrite Z.pow_succ_r by lia.
    assert (n < 1024) as Hlt by lia. subst n.
    destruct (decide (size < 1024 * 1024 ^ (exp + 1))) as [|Hge]; [done|].
    assert (1024 <= size / 1024 ^ (exp + 1)); [|lia].
    apply Z.div_le_lower_bound; lia.
Qed.

Lemma float64_small (z : Z) : Z.abs z < 2 ^ 53 -> float64 z = z.
Proof.
  intros Hz. unfold float64.
  assert (Z.log2 (Z.abs z) - 52 <= 0) as Hle; [|by rewrite (proj2 (Z.leb_le _ _) Hle)].
  destruct (decide (Z.abs z = 0)) as [->|]; [done|].
  assert (Z.log2 (Z.abs z) < 53); [|lia].
  apply Z.log2_lt_pow2; lia.
Qed.

Lemma nearestEven_near (num den : Z) :
  0 < den -> 2 * Z.abs (num - nearestEven num den * den) <= den.
Proof.
  intros Hden. unfold nearestEven.
  pose proof (Z.div_mod num den ltac:(lia)) as Hdm.
  pose proof (Z.mod_pos_bound num den Hden) as Hr.
  destruct (2 * (num mod den) <? den) eqn:E1; [nia|].
  destruct (den <? 2 * (num mod den)) eqn:E2; [nia|].
  destruct (Z.even (num / den)); nia.
Qed.

Lemma nearestEven_mono (num num' den : Z) :
  0 < den -> num <= num' -> nearestEven num den <= nearestEven num' den.
Proof.
  intros Hden Hle.
  pose proof (nearestEven_near num den Hden) as H1.
  pose proof (nearestEven_near num' den Hden) as H2.
  destruct (decide (nearestEven num den <= nearestEven num' den)) as [|Hgt]; [done|].
  exfalso.
  assert (nearestEven num' den + 1 <= nearestEven num den) as Hstep by lia.
  (* both are within half of [den]: the two inputs are equal, and so are the outputs *)
  assert (num = num') as Heq by nia.
  subst num'. lia.
Qed.

Lemma nearestEven_exact (q den : Z) : 0 < den -> nearestEven (q * den) den = q.
Proof.
  intros Hden. unfold nearestEven.
  rewrite Z.div_mul by lia. rewrite Z.mod_mul by lia.
  by rewrite (proj2 (Z.ltb_lt _ _)) by lia.
Qed.

(** A size of 1024 and more: the unit and the number before it. *)
Lemma humanReadableSize_large (size : Z) :
  1024 <= size < 2 ^ 63 ->
  ∃ (k : nat) (c : ascii),
    (k <= 5)%nat ∧ b "KMGTPE" !! k = Some c ∧
    1024 ^ (Z.of_nat k + 1) <= size < 1024 ^ (Z.of_nat k + 2) ∧
    humanReadableSize size
    = Ok (fmt_1f (float64 size) (1024 ^ (Z.of_nat k + 1)) +:+ " " +:+ String c "B").
Proof.
  intros [Hlo Hhi]. unfold humanReadableSize.
  rewrite (proj2 (Z.ltb_ge _ _)) by done.
  rewrite Z.quot_div_nonneg by lia.
  destruct (unitLoop_spec size (size / 1024) 1024 0) as (k & Hk & -> & Hb);
    [done|done|done|done| |].
  { apply Z.div_le_lower_bound; lia. }
  assert (k = 0 ∨ k = 1 ∨ k = 2 ∨ k = 3 ∨ k = 4 ∨ k = 5) as Hcases by lia.
  destruct Hcases as [->|[->|[->|[->|[->| ->]]]]].
  - exists 0%nat, "K"%char. split_and!; [lia|done|lia|lia|done].
  - exists 1%nat, "M"%char. split_and!; [lia|done|lia|lia|done].
  - exists 2%nat, "G"%char. split_and!; [lia|done|lia|lia|done].
  - exists 3%nat, "T"%char. split_and!; [lia|done|lia|lia|done].
  - exists 4%nat, "P"%char. split_and!; [lia|done|lia|lia|done].
  - exists 5%nat, "E"%char. split_and!; [lia|done|lia|lia|done].
Qed.

End format_facts.

Section human_readable.
Import format format_facts.
Local Open Scope Z_scope.

(** X18: For every [int64], [humanReadableSize] returns a text: the index into
    [KMGTPE] is never out of range. A size below 1024, a negative one
    too, is printed in bytes; a size from [1024 ^ (k + 1)] up to
    [1024 ^ (k + 2)] gets the letter at index [k]. *)
Theorem humanReadableSize_never_panics (size : Z) :
  - 2 ^ 63 <= size < 2 ^ 63 ->
  (∃ text, humanReadableSize size = Ok text) ∧
  (size < 1024 -> humanReadableSize size = Ok (fmt_d size +:+ " B")) ∧
  (1024 <= size ->
   ∃ (k : nat) (c : ascii) (number : string),
     (k <= 5)%nat ∧ b "KMGTPE" !! k = Some c ∧
     1024 ^ (Z.of_nat k + 1) <= size < 1024 ^ (Z.of_nat k + 2) ∧
     humanReadableSize size = Ok (number +:+ " " +:+ String c "B")).
Proof.
  intros [Hlo Hhi].
  assert (size < 1024 -> humanReadableSize size = Ok (fmt_d size +:+ " B")) as Hsmall.
  { intros Hs. unfold humanReadableSize. by rewrite (proj2 (Z.ltb_lt _ _)) by done. }
  split_and!; [|done|].
  - destruct (decide (size < 1024)) as [Hs|Hs]; [eauto|].
    destruct (humanReadableSize_large size) as (k & c & _ & _ & _ & ->); [lia|eauto].
  - intros Hs.
    destruct (humanReadableSize_large size) as (k & c & Hk & Hc & Hb & ->); [lia|].
    by exists k, c, (fmt_1f (float64 size) (1024 ^ (Z.of_nat k + 1))).
Qed.

(** X18 on an example: the largest [int64]. *)
Lemma humanReadableSize_never_panics_witness :
  ∃ text, humanReadableSize (2 ^ 63 - 1) = Ok text.
Proof. apply (humanReadableSize_never_panics (2 ^ 63 - 1)). lia. Defined.

(** X19: Below [2 ^ 53] the number before the unit is the nearest tenth of
    [size / 1024 ^ (k + 1)] (within 0.05 of it), from 1.0 up to 1024.0:
    the last 5 per cent of a unit's range are printed as 1024.0 of that
    unit, not as 1.0 of the next. *)
Theorem humanReadableSize_nearest_tenth (size : Z) :
  1024 <= size < 2 ^ 53 ->
  ∃ (k : nat) (c : ascii) (tenths : Z),
    b "KMGTPE" !! k = Some c ∧
    humanReadableSize size
    = Ok ((fmt_d (tenths / 10) +:+ "." +:+ fmt_d (tenths mod 10)) +:+ " "
          +:+ String c "B") ∧
    2 * Z.abs (10 * size - tenths * 1024 ^ (Z.of_nat k + 1)) <= 1024 ^ (Z.of_nat k + 1) ∧
    10 <= tenths <= 10240 ∧
    (tenths = 10240 ↔ 20479 * 1024 ^ (Z.of_nat k + 1) <= 20 * size).
Proof.
  intros [Hlo Hhi].
  destruct (humanReadableSize_large size) as (k & c & Hk & Hc & Hb & Hrun); [lia|].
  set (div := 1024 ^ (Z.of_nat k + 1)) in *.
  assert (0 < div) as Hdiv by (apply Z.pow_pos_nonneg; lia).
  rewrite float64_small in Hrun by lia.
  exists k, c, (nearestEven (10 * size) div).
  pose proof (nearestEven_near (10 * size) div Hdiv) as Hnear.
  assert (10 <= nearestEven (10 * size) div <= 10240) as Hrange.
  { replace (Z.of_nat k + 2) with (Z.succ (Z.of_nat k + 1)) in Hb by lia.
    rewrite Z.pow_succ_r in Hb by lia. fold div in Hb.
    pose proof (nearestEven_mono (10 * div) (10 * size) div Hdiv ltac:(lia)) as H1.
    pose proof (nearestEven_mono (10 * size) (10240 * div) div Hdiv ltac:(lia)) as H2.
    rewrite nearestEven_exact in H1, H2 by done. lia. }
  fold div. split; [done|]. split; [exact Hrun|]. split; [done|]. split; [done|].
  split.
  - intros E. rewrite E in Hnear. lia.
  - intros Hbig. destruct (decide (nearestEven (10 * size) div = 10240)) as [|Hne]; [done|].
    assert (nearestEven (10 * size) div <= 10239) as Hle by lia.
    (* at the middle between 1023.9 and 1024.0 the even tenth is 10240 *)
    assert (20 * size = 20479 * div ∨ 20479 * div < 20 * size) as [Hmid|Hup] by lia.
    + exfalso. revert Hne. unfold nearestEven.
      assert (10 * size = 10239 * div + div / 2 ∧ div mod 2 = 0) as [E Hev].
      { assert (div mod 2 = 0) as Hev.
        { unfold div. replace (Z.of_nat k + 1) with (Z.succ (Z.of_nat k)) by lia.
          rewrite Z.pow_succ_r by lia. replace (1024 * 1024 ^ Z.of_nat k)
            with ((512 * 1024 ^ Z.of_nat k) * 2) by lia. apply Z.mod_mul. lia. }
        split; [|done]. pose proof (Z.div_mod div 2 ltac:(lia)). lia. }
      pose proof (Z.div_mod div 2 ltac:(lia)) as Hd2.
      assert (0 <= div / 2 < div) as Hhalf by lia.
      assert ((10 * size) / div = 10239) as ->.
      { rewrite E. rewrite Z.add_comm, Z.div_add by lia. rewrite Z.div_small by lia. done. }
      assert ((10 * size) mod div = div / 2) as ->.
      { rewrite E. rewrite Z.add_comm, Z.mod_add by lia. by rewrite Z.mod_small by lia. }
      rewrite (proj2 (Z.ltb_ge _ _)) by lia.
      rewrite (proj2 (Z.ltb_ge _ _)) by lia. simpl. done.
    + exfalso. nia.
Qed.

(** X19 on an example: one byte below 1 MB. *)
Lemma humanReadableSize_nearest_tenth_witness :
  ∃ (k : nat) (c : ascii) (tenths : Z),
    b "KMGTPE" !! k = Some c ∧
    humanReadableSize 1048575
    = Ok ((fmt_d (tenths / 10) +:+ "." +:+ fmt_d (tenths mod 10)) +:+ " "
          +:+ String c "B") ∧
    2 * Z.abs (10 * 1048575 - tenths * 1024 ^ (Z.of_nat k + 1))
    <= 1024 ^ (Z.of_nat k + 1) ∧
    10 <= tenths <= 10240 ∧
    (tenths = 10240 ↔ 20479 * 1024 ^ (Z.of_nat k + 1) <= 20 * 1048575).
Proof. apply (humanReadableSize_nearest_tenth 1048575). lia. Defined.

(** 1048575 bytes are printed as 1024.0 KB, 1048576 bytes as 1.0 MB. *)
Example humanReadableSize_at_a_unit_boundary :
  humanReadableSize 1048575 = Ok "1024.0 KB" ∧
  humanReadableSize 1048576 = Ok "1.0 MB".
Proof. split; by vm_compute. Qed.

End human_readable.

(** ** More on the Reconciler *)

Lemma omap_fmap_option {A B C} (f : A -> option B) (g : B -> C) (l : list A) :
  omap (fun x => g <$> f x) l = g <$> omap f l.
Proof.
  induction l as [|x l IH]; [done|]. cbn [omap list_omap].
  destruct (f x); simpl; by rewrite IH.
Qed.

(** X5: Comparing in the other direction gives the same rows, in the same
    order, with the two digest columns exchanged. *)
Theorem dataRows_sides_exchanged (checksums1 checksums2 : gmap string string) :
  dataRows checksums2 checksums1 = swapped <$> dataRows checksums1 checksums2.
Proof.
  unfold dataRows, sortedFileNames, fileNames.
  rewrite (comm_L (∪) (dom checksums2) (dom checksums1)).
  rewrite <- omap_fmap_option. apply list_omap_ext.
  apply Forall2_same_length_lookup_2; [done|].
  intros i x y Hx Hy. rewrite Hx in Hy. injection Hy as <-.
  unfold dataRow. cbv zeta.
  destruct (decide (index checksums2 x ≠ index checksums1 x)),
           (decide (index checksums1 x ≠ index checksums2 x)); try done; congruence.
Qed.

(** X6: [diff.csv] has no data row exactly when the two stores agree on every
    name, a name that a store does not hold counting with the empty
    digest; in particular when a store is compared with itself. *)
Theorem dataRows_empty_iff_stores_agree (checksums1 checksums2 : gmap string string) :
  (dataRows checksums1 checksums2 = []
   ↔ forall name, index checksums1 name = index checksums2 name) ∧
  dataRows checksums1 checksums1 = [].
Proof.
  assert (forall c1 c2 : gmap string string,
            dataRows c1 c2 = [] ↔ forall name, index c1 name = index c2 name) as Hiff.
  { intros c1 c2. split.
    - intros Hnil name.
      destruct (decide (index c1 name = index c2 name)) as [|Hne]; [done|].
      assert ([name; index c1 name; index c2 name] ∈ dataRows c1 c2) as Hin.
      { apply elem_of_dataRows. exists name. split; [|done].
        unfold index in Hne.
        destruct (c1 !! name), (c2 !! name); simpl in Hne; eauto; done. }
      rewrite Hnil in Hin. by apply elem_of_nil in Hin.
    - intros Hall. destruct (dataRows c1 c2) as [|row rows] eqn:E; [done|].
      assert (row ∈ dataRows c1 c2) as Hin by (rewrite E; left).
      apply elem_of_dataRows in Hin as (name & _ & Hne & _).
      by destruct (Hne (Hall name)). }
  split; [apply Hiff|]. by apply Hiff.
Qed.

Lemma safe_Checksum (dir : string) : csv.safe dir -> csv.safe ("Checksum " +:+ dir).
Proof. intros Hd. unfold csv.safe in *. rewrite b_app. simpl. by rewrite Hd. Qed.

(** X7: What [generateCombinedCSV] wrote is read back by the reader of
    [compareFilesInCSV] as the header and the same rows, when neither a
    directory name nor a file name nor a digest has a CR directly before
    a LF. *)
Theorem diff_csv_is_read_back checksums1 checksums2 dir1 dir2 outputDir w w' :
  generateCombinedCSV checksums1 checksums2 dir1 dir2 outputDir w = (Ok tt, w') ->
  csv.safe dir1 -> csv.safe dir2 ->
  (forall name, name ∈ fileNames checksums1 checksums2 ->
     csv.safe name ∧ csv.safe (index checksums1 name)
     ∧ csv.safe (index checksums2 name)) ->
  ∃ r content,
    fs w' !! filepath_Join outputDir "diff.csv" = Some (File r content) ∧
    csv.ReadAll content = Some (headerRow dir1 dir2 :: dataRows checksums1 checksums2) ∧
    csv_ReadAll (filepath_Join outputDir "diff.csv") w'
    = (Ok (headerRow dir1 dir2 :: dataRows checksums1 checksums2), w').
Proof.
  intros Hgen Hd1 Hd2 Hsafe.
  apply generateCombinedCSV_Ok in Hgen as [r Hfile].
  assert (csv.ReadAll (csv.WriteAll (headerRow dir1 dir2 :: dataRows checksums1 checksums2))
          = Some (headerRow dir1 dir2 :: dataRows checksums1 checksums2)) as Hread.
  { apply (ReadAll_WriteAll 3); [lia| |].
    - constructor; [done|]. apply Forall_forall. intros row Hrow.
      apply elem_of_dataRows in Hrow as (name & _ & _ & ->). done.
    - constructor.
      + repeat constructor; by try apply safe_Checksum.
      + apply Forall_forall. intros row Hrow.
        apply elem_of_dataRows in Hrow as (name & Hin & _ & ->).
        destruct (Hsafe name) as (? & ? & ?).
        { unfold fileNames. rewrite elem_of_union, !elem_of_dom. done. }
        by repeat constructor. }
  eexists _, _. split; [exact Hfile|]. split; [done|].
  unfold csv_ReadAll. erewrite bind_Ok by (by eapply readAll_File).
  by rewrite Hread.
Qed.

(** ** More on the Checksum Store *)

(** *** Loading the cache *)

Lemma lastRow_Some name records r :
  lastRow name records = Some r -> r ∈ records ∧ head r = Some name.
Proof.
  induction records as [|record rest IH]; [done|]. simpl.
  destruct (lastRow name rest) as [r'|].
  - intros [= <-]. destruct IH as [Hin Hh]; [done|]. split; [by right|done].
  - destruct (decide (head record = Some name)); [|done].
    intros [= <-]. split; [by left|done].
Qed.

Lemma lastRow_None name records r :
  lastRow name records = None -> r ∈ records -> head r ≠ Some name.
Proof.
  induction records as [|record rest IH]; [by intros _ ?%elem_of_nil|]. simpl.
  destruct (lastRow name rest) as [r'|]; [done|].
  destruct (decide (head record = Some name)) as [|Hne]; [done|].
  intros _ [->|Hin]%elem_of_cons; [done|]. by apply IH.
Qed.

Lemma loadRecords_lookup records m0 m :
  loadRecords records m0 = Ok m ->
  forall name, m !! name = match lastRow name records with
                           | Some r => r !! 1%nat
                           | None => m0 !! name
                           end.
Proof.
  revert m0. induction records as [|record rest IH]; intros m0; simpl.
  - by intros [= <-].
  - destruct record as [|record0 [|record1 more]]; [done..|].
    intros Hrest name. rewrite (IH _ Hrest name).
    destruct (lastRow name rest); [done|]. simpl.
    destruct (decide (Some record0 = Some name)) as [[= ->]|Hne].
    + by rewrite lookup_insert_eq.
    + rewrite lookup_insert_ne; [done|]. by intros ->.
Qed.

Lemma loadRecords_cases records m0 :
  match loadRecords records m0 with
  | Ok _ => Forall (fun r : list string => 2 <= length r) records
  | Panic _ => Exists (fun r : list string => length r < 2) records
  | Err _ => False
  end.
Proof.
  revert m0. induction records as [|record rest IH]; intros m0; simpl; [done|].
  destruct record as [|record0 [|record1 more]].
  - left. simpl. lia.
  - left. simpl. lia.
  - specialize (IH (<[record0 := record1]> m0)).
    destruct (loadRecords rest _).
    + constructor; [simpl; lia|done].
    + done.
    + by right.
Qed.

Section more_on_checksums.
Context `{Externals}.

(** X3: A cache file that parses into records of two fields and more is
    loaded as it is, without a look at the directory: of two records with
    the same name the later one counts, and fields after the second are
    dropped. *)
Theorem cached_build_takes_last_row dir outputDir w content records :
  fs w !! csvFileOf dir outputDir = Some (File true content) ->
  csv.ReadAll content = Some records ->
  Forall (fun r : list string => 2 <= length r) records ->
  ∃ m, generateChecksums dir true outputDir w = (Ok m, w) ∧
       forall name, m !! name = r ← lastRow name records; r !! 1%nat.
Proof.
  intros Hfile Hread Hall.
  pose proof (loadRecords_cases records ∅) as Hcases.
  destruct (loadRecords records ∅) as [m| |msg] eqn:Hload; [|done|].
  2:{ apply Exists_exists in Hcases as (r & Hin & Hr).
      rewrite Forall_forall in Hall.
      specialize (Hall r Hin). lia. }
  exists m. split.
  - unfold generateChecksums.
    erewrite bind_Ok by (eapply attempt_Ok; by eapply os_Open_File).
    cbv beta iota.
    erewrite bind_Ok; cycle 1.
    { eapply attempt_Ok. unfold csv_ReadAll.
      erewrite bind_Ok by (by eapply readAll_File). by rewrite Hread. }
    cbv beta iota. by rewrite Hload.
  - intros name. rewrite (loadRecords_lookup _ _ _ Hload name).
    by destruct (lastRow name records).
Qed.

(** *** What a build changes *)

Lemma changedOnly_refl name w : changedOnly name w w.
Proof. by split_and!. Qed.

Lemma changedOnly_trans name w1 w2 w3 :
  changedOnly name w1 w2 -> changedOnly name w2 w3 -> changedOnly name w1 w3.
Proof.
  unfold changedOnly, sameProcess.
  intros (Hf & (A1 & A2 & A3 & A4) & Hp) (Hf' & (B1 & B2 & B3 & B4) & Hp').
  split_and!; try congruence. by etrans.
Qed.

Lemma delete_appendTo (f : fsys) name data :
  delete name (appendTo f name data) = delete name f.
Proof. unfold appendTo. destruct (f !! name) as [[]|]; apply delete_insert_eq. Qed.

Lemma changedOnly_Printf name s w : changedOnly name w (snd (Printf s w)).
Proof. split_and!; try done. simpl. by apply prefix_app_r. Qed.

Lemma checksumFiles_changedOnly dir csvFile files m w :
  changedOnly csvFile w (snd (checksumFiles dir csvFile files m w)).
Proof.
  revert m w. induction files as [|file files IH]; intros m w.
  { apply changedOnly_refl. }
  simpl. destruct (IsDir file); [apply IH|].
  unfold bind at 1.
  pose proof (fileChecksum_cases w (filepath_Join dir (Name file))) as Hc.
  destruct (fs w !! filepath_Join dir (Name file)) as [[[] data|]|];
    [|destruct Hc as [e' ->]; apply changedOnly_refl..].
  rewrite Hc. unfold bind at 1.
  destruct (updateCSV_cases w csvFile (Name file) (md5hex data)) as [-> | [e' ->]];
    [|apply changedOnly_refl].
  unfold bind at 1. rewrite Printf_run.
  eapply changedOnly_trans; [|apply IH].
  split_and!; try done.
  - simpl. apply delete_appendTo.
  - simpl. by apply prefix_app_r.
Qed.

Lemma ReadDir_unchanged dir w : snd (ioutil_ReadDir dir w) = w.
Proof.
  unfold ioutil_ReadDir, bind, get_fs. destruct (decide _); [done|].
  by destruct (fs w !! dir) as [[]|].
Qed.

Lemma regenerate_changedOnly dir csvFile w :
  changedOnly csvFile w (snd (regenerate dir csvFile w)).
Proof.
  unfold regenerate. unfold bind at 1.
  pose proof (ReadDir_unchanged dir w) as Hrd.
  destruct (ioutil_ReadDir dir w) as [[files|e|msg] w0]; simpl in Hrd; subst w0;
    [|apply changedOnly_refl..].
  unfold bind at 1.
  pose proof (checksumFiles_changedOnly dir csvFile files ∅ w) as Hloop.
  destruct (checksumFiles dir csvFile files ∅ w) as [[m|e|msg] w1]; simpl in Hloop;
    [|done..].
  unfold bind at 1. rewrite Printf_run. simpl.
  eapply changedOnly_trans; [exact Hloop|].
  split_and!; try done. simpl. by apply prefix_app_r.
Qed.

(** X2: Whatever it returns, [generateChecksums] leaves every file but the
    cache file as it was (it writes nothing into the directory it reads),
    and it only adds lines to the output. *)
Theorem generateChecksums_changes_cache_only dir useCache outputDir w :
  changedOnly (csvFileOf dir outputDir) w
    (snd (generateChecksums dir useCache outputDir w)).
Proof.
  unfold generateChecksums. set (csvFile := csvFileOf dir outputDir).
  destruct useCache.
  - destruct (fs w !! csvFile) as [[[] data|]|] eqn:E.
    + erewrite bind_Ok by (eapply attempt_Ok; by eapply os_Open_File).
      cbv beta iota.
      assert (csv_ReadAll csvFile w
              = (match csv.ReadAll data with
                 | Some records => Ok records
                 | None => Err ParseError
                 end, w)) as Hread.
      { unfold csv_ReadAll. erewrite bind_Ok by (by eapply readAll_File).
        by destruct (csv.ReadAll data). }
      destruct (csv.ReadAll data).
      * erewrite bind_Ok by (by eapply attempt_Ok). apply changedOnly_refl.
      * erewrite bind_Ok by (by eapply attempt_Err). apply regenerate_changedOnly.
    + assert (os_Open csvFile w = (Err (PathError "open" csvFile EACCES), w)) as Hopen
        by (unfold os_Open, bind, get_fs; by rewrite E).
      erewrite bind_Ok by (by eapply attempt_Err). apply regenerate_changedOnly.
    + assert (os_Open csvFile w = (Ok csvFile, w)) as Hopen
        by (unfold os_Open, bind, get_fs; by rewrite E).
      erewrite bind_Ok by (by eapply attempt_Ok). cbv beta iota.
      assert (csv_ReadAll csvFile w = (Err (PathError "read" csvFile EISDIR), w))
        as Hread by (unfold csv_ReadAll, bind, readAll, bind, get_fs; by rewrite E).
      erewrite bind_Ok by (by eapply attempt_Err). apply regenerate_changedOnly.
    + assert (os_Open csvFile w
              = (Err (PathError "open" csvFile (absentErrno (fs w) csvFile)), w))
        as Hopen by (by apply os_Open_None).
      erewrite bind_Ok by (by eapply attempt_Err). apply regenerate_changedOnly.
  - destruct (os_Remove_cases w csvFile) as [[e He] | [_ Hok]].
    + erewrite bind_Ok by (by eapply try_Err). cbv beta iota.
      destruct (os_IsNotExist e); simpl;
        [apply regenerate_changedOnly|apply changedOnly_refl].
    + erewrite bind_Ok by (by eapply try_Ok). cbv beta iota.
      eapply changedOnly_trans; [|apply regenerate_changedOnly].
      split_and!; try done. simpl. apply delete_delete_eq.
Qed.

End more_on_checksums.

(** *** The entries of a directory *)

Lemma stripPrefix_app (p s : bytes) : stripPrefix p (p ++ s) = Some s.
Proof. induction p as [|c p IH]; [done|]. simpl. by rewrite decide_True. Qed.

Lemma b_Join (dir name : string) :
  dir ≠ "" -> name ≠ "" -> b (filepath_Join dir name) = (b dir ++ [SLASH]) ++ b name.
Proof.
  intros Hd Hn. unfold filepath_Join. rewrite !decide_False by done.
  rewrite !b_app. by rewrite <- app_assoc.
Qed.

Lemma childName_of_Join (dir name : string) :
  dir ≠ "" -> name ≠ "" -> SLASH ∉ b name ->
  childName dir (filepath_Join dir name) = Some name.
Proof.
  intros Hd Hn Hs. unfold childName. rewrite b_Join by done.
  rewrite stripPrefix_app. simpl.
  rewrite decide_True; [by rewrite str_b|].
  split; [|done]. intros E. apply Hn. by rewrite <- (str_b name), E.
Qed.

Lemma childName_no_slash (dir key name : string) :
  childName dir key = Some name -> SLASH ∉ b name.
Proof.
  unfold childName. destruct (stripPrefix _ _) as [rest|]; [|done]. simpl.
  destruct (decide _) as [[_ Hs]|]; [|done]. intros [= <-]. by rewrite b_str.
Qed.

Lemma Name_fileInfo name n : Name (fileInfo name n) = name.
Proof. by destruct n. Qed.

(** [ioutil.ReadDir] lists the entries directly in the directory, and
    nothing else. *)
Lemma ReadDir_lists w dir files :
  ioutil_ReadDir dir w = (Ok files, w) ->
  dir ≠ "" ∧
  forall e, e ∈ files ↔
    ∃ name n, name ≠ "" ∧ (SLASH ∉ b name) ∧
              fs w !! filepath_Join dir name = Some n ∧ e = fileInfo name n.
Proof.
  unfold ioutil_ReadDir, bind, get_fs. destruct (decide (dir = "")) as [|Hd]; [done|].
  destruct (fs w !! dir) as [[]|]; [done| |done]. intros [= <-]. split; [done|].
  intros e. rewrite merge_sort_Permutation, list_elem_of_omap. split.
  - intros ((key & nd) & Hin & He). apply elem_of_map_to_list in Hin.
    unfold dirEntry in He. simpl in He.
    destruct (childName dir key) as [name|] eqn:Ec; [|done]. simpl in He.
    injection He as <-.
    pose proof (childName_no_slash _ _ _ Ec) as Hs.
    apply childName_Join in Ec as [Hne ->]; [|done]. by exists name, nd.
  - intros (name & n & Hne & Hs & Hn & ->).
    exists (filepath_Join dir name, n). split; [by apply elem_of_map_to_list|].
    unfold dirEntry. simpl. by rewrite childName_of_Join.
Qed.

Lemma Forall2_elem_l {A B} (P : A -> B -> Prop) (l : list A) (k : list B) x :
  Forall2 P l k -> x ∈ l -> ∃ y, y ∈ k ∧ P x y.
Proof.
  induction 1 as [|a c l k Hac _ IH]; [by intros ?%elem_of_nil|].
  intros [->|Hin]%elem_of_cons.
  - exists c. split; [by left|done].
  - destruct (IH Hin) as (y & Hy & HP). exists y. split; [by right|done].
Qed.

Lemma Forall2_elem_r {A B} (P : A -> B -> Prop) (l : list A) (k : list B) y :
  Forall2 P l k -> y ∈ k -> ∃ x, x ∈ l ∧ P x y.
Proof.
  induction 1 as [|a c l k Hac _ IH]; [by intros ?%elem_of_nil|].
  intros [->|Hin]%elem_of_cons.
  - exists a. split; [by left|done].
  - destruct (IH Hin) as (x & Hx & HP). exists x. split; [by right|done].
Qed.

Section store_content.
Context `{Externals}.

(** What [regenerate] returns and leaves, when the cache file is not an
    entry of the directory or is not there. *)
Lemma regenerate_mapping dir csvFile w m w1 :
  regenerate dir csvFile w = (Ok m, w1) ->
  fs w !! csvFile = None ∨ childName dir csvFile = None ->
  (forall name d,
     m !! name = Some d ↔
     name ≠ "" ∧ (SLASH ∉ b name) ∧
     ∃ data, fs w !! filepath_Join dir name = Some (File true data)
             ∧ d = md5hex data) ∧
  ∃ rows, m = recorded ∅ rows ∧ Forall (fun r => length r = 2) rows ∧
          fs w1 = withRows (fs w) csvFile rows.
Proof.
  intros Hregen Hcache.
  apply regenerate_Ok_inv in Hregen as (files & w' & Hrd & Hloop & Hfs).
  destruct (ReadDir_lists _ _ _ Hrd) as [Hdir Hlist].
  apply checksumFiles_Ok in Hloop as (rows & Hrows & -> & _ & Hfs').
  2:{ intros file Hin _. destruct Hcache as [Hnone|Hnot].
      - by eapply listed_not_csvFile.
      - apply Hlist in Hin as (name & n & Hne & Hs & _ & ->).
        rewrite Name_fileInfo. intros E. rewrite <- E in Hnot.
        by rewrite childName_of_Join in Hnot. }
  pose proof (rows_two_fields _ _ _ _ Hrows) as Htwo.
  split; [|exists rows; split_and!; [done|done|congruence]].
  pose proof (loadRecords_recorded rows ∅ Htwo) as Hload.
  pose proof (loadRecords_lookup _ _ _ Hload) as Hlookup.
  assert (forall row, row ∈ rows ->
            ∃ name data, name ≠ "" ∧ (SLASH ∉ b name) ∧
              fs w !! filepath_Join dir name = Some (File true data) ∧
              row = [name; md5hex data]) as Hrow.
  { intros row Hin.
    destruct (Forall2_elem_r _ _ _ _ Hrows Hin) as (file & Hfile & data & Hdata & ->).
    apply list_elem_of_filter in Hfile as [_ Hfile].
    apply Hlist in Hfile as (name & n & Hne & Hs & _ & ->).
    rewrite Name_fileInfo in *. by exists name, data. }
  intros name d. rewrite Hlookup. split.
  - destruct (lastRow name rows) as [r|] eqn:El; [|done].
    intros Hd. apply lastRow_Some in El as [Hin Hhead].
    destruct (Hrow r Hin) as (name' & data & Hne & Hs & Hdata & ->).
    injection Hhead as ->. injection Hd as <-. eauto.
  - intros (Hne & Hs & data & Hdata & ->).
    assert (fileInfo name (File true data) ∈ files) as Hin.
    { apply Hlist. by exists name, (File true data). }
    assert (fileInfo name (File true data)
              ∈ filter (fun file => IsDir file = false) files) as Hin'.
    { by apply list_elem_of_filter. }
    destruct (Forall2_elem_l _ _ _ _ Hrows Hin') as (row & Hrow' & data' & Hdata' & ->).
    simpl in Hdata'. rewrite Hdata in Hdata'. injection Hdata' as <-. simpl in Hrow'.
    destruct (lastRow name rows) as [r|] eqn:El.
    + apply lastRow_Some in El as [Hr Hhead].
      destruct (Hrow r Hr) as (name' & data' & _ & _ & Hdata' & ->).
      injection Hhead as ->. rewrite Hdata in Hdata'. by injection Hdata' as <-.
    + by destruct (lastRow_None _ _ _ El Hrow').
Qed.

(** X1: A build without the cache that succeeds returns the regular files
    directly in the directory, each with the digest of its content, and
    nothing else: no directory, no entry of a subdirectory, and not the
    cache file itself. *)
Theorem fresh_build_maps_the_regular_files dir outputDir w m w1 :
  generateChecksums dir false outputDir w = (Ok m, w1) ->
  forall name d,
    m !! name = Some d ↔
    name ≠ "" ∧ (SLASH ∉ b name) ∧
    filepath_Join dir name ≠ csvFileOf dir outputDir ∧
    ∃ data, fs w !! filepath_Join dir name = Some (File true data)
            ∧ d = md5hex data.
Proof.
  intros Hbuild name d.
  set (csvFile := csvFileOf dir outputDir) in *.
  assert (∃ w0, regenerate dir csvFile w0 = (Ok m, w1) ∧ fs w0 !! csvFile = None ∧
                forall path, path ≠ csvFile -> fs w0 !! path = fs w !! path)
    as (w0 & Hregen & Hnone & Hsame).
  { destruct (generateChecksums_fresh_cases dir outputDir w)
      as [(e & _ & _ & Hg) | (_ & Hnone & Hg)]; [congruence|].
    exists (set_fs (delete csvFile) w). split; [|split; [exact Hnone|]].
    - unfold csvFile. by rewrite <- Hg.
    - intros path Hp. simpl. by apply lookup_delete_ne. }
  destruct (regenerate_mapping _ _ _ _ _ Hregen (or_introl Hnone)) as [Hmap _].
  rewrite Hmap. split.
  - intros (Hne & Hs & data & Hdata & ->).
    assert (filepath_Join dir name ≠ csvFile) as Hp by congruence.
    rewrite Hsame in Hdata by done. eauto 10.
  - intros (Hne & Hs & Hp & data & Hdata & ->).
    rewrite <- Hsame in Hdata by done. eauto 10.
Qed.

(** X4: A cache file that does not parse is neither loaded nor reset: the
    build goes through the directory as a build without the cache does,
    returns the regular files with their digests, and appends their rows
    after the text that did not parse (the cache file outside the
    directory). *)
Theorem unparsable_cache_is_kept_and_extended dir outputDir w content m w1 :
  fs w !! csvFileOf dir outputDir = Some (File true content) ->
  csv.ReadAll content = None ->
  childName dir (csvFileOf dir outputDir) = None ->
  generateChecksums dir true outputDir w = (Ok m, w1) ->
  (forall name d,
     m !! name = Some d ↔
     name ≠ "" ∧ (SLASH ∉ b name) ∧
     ∃ data, fs w !! filepath_Join dir name = Some (File true data)
             ∧ d = md5hex data) ∧
  ∃ rows, m = recorded ∅ rows ∧
          fs w1 = <[csvFileOf dir outputDir := File true (content ++ csv.WriteAll rows)]>
                    (fs w).
Proof.
  intros Hfile Hread Hout Hbuild.
  rewrite (malformed_csv_regenerates _ _ _ _ Hfile Hread) in Hbuild.
  destruct (regenerate_mapping _ _ _ _ _ Hbuild (or_intror Hout))
    as (Hmap & rows & -> & _ & Hfs).
  split; [done|]. exists rows. split; [done|]. rewrite Hfs.
  unfold withRows, appendTo. rewrite Hfile.
  destruct (decide (rows = [])) as [->|]; [|done].
  change (csv.WriteAll []) with (@nil ascii). rewrite app_nil_r.
  by rewrite insert_id.
Qed.

End store_content.

(** ** More on the Diff Engine *)

Section more_on_diffs.
Context `{Externals}.

(** X15: [readFileInChunks] returns the whole content of a readable regular
    file, whatever its length is next to the buffer (and the loop would
    with any buffer that is not empty); the world is left as it was. A
    directory can be opened and fails at the first read; a path that is
    not there fails at [os.Open], with "not a directory" when it lies
    under a regular file and "no such file or directory" otherwise. *)
Theorem readFileInChunks_returns_whole_file path w :
  readFileInChunks path w
  = (match fs w !! path with
     | Some (File true data) => Ok data
     | Some (File false _) => Err (PathError "open" path EACCES)
     | Some Dir => Err (PathError "read" path EISDIR)
     | None => Err (PathError "open" path (absentErrno (fs w) path))
     end, w) ∧
  (forall (size : nat) (data : bytes), 0 < size -> readChunks size data [] = data).
Proof.
  split.
  - unfold readFileInChunks, os_Open, bind, get_fs.
    destruct (fs w !! path) as [[[] data|]|] eqn:E; simpl; rewrite ?E; try done.
    unfold ret. by rewrite readChunks_all by apply bufSize_pos.
  - intros size data Hsize. by rewrite readChunks_all.
Qed.

(** *** [copyFile] *)

(** X13: A copy onto the file itself (the two cleaned paths are the same)
    succeeds and leaves the file empty: [os.Create] truncates it before
    [io.Copy] reads it. *)
Theorem copyFile_onto_itself_empties src dst w data :
  filepath_Clean dst = filepath_Clean src ->
  fs w !! filepath_Clean src = Some (File true data) ->
  copyFile src dst w
  = (Ok tt, printed ["# File copied from " +:+ src +:+ " to " +:+ dst +:+ nl]
              (set_fs <[filepath_Clean src := File true []]> w)).
Proof.
  intros Hsame Hsrc. unfold copyFile. rewrite Hsame.
  erewrite bind_Ok by (by eapply os_Open_File).
  erewrite bind_Ok by (by eapply os_Create_truncate).
  erewrite bind_Ok; cycle 1.
  { eapply readAll_File. simpl. apply lookup_insert_eq. }
  erewrite bind_Ok; cycle 1.
  { eapply file_Write_File. simpl. apply lookup_insert_eq. }
  rewrite Printf_run. unfold printed, set_fs. simpl. by rewrite insert_insert_eq.
Qed.

(** X14: How [copyFile] fails. A source that cannot be opened leaves
    everything as it was: the destination is neither created nor
    truncated; so does a destination that is a directory or a file that
    cannot be read. A source that is a directory is opened, and the copy
    fails at the first read, after the destination was created: an empty
    file stays behind. *)
Theorem copyFile_failures src dst w :
  (fs w !! filepath_Clean src = None ->
   copyFile src dst w
   = (Err (PathError "open" (filepath_Clean src)
             (absentErrno (fs w) (filepath_Clean src))), w)) ∧
  (forall data, fs w !! filepath_Clean src = Some (File false data) ->
   copyFile src dst w = (Err (PathError "open" (filepath_Clean src) EACCES), w)) ∧
  (forall data, fs w !! filepath_Clean src = Some (File true data) ->
   fs w !! filepath_Clean dst = Some Dir ->
   copyFile src dst w = (Err (PathError "open" (filepath_Clean dst) EISDIR), w)) ∧
  (forall data old, fs w !! filepath_Clean src = Some (File true data) ->
   fs w !! filepath_Clean dst = Some (File false old) ->
   copyFile src dst w = (Err (PathError "open" (filepath_Clean dst) EACCES), w)) ∧
  (fs w !! filepath_Clean src = Some Dir ->
   fs w !! filepath_Clean dst = None -> filepath_Clean dst ≠ "" ->
   parentError (fs w) (filepath_Clean dst) = None ->
   ∃ e, copyFile src dst w
        = (Err e, set_fs <[filepath_Clean dst := File true []]> w)).
Proof.
  split_and!.
  - intros Hsrc. unfold copyFile. by erewrite bind_Err by (by eapply os_Open_None).
  - intros data Hsrc. unfold copyFile, os_Open. unfold bind at 1. unfold bind at 1.
    unfold get_fs. by rewrite Hsrc.
  - intros data Hsrc Hdst. unfold copyFile.
    erewrite bind_Ok by (by eapply os_Open_File).
    by erewrite bind_Err by (by eapply os_Create_Dir).
  - intros data old Hsrc Hdst. unfold copyFile.
    erewrite bind_Ok by (by eapply os_Open_File).
    by erewrite bind_Err by (by eapply os_Create_unreadable).
  - intros Hsrc Hdst Hne Hpar. unfold copyFile.
    assert (os_Open (filepath_Clean src) w = (Ok (filepath_Clean src), w)) as Hopen
      by (unfold os_Open, bind, get_fs; by rewrite Hsrc).
    erewrite bind_Ok by exact Hopen.
    erewrite bind_Ok by (by eapply os_Create_new).
    assert (filepath_Clean dst ≠ filepath_Clean src) as Hd by congruence.
    eexists. erewrite bind_Err; [done|].
    unfold readAll, bind, get_fs. simpl. rewrite lookup_insert_ne by done.
    by rewrite Hsrc.
Qed.

(** *** The loop of [compareFilesInCSV] *)

Lemma compareRecords_app dir1 dir2 sizeLimit lineLimit diffDir done rest diffCount w :
  compareRecords dir1 dir2 sizeLimit lineLimit diffDir (done ++ rest) diffCount w
  = bind (compareRecords dir1 dir2 sizeLimit lineLimit diffDir done diffCount)
         (fun n => compareRecords dir1 dir2 sizeLimit lineLimit diffDir rest n) w.
Proof.
  revert diffCount w. induction done as [|record done IH]; intros diffCount w; [done|].
  simpl. unfold bind in *.
  destruct (compareRecord _ _ _ _ _ _ _ _) as [[n|e|msg] w1]; [|done..].
  apply IH.
Qed.

Lemma compareRecord_Ok dir1 dir2 sizeLimit lineLimit diffDir record diffCount w n w' :
  compareRecord dir1 dir2 sizeLimit lineLimit diffDir record diffCount w = (Ok n, w') ->
  n = int_add diffCount 1.
Proof.
  unfold compareRecord. destruct record as [|record0 fields]; [done|].
  intros (err1 & w1 & _ & Hrest)%bind_Ok_inv.
  apply bind_Ok_inv in Hrest as (err2 & w2 & _ & Hrest).
  apply bind_Ok_inv in Hrest as ([] & w3 & _ & Hret).
  by injection Hret as <- <-.
Qed.

Lemma wrap_wrap_add (x y : Z) : wrap (wrap x + y) = wrap (x + y).
Proof.
  unfold wrap. f_equal.
  replace ((x + 2 ^ 63) mod 2 ^ 64 - 2 ^ 63 + y + 2 ^ 63)%Z
    with ((x + 2 ^ 63) mod 2 ^ 64 + y)%Z by lia.
  rewrite Zplus_mod_idemp_l. f_equal. lia.
Qed.

Lemma wrap_wrap (x : Z) : wrap (wrap x) = wrap x.
Proof.
  rewrite <- (Z.add_0_r (wrap x)). rewrite wrap_wrap_add. by rewrite !Z.add_0_r.
Qed.

Lemma compareRecords_Ok dir1 dir2 sizeLimit lineLimit diffDir records diffCount w n w' :
  compareRecords dir1 dir2 sizeLimit lineLimit diffDir records diffCount w = (Ok n, w') ->
  wrap n = wrap (diffCount + Z.of_nat (length records)) ∧
  (records = [] -> n = diffCount) ∧ (records ≠ [] -> wrap n = n).
Proof.
  revert diffCount w. induction records as [|record records IH]; intros diffCount w.
  - simpl. intros [= <- <-]. rewrite Z.add_0_r. done.
  - simpl. intros (n1 & w1 & H1 & Hrest)%bind_Ok_inv.
    apply compareRecord_Ok in H1 as ->.
    destruct (IH _ _ Hrest) as (Hn & Hnil & Hcons). split_and!.
    + rewrite Hn. unfold int_add. rewrite wrap_wrap_add. f_equal. lia.
    + done.
    + intros _. destruct records as [|r rs].
      * rewrite Hnil by done. unfold int_add. apply wrap_wrap.
      * by apply Hcons.
Qed.

(** X9: The count [compareFilesInCSV] returns is the number of records of
    [diff.csv] after the header: every record that was resolved counts,
    whether it was copied or compared and whether its diff is empty or
    not. *)
Theorem compareFilesInCSV_counts_the_rows dir1 dir2 sizeLimit lineLimit outputDir
    w n w' :
  compareFilesInCSV dir1 dir2 sizeLimit lineLimit outputDir w = (Ok n, w') ->
  ∃ content header rows,
    fs w !! filepath_Join outputDir "diff.csv" = Some (File true content) ∧
    csv.ReadAll content = Some (header :: rows) ∧
    n = wrap (Z.of_nat (length rows)) ∧
    (Z.of_nat (length rows) < 2 ^ 63 -> n = Z.of_nat (length rows))%Z.
Proof.
  unfold compareFilesInCSV. set (p := filepath_Join outputDir "diff.csv").
  intros (file & w1 & Hopen & Hrest)%bind_Ok_inv.
  assert (file = p ∧ w1 = w ∧ (is_Some (fs w !! p))) as (-> & -> & Hsome).
  { unfold os_Open, bind, get_fs in Hopen.
    destruct (fs w !! p) as [[[] data|]|]; try done; by injection Hopen as <- <-. }
  apply bind_Ok_inv in Hrest as (records & w1 & Hread & Hrest).
  assert (∃ content, fs w !! p = Some (File true content)
                     ∧ csv.ReadAll content = Some records ∧ w1 = w)
    as (content & Hfile & Hparse & ->).
  { unfold csv_ReadAll in Hread.
    apply bind_Ok_inv in Hread as (content & w2 & Hall & Hparse).
    unfold readAll, bind, get_fs in Hall.
    unfold os_Open, bind, get_fs in Hopen.
    destruct (fs w !! p) as [[[] data|]|]; try done.
    injection Hall as <- <-. exists data.
    destruct (csv.ReadAll data); [|done]. by injection Hparse as <- <-. }
  apply bind_Ok_inv in Hrest as ([] & w2 & _ & Hrest).
  apply bind_Ok_inv in Hrest as ([] & w3 & _ & Hrest).
  destruct records as [|header rows]; [done|].
  apply bind_Ok_inv in Hrest as (n' & w4 & Hloop & Hrest).
  apply bind_Ok_inv in Hrest as ([] & w5 & _ & Hret). injection Hret as <- <-.
  exists content, header, rows. split; [done|]. split; [done|].
  destruct (compareRecords_Ok _ _ _ _ _ _ _ _ _ _ Hloop) as (Hn & Hnil & Hcons).
  assert (n' = wrap (Z.of_nat (length rows))) as Hcount.
  { destruct rows as [|r rs].
    - by rewrite Hnil.
    - rewrite <- Hcons by done. by rewrite Hn. }
  split; [done|]. intros Hsmall. rewrite Hcount. apply wrap_small. lia.
Qed.

(** X10: The loop stops at the first record that fails: the error is
    returned with the world as that record left it, what was done for the
    records before it stays, and the records after it are not looked
    at. *)
Theorem compareRecords_stops_at_first_failure dir1 dir2 sizeLimit lineLimit diffDir
    done bad later diffCount w n w1 e w2 :
  compareRecords dir1 dir2 sizeLimit lineLimit diffDir done diffCount w = (Ok n, w1) ->
  compareRecord dir1 dir2 sizeLimit lineLimit diffDir bad n w1 = (Err e, w2) ->
  compareRecords dir1 dir2 sizeLimit lineLimit diffDir (done ++ bad :: later)
    diffCount w = (Err e, w2).
Proof.
  intros Hdone Hbad. rewrite compareRecords_app.
  erewrite bind_Ok by exact Hdone. simpl. by erewrite bind_Err by exact Hbad.
Qed.

(** X11: A record whose file is on neither side (a stale row, or a file that
    was removed after the digests were taken) is not skipped, and the
    comparison ends with an error. When [os.Stat] reports the first path
    as not existing, the record is taken as "only in the second
    directory", and the copy fails at opening the file there. When the
    first path fails in another way (it lies under a regular file: "not a
    directory") and the second is reported as not existing, the record is
    taken as "only in the first directory", and the copy fails at opening
    the first path. When both fail in another way the record goes to
    [generateDiff], which fails too. *)
Theorem record_without_files_fails dir1 dir2 sizeLimit lineLimit diffDir name rest
    diffCount w :
  let file1 := filepath_Join dir1 name in
  let file2 := filepath_Join dir2 name in
  let run := compareRecord dir1 dir2 sizeLimit lineLimit diffDir (name :: rest)
               diffCount w in
  fs w !! file1 = None -> fs w !! file2 = None ->
  filepath_Clean file1 = file1 -> filepath_Clean file2 = file2 ->
  (absentErrno (fs w) file1 = ENOENT ->
   run = (Err (PathError "open" file2 (absentErrno (fs w) file2)), w)) ∧
  (absentErrno (fs w) file1 ≠ ENOENT -> absentErrno (fs w) file2 = ENOENT ->
   run = (Err (PathError "open" file1 (absentErrno (fs w) file1)), w)) ∧
  (∃ e, fst run = Err e).
Proof.
  intros file1 file2 run H1 H2 Hclean1 Hclean2.
  assert (forall file, fs w !! file = None -> filepath_Clean file = file ->
            forall dst, copyFile file dst w
                        = (Err (PathError "open" file (absentErrno (fs w) file)), w))
    as Hcopy.
  { intros file Hfile Hclean dst. unfold copyFile. rewrite Hclean.
    by erewrite bind_Err by (by eapply os_Open_None). }
  assert (run = bind (if os_IsNotExist (PathError "stat" file1 (absentErrno (fs w) file1))
                      then copyFile file2 (filepath_Join diffDir name)
                      else if os_IsNotExist (PathError "stat" file2
                                               (absentErrno (fs w) file2))
                      then copyFile file1 (filepath_Join diffDir name)
                      else generateDiff file1 file2
                             (filepath_Join diffDir (name +:+ ".diff"))
                             (int_mul (int_mul sizeLimit 1024) 1024) lineLimit)
                     (fun _ => ret (int_add diffCount 1)) w) as Hrun.
  { unfold run, compareRecord. fold file1 file2.
    erewrite bind_Ok by (eapply try_Err; by apply os_Stat_None).
    by erewrite bind_Ok by (eapply try_Err; by apply os_Stat_None). }
  assert (absentErrno (fs w) file1 = ENOENT ->
          run = (Err (PathError "open" file2 (absentErrno (fs w) file2)), w)) as Hfirst.
  { intros Hgone. rewrite Hrun, Hgone. cbn [os_IsNotExist].
    by erewrite bind_Err by (by apply Hcopy). }
  assert (absentErrno (fs w) file1 ≠ ENOENT -> absentErrno (fs w) file2 = ENOENT ->
          run = (Err (PathError "open" file1 (absentErrno (fs w) file1)), w)) as Hsecond.
  { intros Hnot Hgone. rewrite Hrun, Hgone.
    assert (os_IsNotExist (PathError "stat" file1 (absentErrno (fs w) file1)) = false)
      as -> by (by destruct (absentErrno (fs w) file1)).
    cbn [os_IsNotExist]. by erewrite bind_Err by (by apply Hcopy). }
  split; [done|]. split; [done|].
  destruct (decide (absentErrno (fs w) file1 = ENOENT)) as [Hgone1|Hnot1].
  { rewrite (Hfirst Hgone1). eauto. }
  destruct (decide (absentErrno (fs w) file2 = ENOENT)) as [Hgone2|Hnot2].
  { rewrite (Hsecond Hnot1 Hgone2). eauto. }
  rewrite Hrun.
  assert (os_IsNotExist (PathError "stat" file1 (absentErrno (fs w) file1)) = false)
    as -> by (by destruct (absentErrno (fs w) file1)).
  assert (os_IsNotExist (PathError "stat" file2 (absentErrno (fs w) file2)) = false)
    as -> by (by destruct (absentErrno (fs w) file2)).
  set (diffFile := filepath_Join diffDir (name +:+ ".diff")).
  assert (∃ e, fst (generateDiff file1 file2 diffFile
                      (int_mul (int_mul sizeLimit 1024) 1024) lineLimit w) = Err e)
    as [e He].
  { unfold generateDiff.
    assert (forall w', fs w' !! file1 = None ->
              forall K : FileInfo -> M unit,
                ∃ e, fst (bind (os_Stat file1) K w') = Err e) as Hstat.
    { intros w' Hw' K. erewrite bind_Err by (by apply os_Stat_None). eauto. }
    assert (snd (os_Stat diffFile w) = w) as Hw.
    { unfold os_Stat, bind, get_fs, lift. by destruct (stat (fs w) diffFile). }
    destruct (os_Stat diffFile w) as [[info|e|msg] w1] eqn:Ed; simpl in Hw; subst w1.
    - erewrite bind_Ok by (by eapply try_Ok). cbv beta iota.
      destruct (os_Remove_cases w diffFile) as [[e He] | [_ Hok]].
      + erewrite bind_Err; [simpl; eauto|].
        by erewrite bind_Ok by (by eapply try_Err).
      + erewrite bind_Ok; cycle 1.
        { by erewrite bind_Ok by (by eapply try_Ok). }
        apply Hstat. simpl.
        destruct (decide (diffFile = file1)) as [->|Hne].
        * apply lookup_delete_eq.
        * by rewrite lookup_delete_ne.
    - erewrite bind_Ok by (by eapply try_Err). cbv beta iota.
      erewrite bind_Ok by done. by apply Hstat.
    - unfold os_Stat, bind, get_fs, lift in Ed. by destruct (stat (fs w) diffFile). }
  unfold bind at 1.
  destruct (generateDiff _ _ _ _ _ w) as [[[]|e'|msg] w']; simpl in He; try done.
  eauto.
Qed.

(** X12: [diff.csv] without a data row. With the header alone nothing is
    resolved: the [diffs] directory is made, two lines are printed and the
    count is 0. With no record at all (an empty file) [records[1:]] is out
    of range: the program panics, after it made the directory. *)
Theorem compareFilesInCSV_without_rows dir1 dir2 sizeLimit lineLimit outputDir
    w content w1 :
  let diffDir := filepath_Join outputDir "diffs" in
  fs w !! filepath_Join outputDir "diff.csv" = Some (File true content) ->
  os_MkdirAll diffDir w = (Ok tt, w1) ->
  (forall header, csv.ReadAll content = Some [header] ->
     compareFilesInCSV dir1 dir2 sizeLimit lineLimit outputDir w
     = (Ok 0%Z, printed ["# Start comparing files" +:+ nl;
                         "# Files compared and differences stored in " +:+ diffDir
                         +:+ nl] w1)) ∧
  (csv.ReadAll content = Some [] ->
     compareFilesInCSV dir1 dir2 sizeLimit lineLimit outputDir w
     = (Panic "slice bounds out of range",
        printed ["# Start comparing files" +:+ nl] w1)).
Proof.
  intros diffDir Hfile Hmk.
  assert (forall records, csv.ReadAll content = Some records ->
            csv_ReadAll (filepath_Join outputDir "diff.csv") w = (Ok records, w)) as Hread.
  { intros records Hparse. unfold csv_ReadAll.
    erewrite bind_Ok by (by eapply readAll_File). by rewrite Hparse. }
  split.
  - intros header Hparse. unfold compareFilesInCSV. fold diffDir.
    erewrite bind_Ok by (by eapply os_Open_File).
    erewrite bind_Ok by (by apply Hread).
    erewrite bind_Ok by exact Hmk.
    erewrite bind_Ok by apply Printf_run.
    simpl. unfold bind at 1. unfold ret at 1. unfold bind at 1.
    rewrite Printf_run. unfold ret, printed. simpl. by rewrite <- app_assoc.
  - intros Hparse. unfold compareFilesInCSV. fold diffDir.
    erewrite bind_Ok by (by eapply os_Open_File).
    erewrite bind_Ok by (by apply Hread).
    erewrite bind_Ok by exact Hmk.
    by erewrite bind_Ok by apply Printf_run.
Qed.

(** X16: [generateDiff] leaves no temporary file behind, whether it wrote the
    artifact, [diff] failed or [tail] failed, and it leaves every file but
    the artifact as it was. *)
Theorem generateDiff_cleans_up w file1 file2 diffFile sizeLimit lineLimit
    data1 data2 :
  fs w !! file1 = Some (File true data1) ->
  fs w !! file2 = Some (File true data2) ->
  diffFile ≠ file1 -> diffFile ≠ file2 -> fs w !! diffFile ≠ Some Dir ->
  roomFor w diffFile ->
  let w' := snd (generateDiff file1 file2 diffFile sizeLimit lineLimit w) in
  fs w' !! tempName w "file1-" ".tmp" 0 = None ∧
  fs w' !! tempName w "file2-" ".tmp" 1 = None ∧
  delete diffFile (fs w') = delete diffFile (fs w).
Proof.
  intros H1 H2 Hd1 Hd2 Hnd Hroom w'.
  assert (delete diffFile (fs w') = delete diffFile (fs w)) as Hframe.
  { unfold w'.
    destruct (generateDiff_blocks w file1 file2 diffFile sizeLimit lineLimit
                data1 data2) as (w1 & Hsame & Hfs & Hrun); [done..|].
    rewrite Hrun.
    destruct (roomFor_after_removal w w1 diffFile) as [Hroom1 Hnone]; [done..|].
    destruct (selected sizeLimit lineLimit data1 data2) as [[c1 c2]|e|msg]; simpl.
    - rewrite diffContents_run by done.
      destruct (failedDiff _); simpl; rewrite Hfs.
      + apply delete_delete_eq.
      + rewrite delete_insert_eq. apply delete_delete_eq.
    - rewrite Hfs. apply delete_delete_eq.
    - rewrite Hfs. apply delete_delete_eq. }
  destruct Hroom as (Ht1 & _ & Ht2 & _ & Hn1 & Hn2 & _).
  split_and!; [| |done].
  - rewrite <- (lookup_delete_ne (fs w') diffFile) by done.
    rewrite Hframe. by rewrite lookup_delete_ne.
  - rewrite <- (lookup_delete_ne (fs w') diffFile) by done.
    rewrite Hframe. by rewrite lookup_delete_ne.
Qed.

End more_on_diffs.

(** ** Two stages in a row *)

Section stores_that_agree.
Context `{Externals}.

(** X8: When the two stores agree on every name, the reconciler writes the
    header alone, and the comparison that follows resolves nothing: it
    makes the [diffs] directory, prints its two lines and returns 0 (the
    names of the two directories without a CR directly before a LF, and
    [diff.csv] not a file that cannot be read). *)
Theorem stores_that_agree_give_no_difference checksums1 checksums2 dir1 dir2
    outputDir sizeLimit lineLimit w w1 w2 :
  let diffCsv := filepath_Join outputDir "diff.csv" in
  let diffDir := filepath_Join outputDir "diffs" in
  (forall name, index checksums1 name = index checksums2 name) ->
  csv.safe dir1 -> csv.safe dir2 ->
  (forall data, fs w !! diffCsv ≠ Some (File false data)) ->
  generateCombinedCSV checksums1 checksums2 dir1 dir2 outputDir w = (Ok tt, w1) ->
  os_MkdirAll diffDir w1 = (Ok tt, w2) ->
  fs w1 = <[diffCsv := File true (csv.WriteAll [headerRow dir1 dir2])]> (fs w) ∧
  compareFilesInCSV dir1 dir2 sizeLimit lineLimit outputDir w1
  = (Ok 0%Z, printed ["# Start comparing files" +:+ nl;
                      "# Files compared and differences stored in " +:+ diffDir
                      +:+ nl] w2).
Proof.
  intros diffCsv diffDir Hagree Hd1 Hd2 Hreadable Hgen Hmk.
  assert (dataRows checksums1 checksums2 = []) as Hrows.
  { destruct (dataRows checksums1 checksums2) as [|row rows] eqn:E; [done|].
    assert (row ∈ dataRows checksums1 checksums2) as Hin by (rewrite E; left).
    apply elem_of_dataRows in Hin as (name & _ & Hne & _).
    by destruct (Hne (Hagree name)). }
  assert (fs w1 = <[diffCsv := File true (csv.WriteAll [headerRow dir1 dir2])]> (fs w))
    as Hfs.
  { revert Hgen. unfold generateCombinedCSV. rewrite Hrows. fold diffCsv.
    unfold os_Create, openForWriting, file_Write, bind, get_fs, modify_fs, ret, fail.
    destruct (fs w !! diffCsv) as [[[] data|]|] eqn:E; simpl; rewrite ?E; simpl.
    - rewrite lookup_insert_eq. simpl. intros [= <-]. simpl.
      by rewrite insert_insert_eq.
    - by destruct (Hreadable data).
    - done.
    - destruct (decide (diffCsv = "")); [done|].
      destruct (parentError (fs w) diffCsv); [done|]. simpl.
      rewrite lookup_insert_eq. simpl. intros [= <-]. simpl.
      by rewrite insert_insert_eq. }
  split; [done|].
  assert (csv.ReadAll (csv.WriteAll [headerRow dir1 dir2]) = Some [headerRow dir1 dir2])
    as Hread.
  { apply (ReadAll_WriteAll 3); [lia|by repeat constructor|].
    repeat constructor; by try apply safe_Checksum. }
  unfold compareFilesInCSV. fold diffCsv diffDir.
  erewrite bind_Ok; cycle 1.
  { eapply os_Open_File. rewrite Hfs. apply lookup_insert_eq. }
  erewrite bind_Ok; cycle 1.
  { unfold csv_ReadAll. erewrite bind_Ok; cycle 1.
    { eapply readAll_File. rewrite Hfs. apply lookup_insert_eq. }
    by rewrite Hread. }
  erewrite bind_Ok by exact Hmk.
  erewrite bind_Ok by apply Printf_run.
  simpl. unfold bind at 1. unfold ret at 1. unfold bind at 1.
  rewrite Printf_run. unfold ret, printed. simpl. by rewrite <- app_assoc.
Qed.

End stores_that_agree.

Section edges.
Context `{Externals}.

(** X17: An artifact path that is taken by a directory with an entry: the
    removal fails, [generateDiff] returns that error behind the text
    [failed to remove existing diff file], and nothing is read, written or
    printed. *)
Theorem generateDiff_artifact_is_a_directory w file1 file2 diffFile sizeLimit
    lineLimit :
  fs w !! diffFile = Some Dir ->
  existsb (under diffFile) (elements (dom (fs w))) = true ->
  generateDiff file1 file2 diffFile sizeLimit lineLimit w
  = (Err (Errorf "failed to remove existing diff file"
            (PathError "remove" diffFile ENOTEMPTY)), w) ∧
  fmt_v (Errorf "failed to remove existing diff file"
           (PathError "remove" diffFile ENOTEMPTY))
  = "failed to remove existing diff file: remove " +:+ diffFile
    +:+ ": directory not empty".
Proof.
  intros Hdir Hfull. split; [|done].
  unfold generateDiff.
  erewrite bind_Ok by (eapply try_Ok; by apply os_Stat_Some). cbv beta iota.
  erewrite bind_Err; [done|].
  erewrite bind_Ok; cycle 1.
  { eapply try_Err. unfold os_Remove, bind, get_fs. rewrite Hdir, Hfull. done. }
  done.
Qed.

(** X20: [main] with another number of arguments than two prints the usage
    line and does nothing else; when the output directory cannot be made
    it prints that error and does nothing else. It returns in both cases:
    the exit status is 0. *)
Theorem main_early_returns lineLimit sizeLimit useCache debugFlag args w :
  (length args ≠ 2 ->
   main lineLimit sizeLimit useCache debugFlag args w
   = (Ok tt, printed ["Usage: compare [options] <dir1> <dir2>" +:+ nl]
               (set_debug debugFlag w))) ∧
  (forall arg0 arg1 err w1,
     args = [arg0; arg1] ->
     os_MkdirAll
       (filepath_Clean (filepath_Clean arg0 +:+ "-" +:+ filepath_Clean arg1))
       (set_debug debugFlag w) = (Err err, w1) ->
     main lineLimit sizeLimit useCache debugFlag args w
     = (Ok tt, printed ["Error creating output directory: " +:+ fmt_v err +:+ nl] w1)) ∧
  (forall e, fst (main lineLimit sizeLimit useCache debugFlag args w) = Err e -> False).
Proof.
  split_and!.
  - intros Hlen. unfold main, bind at 1.
    destruct args as [|arg0 [|arg1 [|arg2 rest]]]; try done.
  - intros arg0 arg1 err w1 -> Hmk. unfold main, bind at 1.
    erewrite bind_Ok by (eapply try_Err; apply Hmk). cbv beta iota.
    by rewrite Printf_run.
  - intros e. unfold main, bind at 1.
    destruct args as [|arg0 [|arg1 [|arg2 rest]]]; try done.
    unfold bind at 1, try.
    destruct (os_MkdirAll _ _) as [[[]|err|msg] w1]; [|done..].
    unfold bind at 1. rewrite Printf_run. unfold stages.
    unfold bind at 1, attempt.
    destruct (generateChecksums _ _ _ _) as [[m1|err|msg] w3]; [|done..].
    unfold bind at 1, attempt.
    destruct (generateChecksums _ _ _ _) as [[m2|err|msg] w4]; [|done..].
    unfold bind at 1, try.
    destruct (generateCombinedCSV _ _ _ _ _ _) as [[[]|err|msg] w5]; [|done..].
    unfold bind at 1. rewrite Printf_run.
    unfold bind at 1, attempt.
    destruct (compareFilesInCSV _ _ _ _ _ _) as [[n|err|msg] w7]; done.
Qed.

End edges.

Import scenarios.

(** ** The further properties on examples *)

(** X7 on an example: [diff.csv] for the stores [a: 1] and [a: 2]. *)
Lemma diff_csv_is_read_back_witness :
  ∃ r content,
    fs (snd (generateCombinedCSV {["a" := "1"]} {["a" := "2"]} "A" "B" "O" emptyOutput))
      !! filepath_Join "O" "diff.csv" = Some (File r content) ∧
    csv.ReadAll content
    = Some (headerRow "A" "B" :: dataRows {["a" := "1"]} {["a" := "2"]}) ∧
    csv_ReadAll (filepath_Join "O" "diff.csv")
      (snd (generateCombinedCSV {["a" := "1"]} {["a" := "2"]} "A" "B" "O" emptyOutput))
    = (Ok (headerRow "A" "B" :: dataRows {["a" := "1"]} {["a" := "2"]}),
       snd (generateCombinedCSV {["a" := "1"]} {["a" := "2"]} "A" "B" "O" emptyOutput)).
Proof.
  apply (diff_csv_is_read_back {["a" := "1"]} {["a" := "2"]} "A" "B" "O" emptyOutput);
    [by vm_compute..|].
  intros name Hin. unfold fileNames in Hin.
  rewrite !dom_singleton_L in Hin.
  apply elem_of_union in Hin as [->%elem_of_singleton | ->%elem_of_singleton];
    by vm_compute.
Defined.

(** X3 on an example: the cache [a,1,x / b,2,y / a,3,z] is loaded as
    [a: 3, b: 2]. *)
Lemma cached_build_takes_last_row_witness :
  ∃ m, generateChecksums (H := externals) "A" true "O" repeatedName
       = (Ok m, repeatedName) ∧
       forall name,
         m !! name = r ← lastRow name [["a"; "1"; "x"]; ["b"; "2"; "y"]; ["a"; "3"; "z"]];
                     r !! 1%nat.
Proof.
  apply (cached_build_takes_last_row (H := externals) "A" "O" repeatedName
           (text ["a,1,x"; "b,2,y"; "a,3,z"])); [by vm_compute..|].
  repeat constructor; simpl; lia.
Defined.

(** X1 on an example: the build of [plainName] holds [a.txt]. *)
Lemma fresh_build_maps_the_regular_files_witness :
  ({["a.txt" := digest (text ["data"])]} : gmap string string) !! "a.txt"
  = Some (digest (text ["data"])) ↔
  "a.txt" ≠ "" ∧ (SLASH ∉ b "a.txt") ∧
  filepath_Join "A" "a.txt" ≠ csvFileOf "A" "O" ∧
  ∃ data, fs plainName !! filepath_Join "A" "a.txt" = Some (File true data)
          ∧ digest (text ["data"]) = md5hex (Externals := externals) data.
Proof.
  apply (fresh_build_maps_the_regular_files (H := externals) "A" "O" plainName
           {["a.txt" := digest (text ["data"])]}
           (snd (generateChecksums (H := externals) "A" false "O" plainName))).
  by vm_compute.
Defined.

(** X4 on an example: the cache of [brokenCache] does not parse; the row
    of [a.txt] is appended to it. *)
Lemma unparsable_cache_witness :
  (forall name d,
     ({["a.txt" := digest (text ["data"])]} : gmap string string) !! name = Some d ↔
     name ≠ "" ∧ (SLASH ∉ b name) ∧
     ∃ data, fs brokenCache !! filepath_Join "A" name = Some (File true data)
             ∧ d = md5hex (Externals := externals) data) ∧
  ∃ rows, ({["a.txt" := digest (text ["data"])]} : gmap string string)
          = recorded ∅ rows ∧
          fs (snd (generateChecksums (H := externals) "A" true "O" brokenCache))
          = <[csvFileOf "A" "O" := File true ((DQUOTE :: b "oops") ++ csv.WriteAll rows)]>
              (fs brokenCache).
Proof.
  apply (unparsable_cache_is_kept_and_extended (H := externals) "A" "O" brokenCache
           (DQUOTE :: b "oops")); by vm_compute.
Defined.

(** X13 on an example: [A/f] copied onto itself is empty afterwards. *)
Lemma copyFile_onto_itself_witness :
  copyFile (H := externals) "A/f" "A/f" twoFiles
  = (Ok tt, printed ["# File copied from " +:+ "A/f" +:+ " to " +:+ "A/f" +:+ nl]
              (set_fs <[filepath_Clean (Externals := externals) "A/f" := File true []]>
                      twoFiles)).
Proof.
  apply (copyFile_onto_itself_empties (H := externals) "A/f" "A/f" twoFiles
           (text ["old"; "same"])); by vm_compute.
Defined.

(** X9 on an example: one data row, one difference. *)
Lemma compareFilesInCSV_counts_witness :
  ∃ content header rows,
    fs oneRow !! filepath_Join "D" "diff.csv" = Some (File true content) ∧
    csv.ReadAll content = Some (header :: rows) ∧
    1%Z = wrap (Z.of_nat (length rows)) ∧
    (Z.of_nat (length rows) < 2 ^ 63 -> 1 = Z.of_nat (length rows))%Z.
Proof.
  apply (compareFilesInCSV_counts_the_rows (H := externals) "A" "B" 100 50 "D" oneRow 1
           (snd (compareFilesInCSV (H := externals) "A" "B" 100 50 "D" oneRow))).
  by vm_compute.
Defined.

(** X10 on an example: the second of three records names a file that is
    on neither side. *)
Lemma compareRecords_stops_witness :
  compareRecords (H := externals) "A" "B" 100 50 "D"
    ([["b.txt"; ""; "x"]] ++ ["ghost"; ""; ""] :: [["b.txt"; ""; "x"]]) 0 oneSided
  = (Err (PathError "open" "B/ghost" ENOENT),
     snd (compareRecords (H := externals) "A" "B" 100 50 "D" [["b.txt"; ""; "x"]] 0
            oneSided)).
Proof.
  apply (compareRecords_stops_at_first_failure (H := externals) "A" "B" 100 50 "D"
           [["b.txt"; ""; "x"]] ["ghost"; ""; ""] [["b.txt"; ""; "x"]] 0 oneSided 1
           (snd (compareRecords (H := externals) "A" "B" 100 50 "D"
                   [["b.txt"; ""; "x"]] 0 oneSided))); by vm_compute.
Defined.

(** X11 on an example: [ghost] is in neither directory. *)
Lemma record_without_files_witness :
  compareRecord (H := externals) "A" "B" 100 50 "D" ["ghost"; ""; ""] 0 oneSided
  = (Err (PathError "open" (filepath_Join "B" "ghost") ENOENT), oneSided).
Proof.
  apply (record_without_files_fails (H := externals) "A" "B" 100 50 "D" "ghost"
           [""; ""] 0 oneSided); by vm_compute.
Defined.

(** X12 on an example: an empty [diff.csv]; the panic comes after the
    directory was made. *)
Lemma compareFilesInCSV_without_rows_witness :
  compareFilesInCSV (H := externals) "A" "B" 100 50 "D" emptyCsv
  = (Panic "slice bounds out of range",
     printed ["# Start comparing files" +:+ nl]
       (snd (os_MkdirAll (filepath_Join "D" "diffs") emptyCsv))).
Proof.
  destruct (compareFilesInCSV_without_rows (H := externals) "A" "B" 100 50 "D"
              emptyCsv [] (snd (os_MkdirAll (filepath_Join "D" "diffs") emptyCsv)))
    as [_ Hempty]; [by vm_compute..|].
  apply Hempty. by vm_compute.
Defined.

(** X16 on an example: the two files of [twoFiles]. *)
Lemma generateDiff_cleans_up_witness :
  fs (snd (generateDiff (H := externals) "A/f" "B/f" "D/f.diff" 1000 1 twoFiles))
    !! tempName twoFiles "file1-" ".tmp" 0 = None ∧
  fs (snd (generateDiff (H := externals) "A/f" "B/f" "D/f.diff" 1000 1 twoFiles))
    !! tempName twoFiles "file2-" ".tmp" 1 = None ∧
  delete "D/f.diff"
    (fs (snd (generateDiff (H := externals) "A/f" "B/f" "D/f.diff" 1000 1 twoFiles)))
  = delete "D/f.diff" (fs twoFiles).
Proof.
  apply (generateDiff_cleans_up (H := externals) twoFiles "A/f" "B/f" "D/f.diff" 1000 1
           (text ["old"; "same"]) (text ["new"; "same"]));
    [by vm_compute..|apply roomFor_twoFiles].
Defined.

(** X8 on an example: the same store on both sides. *)
Lemma stores_that_agree_witness :
  fs (snd (generateCombinedCSV {["a" := "1"]} {["a" := "1"]} "A" "B" "O" emptyOutput))
  = <[filepath_Join "O" "diff.csv" := File true (csv.WriteAll [headerRow "A" "B"])]>
      (fs emptyOutput) ∧
  compareFilesInCSV (H := externals) "A" "B" 100 50 "O"
    (snd (generateCombinedCSV {["a" := "1"]} {["a" := "1"]} "A" "B" "O" emptyOutput))
  = (Ok 0%Z,
     printed ["# Start comparing files" +:+ nl;
              "# Files compared and differences stored in "
              +:+ filepath_Join "O" "diffs" +:+ nl]
       (snd (os_MkdirAll (filepath_Join "O" "diffs")
               (snd (generateCombinedCSV {["a" := "1"]} {["a" := "1"]} "A" "B" "O"
                       emptyOutput))))).
Proof.
  apply (stores_that_agree_give_no_difference (H := externals)
           {["a" := "1"]} {["a" := "1"]} "A" "B" "O" 100 50 emptyOutput);
    by vm_compute.
Defined.

(** X17 on an example: [D/f.diff] is a directory that holds a file. *)
Lemma generateDiff_artifact_is_a_directory_witness :
  generateDiff (H := externals) "A/f" "B/f" "D/f.diff" 1000 1 artifactTaken
  = (Err (Errorf "failed to remove existing diff file"
            (PathError "remove" "D/f.diff" ENOTEMPTY)), artifactTaken) ∧
  fmt_v (Errorf "failed to remove existing diff file"
           (PathError "remove" "D/f.diff" ENOTEMPTY))
  = "failed to remove existing diff file: remove " +:+ "D/f.diff"
    +:+ ": directory not empty".
Proof.
  apply (generateDiff_artifact_is_a_directory (H := externals) artifactTaken
           "A/f" "B/f" "D/f.diff" 1000 1); by vm_compute.
Defined.
